(** * camview: the V4L2 capture core (src/camera.cpp, src/camera.h)

    A shallow embedding of the capture stream of camview.  The C++ code
    talks to the kernel through [stat], [v4l2_open], [v4l2_ioctl],
    [v4l2_mmap], [calloc], [poll], [v4l2_munmap] and [v4l2_close].  The
    kernel and the device are the environment: they are modelled by a
    [world] that holds a script of answers (one per call whose result the
    code inspects), the current [errno] and the trace of calls issued so
    far.  Every function of camera.cpp becomes a computation in the monad
    [M] over that world.

    What is assumed of the environment: a call that fails (a negative
    result) sets [errno]; a control operation that is to be issued again
    (it returned -1 with EINTR or EAGAIN) has done nothing to the
    structure it was handed.  Any other control operation, failed or
    not, may have rewritten that structure in any way.  Nothing else is
    assumed: the device may grant any number of buffers, report any
    length, and the mapping call may return any address.

    Not modelled: what the program prints.  The log macros of log.h are
    calls of printf, which may change [errno]; the [errno] of a world is
    the one the last failed call of this embedding left, which, where a
    line was logged since, is the value from before the logging.

    The command line of src/main.cpp ([init_context] and what it calls)
    is embedded too, on top of [create_stream] and [start].  [strchr]
    and [atoi] are the C library's, modelled after the C standard; what
    the program prints is not modelled; the OpenGL part of main.cpp is
    left out. *)

From Stdlib Require Import Ascii.
From stdpp Require Import base numbers list strings relations pretty.

Open Scope Z_scope.

(** ** Machine integers

    The fixed-width unsigned types of the source, as [Z] with the
    wrap-around of a C++ conversion written out. *)

Definition u8 (x : Z) : Z := x mod 2 ^ 8.

Definition u16 (x : Z) : Z := x mod 2 ^ 16.

Definition u32 (x : Z) : Z := x mod 2 ^ 32.

Definition u64 (x : Z) : Z := x mod 2 ^ 64.

(** ** Constants

    The first two are camera.cpp's own; the others come from the system
    headers the file includes (Linux values). *)

Definition POLL_TIMEOUT_MS : Z := 1000.

Definition BUFFERS_CNT : Z := 2.

Definition EINTR : Z := 4.

Definition EAGAIN : Z := 11.

Definition POLLIN : Z := 1.

Definition MAP_FAILED : Z := -1.

Definition NULL : Z := 0.

Definition S_IFMT : Z := 61440.

Definition S_IFCHR : Z := 8192.

Definition O_RDWR : Z := 2.

Definition O_NONBLOCK : Z := 2048.

Definition V4L2_BUF_TYPE_VIDEO_CAPTURE : Z := 1.

Definition V4L2_MEMORY_MMAP : Z := 1.

Definition V4L2_FIELD_ANY : Z := 0.

Definition S_ISCHR (mode : Z) : bool := Z.land mode S_IFMT =? S_IFCHR.

(** The ioctl requests camera.cpp issues. *)
Inductive request : Type :=
| VIDIOC_S_FMT
| VIDIOC_REQBUFS
| VIDIOC_QUERYBUF
| VIDIOC_QBUF
| VIDIOC_DQBUF
| VIDIOC_STREAMON
| VIDIOC_S_PARM.

#[global] Instance request_eq_dec : EqDecision request.
Proof. solve_decision. Defined.

(** ** Data of camera.h and camera.cpp *)

(** [struct image] (camera.h). *)
Record image : Type := mk_image {
  img_id : Z;
  img_w : Z;
  img_h : Z;
  img_data : Z;
  img_bytes : Z;
  img_sec : Z;
  img_nsec : Z
}.

(** [struct params] (camera.h): [w], [h] are 16 bits, [fps] 8, [fmt] 32. *)
Record params : Type := mk_params {
  p_w : Z;
  p_h : Z;
  p_fps : Z;
  p_fmt : Z
}.

(** [struct buffer_view] (camera.cpp). *)
Record buffer_view : Type := mk_buffer_view {
  bv_data : Z;
  bv_size : Z
}.

(** [struct frame] (camera.cpp); the array behind [buf] is a list. *)
Record frame : Type := mk_frame {
  fr_w : Z;
  fr_h : Z;
  fr_bufcnt : Z;
  fr_buf : list buffer_view
}.

(** The fields of the kernel's [struct v4l2_buffer] the code touches. *)
Record v4l2_buffer : Type := mk_v4l2_buffer {
  vb_index : Z;
  vb_type : Z;
  vb_bytesused : Z;
  vb_sequence : Z;
  vb_tv_sec : Z;
  vb_tv_usec : Z;
  vb_memory : Z;
  vb_offset : Z;
  vb_length : Z
}.

Record v4l2_format : Type := mk_v4l2_format {
  fmt_type : Z;
  fmt_width : Z;
  fmt_height : Z;
  fmt_pixelformat : Z;
  fmt_field : Z
}.

Record v4l2_requestbuffers : Type := mk_v4l2_requestbuffers {
  req_count : Z;
  req_type : Z;
  req_memory : Z
}.

Record v4l2_streamparm : Type := mk_v4l2_streamparm {
  par_type : Z;
  par_numerator : Z;
  par_denominator : Z
}.

(** [class device] (camera.cpp). *)
Record device : Type := mk_device {
  dev_fd : Z;
  dev_frame : frame;
  dev_buf : v4l2_buffer
}.

(** [class stream] holds a reference to the device it owns. *)
Record stream : Type := mk_stream {
  dev_ : device
}.

Definition zero_buffer : v4l2_buffer := mk_v4l2_buffer 0 0 0 0 0 0 0 0 0.

Definition zero_view : buffer_view := mk_buffer_view NULL 0.

Definition set_frame (d : device) (f : frame) : device :=
  mk_device (dev_fd d) f (dev_buf d).

Definition set_buf (d : device) (b : v4l2_buffer) : device :=
  mk_device (dev_fd d) (dev_frame d) b.

Definition set_bytesused (b : v4l2_buffer) (n : Z) : v4l2_buffer :=
  mk_v4l2_buffer (vb_index b) (vb_type b) n (vb_sequence b) (vb_tv_sec b)
    (vb_tv_usec b) (vb_memory b) (vb_offset b) (vb_length b).

Definition set_wh (f : frame) (w h : Z) : frame :=
  mk_frame w h (fr_bufcnt f) (fr_buf f).

Definition set_bufcnt (f : frame) (n : Z) : frame :=
  mk_frame (fr_w f) (fr_h f) n (fr_buf f).

Definition set_bufs (f : frame) (l : list buffer_view) : frame :=
  mk_frame (fr_w f) (fr_h f) (fr_bufcnt f) l.

Definition set_size (n : Z) (b : buffer_view) : buffer_view :=
  mk_buffer_view (bv_data b) n.

Definition set_data (a : Z) (b : buffer_view) : buffer_view :=
  mk_buffer_view a (bv_size b).

(** ** The environment *)

(** What a call wrote into the structure it was handed. *)
Inductive payload : Type :=
| NoData
| StatData (st_mode : Z)
| FmtData (width height pixelformat : Z)
| ReqData (count : Z)
| BufData (b : v4l2_buffer)
| ParmData (denominator : Z)
| PollData (revents : Z).

(** One answer of the environment: the value the call returns, the error
    number it leaves when it fails, and what it wrote. *)
Record answer : Type := mk_answer {
  rc : Z;
  err : Z;
  out : payload
}.

(** What a trace keeps of the argument of an ioctl. *)
Inductive arg_view : Type :=
| AFmt (width height pixelformat : Z)
| AReq (count : Z)
| ABuf (index bytesused : Z)
| AParm (denominator : Z)
| AType (type : Z).

(** The calls the code issued, with what they returned.  [EvIoctl] keeps
    the argument on entry and on return, the result, and [errno] after
    the call. *)
Inductive event : Type :=
| EvStat (path : string) (r : Z)
| EvOpen (path : string) (flags : Z) (r : Z)
| EvIoctl (fd : Z) (req : request) (arg res : arg_view) (r e : Z)
| EvCalloc (n : Z) (ptr : Z)
| EvMmap (len off fd : Z) (addr : Z)
| EvMunmap (addr len : Z)
| EvClose (fd : Z)
| EvPoll (fd timeout : Z) (r e : Z).

(** The answers still to come, [errno], and the calls so far, oldest
    first. *)
Record world : Type := mk_world {
  script : list answer;
  errno : Z;
  trace : list event
}.

(** ** The monad

    A computation either finishes with a value and a new world, or is
    [Starved] (the script ran out while the call was still waiting for
    the environment), or is [Undefined] (the C++ code read an array out
    of bounds). *)

Inductive outcome (A : Type) : Type :=
| Done (a : A) (w : world)
| Starved
| Undefined.

Arguments Done {A} a w.

Arguments Starved {A}.

Arguments Undefined {A}.

Definition M (A : Type) : Type := world -> outcome A.

Definition ret {A} (a : A) : M A := fun w => Done a w.

Definition bind {A B} (m : M A) (k : A -> M B) : M B :=
  fun w => match m w with
           | Done a w' => k a w'
           | Starved => Starved
           | Undefined => Undefined
           end.

Notation "'do' p <- m ;; k" := (bind m (fun x => match x with p => k end))
  (at level 10, p pattern, m at level 99, k at level 200).

Definition undefined {A} : M A := fun _ => Undefined.

(** Takes the next answer of the script; a failing answer sets [errno]. *)
Definition next_answer : M answer :=
  fun w => match script w with
           | [] => Starved
           | a :: s =>
               Done a (mk_world s (if rc a <? 0 then err a else errno w)
                                 (trace w))
           end.

Definition emit (e : event) : M unit :=
  fun w => Done tt (mk_world (script w) (errno w) (trace w ++ [e])).

Definition get_errno : M Z := fun w => Done (errno w) w.

(** Runs a loop body with as much fuel as the script is long: every
    iteration of the loops below takes at least one answer, so the fuel
    cannot run out before the script does. *)
Definition fueled {A} (f : nat -> M A) : M A :=
  fun w => f (length (script w)) w.

(** ** The calls into the environment *)

Definition stat (path : string) : M (Z * Z) :=
  do a <- next_answer ;;
  do _ <- emit (EvStat path (rc a)) ;;
  ret (rc a, match out a with StatData m => m | _ => 0 end).

Definition v4l2_open (path : string) (flags : Z) : M Z :=
  do a <- next_answer ;;
  do _ <- emit (EvOpen path flags (rc a)) ;;
  ret (rc a).

(** The structures an ioctl can be handed: how the device sees them and
    how they take what the device wrote. *)
Class IoctlArg (A : Type) : Type := {
  view : A -> arg_view;
  absorb : A -> payload -> A
}.

#[global] Instance v4l2_format_arg : IoctlArg v4l2_format := {
  view f := AFmt (fmt_width f) (fmt_height f) (fmt_pixelformat f);
  absorb f p :=
    match p with
    | FmtData w h pf => mk_v4l2_format (fmt_type f) (u32 w) (u32 h) (u32 pf)
                                       (fmt_field f)
    | _ => f
    end
}.

#[global] Instance v4l2_requestbuffers_arg : IoctlArg v4l2_requestbuffers := {
  view r := AReq (req_count r);
  absorb r p :=
    match p with
    | ReqData c => mk_v4l2_requestbuffers (u32 c) (req_type r) (req_memory r)
    | _ => r
    end
}.

#[global] Instance v4l2_buffer_arg : IoctlArg v4l2_buffer := {
  view b := ABuf (vb_index b) (vb_bytesused b);
  absorb b p :=
    match p with
    | BufData b' =>
        mk_v4l2_buffer (u32 (vb_index b')) (vb_type b') (u32 (vb_bytesused b'))
          (u32 (vb_sequence b')) (vb_tv_sec b') (vb_tv_usec b') (vb_memory b')
          (u32 (vb_offset b')) (u32 (vb_length b'))
    | _ => b
    end
}.

#[global] Instance v4l2_streamparm_arg : IoctlArg v4l2_streamparm := {
  view s := AParm (par_denominator s);
  absorb s p :=
    match p with
    | ParmData d => mk_v4l2_streamparm (par_type s) (par_numerator s) (u32 d)
    | _ => s
    end
}.

(** [enum v4l2_buf_type], the argument of VIDIOC_STREAMON. *)
Record buf_type : Type := mk_buf_type { bt : Z }.

#[global] Instance buf_type_arg : IoctlArg buf_type := {
  view t := AType (bt t);
  absorb t _ := t
}.

(** The answers [dev_ioctl] retries on: -1 with EINTR or EAGAIN. *)
Definition transient (a : answer) : bool :=
  (rc a =? -1) && ((err a =? EINTR) || (err a =? EAGAIN)).

(** The structure after the call: as it was when the call is to be issued
    again, and else, whether the call failed or not, with whatever the
    answer wrote into it. *)
Definition written {A} `{IoctlArg A} (arg : A) (a : answer) : A :=
  if transient a then arg else absorb arg (out a).

(** The event records the argument on entry and on return. *)
Definition v4l2_ioctl {A} `{IoctlArg A} (fd : Z) (req : request) (arg : A)
  : M (Z * A) :=
  do a <- next_answer ;;
  do e <- get_errno ;;
  let arg' := written arg a in
  do _ <- emit (EvIoctl fd req (view arg) (view arg') (rc a) e) ;;
  ret (rc a, arg').

Definition calloc (n : Z) : M Z :=
  do a <- next_answer ;;
  do _ <- emit (EvCalloc n (rc a)) ;;
  ret (rc a).

Definition v4l2_mmap (len off fd : Z) : M Z :=
  do a <- next_answer ;;
  do _ <- emit (EvMmap len off fd (rc a)) ;;
  ret (rc a).

(** [fds.revents] is 0 on entry; the kernel fills it in. *)
Definition poll (fd timeout : Z) : M (Z * Z) :=
  do a <- next_answer ;;
  do e <- get_errno ;;
  do _ <- emit (EvPoll fd timeout (rc a) e) ;;
  ret (rc a, match out a with PollData r => r | _ => 0 end).

(** The code ignores what these two return. *)
Definition v4l2_munmap (addr len : Z) : M unit := emit (EvMunmap addr len).

Definition v4l2_close (fd : Z) : M unit := emit (EvClose fd).

(** ** camera.cpp *)

(** [dev_ioctl] (lines 55-66):
    do rc = v4l2_ioctl(fd, req, arg);
    while (rc == -1 && (errno == EINTR || errno == EAGAIN));
    return rc >= 0. *)
Fixpoint dev_ioctl_loop {A} `{IoctlArg A} (n : nat) (fd : Z) (req : request)
  (arg : A) : M (bool * A) :=
  match n with
  | O => fun _ => Starved
  | S n' =>
      do (r, arg') <- v4l2_ioctl fd req arg ;;
      do e <- get_errno ;;
      if (r =? -1) && ((e =? EINTR) || (e =? EAGAIN))
      then dev_ioctl_loop n' fd req arg'
      else if r <? 0 then ret (false, arg') else ret (true, arg')
  end.

Definition dev_ioctl {A} `{IoctlArg A} (fd : Z) (req : request) (arg : A)
  : M (bool * A) :=
  fueled (fun n => dev_ioctl_loop n fd req arg).

(** [open_camera] (lines 68-87): the descriptor, or -1.  The lines it
    logs when the stat or the open fails are not modelled, nor what
    printing them does to [errno]. *)
Definition open_camera (path : string) : M Z :=
  do (r, mode) <- stat path ;;
  if r <? 0 then ret (-1)
  else if negb (S_ISCHR mode) then ret (-1)
  else
    do fd <- v4l2_open path (Z.lor O_RDWR O_NONBLOCK) ;;
    if fd <? 0 then ret (-1) else ret fd.

(** [set_framerate] (lines 89-106): 0 when the request fails, else the
    denominator the device left, cut to the 8 bits of the return type. *)
Definition set_framerate (d : device) (fps : Z) : M Z :=
  let par := mk_v4l2_streamparm V4L2_BUF_TYPE_VIDEO_CAPTURE 1 fps in
  do (ok, par') <- dev_ioctl (dev_fd d) VIDIOC_S_PARM par ;;
  if negb ok then ret 0 else ret (u8 (par_denominator par')).

(** A [v4l2_buffer] after memset, with type, memory and index set. *)
Definition fresh_buffer (i : Z) : v4l2_buffer :=
  mk_v4l2_buffer i V4L2_BUF_TYPE_VIDEO_CAPTURE 0 0 0 0 V4L2_MEMORY_MMAP 0 0.

Definition alter_buf (f : buffer_view -> buffer_view) (i : Z) (d : device)
  : device :=
  set_frame d (set_bufs (dev_frame d)
                 (alter f (Z.to_nat i) (fr_buf (dev_frame d)))).

(** [init_stream], the loop of lines 151-172:
    for (bufcnt = 0; bufcnt < req.count; ++bufcnt) { query; map }.
    [bufcnt] is 8 bits wide and wraps; [count] is the 32-bit [req.count].
    The index written is below [count], the length of the array. *)
Fixpoint map_buffers (n : nat) (count : Z) (d : device) : M (bool * device) :=
  let i := fr_bufcnt (dev_frame d) in
  if i <? count then
    match n with
    | O => fun _ => Starved
    | S n' =>
        do (ok, buf) <- dev_ioctl (dev_fd d) VIDIOC_QUERYBUF (fresh_buffer i) ;;
        if negb ok then ret (false, d)
        else
          let d1 := alter_buf (set_size (vb_length buf)) i d in
          do addr <- v4l2_mmap (vb_length buf) (vb_offset buf) (dev_fd d) ;;
          let d2 := alter_buf (set_data addr) i d1 in
          if addr =? MAP_FAILED then ret (false, d2)
          else map_buffers n' count
                 (set_frame d2 (set_bufcnt (dev_frame d2) (u8 (i + 1))))
    end
  else ret (true, d).

(** [init_stream], the loop of lines 174-184:
    for (uint8_t i = 0; i < bufcnt; ++i) { enqueue buffer i }. *)
Fixpoint queue_buffers (n : nat) (i : Z) (d : device) : M bool :=
  if i <? fr_bufcnt (dev_frame d) then
    match n with
    | O => fun _ => Starved
    | S n' =>
        do (ok, _) <- dev_ioctl (dev_fd d) VIDIOC_QBUF (fresh_buffer i) ;;
        if negb ok then ret false
        else queue_buffers n' (u8 (i + 1)) d
    end
  else ret true.

(** [init_stream], lines 135-189: what follows the format negotiation. *)
Definition init_buffers (d : device) (p : params)
  : M (bool * device * params) :=
  let req := mk_v4l2_requestbuffers BUFFERS_CNT V4L2_BUF_TYPE_VIDEO_CAPTURE
               V4L2_MEMORY_MMAP in
  do (ok, req') <- dev_ioctl (dev_fd d) VIDIOC_REQBUFS req ;;
  if negb ok then ret (false, d, p)
  else
    do ptr <- calloc (req_count req') ;;
    if ptr =? NULL then ret (false, set_frame d (set_bufs (dev_frame d) []), p)
    else
      let d1 := set_frame d
                  (mk_frame (fr_w (dev_frame d)) (fr_h (dev_frame d)) 0
                     (replicate (Z.to_nat (req_count req')) zero_view)) in
      do (ok, d2) <- fueled (fun n => map_buffers n (req_count req') d1) ;;
      if negb ok then ret (false, d2, p)
      else
        do ok <- queue_buffers (Z.to_nat (fr_bufcnt (dev_frame d2))) 0 d2 ;;
        if negb ok then ret (false, d2, p)
        else
          do fps <- set_framerate d2 (p_fps p) ;;
          ret (true, d2, mk_params (p_w p) (p_h p) fps (p_fmt p)).

(** [init_stream] (lines 108-189). *)
Definition init_stream (d : device) (p : params)
  : M (bool * device * params) :=
  let fmt := mk_v4l2_format V4L2_BUF_TYPE_VIDEO_CAPTURE (p_w p) (p_h p)
               (p_fmt p) V4L2_FIELD_ANY in
  do (ok, fmt') <- dev_ioctl (dev_fd d) VIDIOC_S_FMT fmt ;;
  if negb ok then ret (false, d, p)
  else if negb (fmt_pixelformat fmt' =? p_fmt p) then ret (false, d, p)
  else
    let w := u16 (fmt_width fmt') in
    let h := u16 (fmt_height fmt') in
    init_buffers (set_frame d (set_wh (dev_frame d) w h))
      (mk_params w h (p_fps p) (p_fmt p)).

(** [device::device(int fd)]: [frame.w] and [frame.h] start at 0; the
    members without an initialiser ([frame.bufcnt], [frame.buf], [buf])
    hold whatever the allocator left, given here by [indet]. *)
Definition new_device (fd : Z) (indet : device) : device :=
  mk_device fd
    (mk_frame 0 0 (u8 (fr_bufcnt (dev_frame indet)))
       (fr_buf (dev_frame indet)))
    (dev_buf indet).

(** [device::~device] (lines 43-49): the loop, then the close. *)
Fixpoint unmap_buffers (n : nat) (i : Z) (d : device) : M unit :=
  if i <? fr_bufcnt (dev_frame d) then
    match n with
    | O => fun _ => Starved
    | S n' =>
        match fr_buf (dev_frame d) !! Z.to_nat i with
        | None => undefined
        | Some b =>
            do _ <- v4l2_munmap (bv_data b) (bv_size b) ;;
            unmap_buffers n' (u8 (i + 1)) d
        end
    end
  else ret tt.

Definition delete_device (d : device) : M unit :=
  do _ <- unmap_buffers (Z.to_nat (fr_bufcnt (dev_frame d))) 0 d ;;
  v4l2_close (dev_fd d).

(** [create_stream] (lines 191-206).  A null [path] is [None]; so is a
    null result.  When [init_stream] fails the device object is neither
    deleted nor handed out. *)
Definition create_stream (path : option string) (p : params) (indet : device)
  : M (option stream * params) :=
  match path with
  | None => ret (None, p)
  | Some path =>
      do fd <- open_camera path ;;
      if fd <? 0 then ret (None, p)
      else
        let dev := new_device fd indet in
        do (ok, dev', p') <- init_stream dev p ;;
        if negb ok then ret (None, p')
        else ret (Some (mk_stream dev'), p')
  end.

(** [stream::~stream] (line 209): delete &dev_. *)
Definition delete_stream (s : stream) : M unit := delete_device (dev_ s).

(** [stream::start] (lines 211-220). *)
Definition start (s : stream) : M bool :=
  do (ok, _) <- dev_ioctl (dev_fd (dev_ s)) VIDIOC_STREAMON
                  (mk_buf_type V4L2_BUF_TYPE_VIDEO_CAPTURE) ;;
  ret ok.

(** [stream::get_frame_size] (lines 222-226). *)
Definition get_frame_size (s : stream) : Z * Z :=
  (fr_w (dev_frame (dev_ s)), fr_h (dev_frame (dev_ s))).

(** [stream::put_frame] (lines 228-233). *)
Definition put_frame (s : stream) : M stream :=
  let d := dev_ s in
  if vb_bytesused (dev_buf d) =? 0 then ret s
  else
    do (_, b) <- dev_ioctl (dev_fd d) VIDIOC_QBUF (dev_buf d) ;;
    ret (mk_stream (set_buf d b)).

(** [stream::get_frame], the loop of lines 241-276.  The flag tells how
    the loop was left: [true] by a break, [false] by a return false.
    [errno] is read right after the poll; the lines logged before a
    return false are not modelled, nor what printing them does to
    [errno]. *)
Fixpoint get_frame_loop (n : nat) (d : device) (o : image)
  : M (bool * device * image) :=
  match n with
  | O => fun _ => Starved
  | S n' =>
      do (r, revents) <- poll (dev_fd d) POLL_TIMEOUT_MS ;;
      if r =? 0 then ret (true, d, o)
      else if r <? 0 then
        do e <- get_errno ;;
        if e =? EINTR then get_frame_loop n' d o else ret (false, d, o)
      else if Z.land revents POLLIN =? 0 then get_frame_loop n' d o
      else
        do (ok, b) <- dev_ioctl (dev_fd d) VIDIOC_DQBUF (fresh_buffer 0) ;;
        let d' := set_buf d b in
        if negb ok then ret (false, d', o)
        else
          match fr_buf (dev_frame d) !! Z.to_nat (vb_index b) with
          | None => undefined
          | Some v =>
              ret (true, d',
                   mk_image (vb_sequence b) (fr_w (dev_frame d))
                     (fr_h (dev_frame d)) (bv_data v) (vb_bytesused b)
                     (u64 (vb_tv_sec b)) (u64 (vb_tv_usec b * 1000)))
          end
  end.

(** [stream::get_frame] (lines 235-279): the stream and the caller's
    image are both in and out. *)
Definition get_frame (s : stream) (o : image) : M (bool * stream * image) :=
  let d := set_buf (dev_ s) (set_bytesused (dev_buf (dev_ s)) 0) in
  do (brk, d', o') <- fueled (fun n => get_frame_loop n d o) ;;
  if brk then ret (negb (img_bytes o' =? 0), mk_stream d', o')
  else ret (false, mk_stream d', o').

(** ** Reading the environment's answers *)

(** [errno] after a call that got the answer [a]. *)
Definition errno_after (e : Z) (a : answer) : Z :=
  if rc a <? 0 then err a else e.

(** The trace of one ioctl issued again and again, once per answer. *)
Fixpoint ioctl_events {A} `{IoctlArg A} (fd : Z) (req : request) (arg : A)
  (e : Z) (l : list answer) : list event :=
  match l with
  | [] => []
  | a :: l' =>
      EvIoctl fd req (view arg) (view (written arg a)) (rc a)
        (errno_after e a)
        :: ioctl_events fd req arg (errno_after e a) l'
  end.

(** An ioctl event that reports a failure [dev_ioctl] does not retry. *)
Definition hard_failure (ev : event) : bool :=
  match ev with
  | EvIoctl _ _ _ _ r e =>
      (r <? 0) && negb ((r =? -1) && ((e =? EINTR) || (e =? EAGAIN)))
  | _ => false
  end.

(** An ioctl event of the request [q]. *)
Definition ioctl_of (q : request) (ev : event) : bool :=
  match ev with
  | EvIoctl _ req _ _ _ _ => bool_decide (req = q)
  | _ => false
  end.

(** An event that gives a resource back: an unmap or a close. *)
Definition releases (ev : event) : bool :=
  match ev with
  | EvMunmap _ _ | EvClose _ => true
  | _ => false
  end.

(** The (length, address) pairs of the mappings a trace created. *)
Fixpoint mappings (evs : list event) : list (Z * Z) :=
  match evs with
  | [] => []
  | EvMmap len _ _ addr :: evs' =>
      if addr =? MAP_FAILED then mappings evs' else (len, addr) :: mappings evs'
  | _ :: evs' => mappings evs'
  end.

(** ** The vocabulary of the statements *)

(** Neither an unmap nor a close nor a frame-rate request. *)
Definition plain (ev : event) : Prop :=
  releases ev = false /\ ioctl_of VIDIOC_S_PARM ev = false.

(** Not a failure for good. *)
Definition calm (ev : event) : Prop := hard_failure ev = false.

(** The shape shared by [stat], [v4l2_open], [calloc] and [v4l2_mmap]. *)
Definition simple_call {A} (ev : answer -> event) (f : answer -> A) : M A :=
  do a <- next_answer ;;
  do _ <- emit (ev a) ;;
  ret (f a).

(** The device after one good turn of the mapping loop. *)
Definition next_slot (d : device) (len addr : Z) : device :=
  let i := fr_bufcnt (dev_frame d) in
  let d2 := alter_buf (set_data addr) i (alter_buf (set_size len) i d) in
  set_frame d2 (set_bufcnt (dev_frame d2) (u8 (i + 1))).

(** A recorded buffer as the (length, address) pair of its mapping. *)
Definition region (b : buffer_view) : Z * Z := (bv_size b, bv_data b).

(** What the trace of a construction says about its result: nothing is
    unmapped or closed; a control operation that failed for good made the
    construction fail, except the frame-rate request, whose failure
    leaves the construction standing with a frame rate of 0. *)
Definition construction_log (ok : bool) (fps : Z) (evs : list event) : Prop :=
  Forall (fun ev => releases ev = false) evs /\
  forall ev, ev ∈ evs -> hard_failure ev = true ->
    if ioctl_of VIDIOC_S_PARM ev then ok = true /\ fps = 0 else ok = false.

(** The pool as a successful construction leaves it: as many slots as
    the device granted, each holding one mapping of the trace. *)
Definition pool_ok (fd : Z) (f : frame) (evs : list event) : Prop :=
  (exists r e,
     EvIoctl fd VIDIOC_REQBUFS (AReq BUFFERS_CNT) (AReq (fr_bufcnt f)) r e
       ∈ evs /\ 0 <= r) /\
  Z.of_nat (length (fr_buf f)) = fr_bufcnt f /\
  0 <= fr_bufcnt f < 256 /\
  region <$> fr_buf f = mappings evs.

(** The format request [init_stream] builds from the caller's hints. *)
Definition format_hint (p : params) : v4l2_format :=
  mk_v4l2_format V4L2_BUF_TYPE_VIDEO_CAPTURE (p_w p) (p_h p) (p_fmt p)
    V4L2_FIELD_ANY.

(** The device and the params [init_stream] goes on with once the
    format [f] came back with the requested pixel format. *)
Definition negotiated_device (d : device) (f : v4l2_format) : device :=
  set_frame d (set_wh (dev_frame d) (u16 (fmt_width f)) (u16 (fmt_height f))).

Definition negotiated_params (p : params) (f : v4l2_format) : params :=
  mk_params (u16 (fmt_width f)) (u16 (fmt_height f)) (p_fps p) (p_fmt p).

(** Whether [create_stream] returned a stream. *)
Definition created (r : option stream) : bool :=
  match r with Some _ => true | None => false end.

(** The [revents] a poll answer leaves. *)
Definition poll_revents (a : answer) : Z :=
  match out a with PollData r => r | _ => 0 end.

(** [get_frame], lines 259-275: the dequeue and the image built from it. *)
Definition dequeue (d : device) (o : image) : M (bool * device * image) :=
  do (ok, b) <- dev_ioctl (dev_fd d) VIDIOC_DQBUF (fresh_buffer 0) ;;
  let d' := set_buf d b in
  if negb ok then ret (false, d', o)
  else
    match fr_buf (dev_frame d) !! Z.to_nat (vb_index b) with
    | None => undefined
    | Some v =>
        ret (true, d',
             mk_image (vb_sequence b) (fr_w (dev_frame d))
               (fr_h (dev_frame d)) (bv_data v) (vb_bytesused b)
               (u64 (vb_tv_sec b)) (u64 (vb_tv_usec b * 1000)))
    end.

(** A poll answer after which [get_frame] polls again: interrupted, or
    ready without POLLIN. *)
Definition poll_again (a : answer) : bool :=
  if rc a =? 0 then false
  else if rc a <? 0 then err a =? EINTR
  else Z.land (poll_revents a) POLLIN =? 0.

(** The trace of the polls of [get_frame], once per answer. *)
Definition poll_event (fd : Z) (e : Z) (a : answer) : event :=
  EvPoll fd POLL_TIMEOUT_MS (rc a) (errno_after e a).

Fixpoint poll_events (fd : Z) (e : Z) (l : list answer) : list event :=
  match l with
  | [] => []
  | a :: l' => poll_event fd e a :: poll_events fd (errno_after e a) l'
  end.

(** Neither an enqueue nor an unmap nor a close. *)
Definition no_return (ev : event) : Prop :=
  ioctl_of VIDIOC_QBUF ev = false /\ releases ev = false.

(** A dequeue that failed for good and yet left a byte count in the
    record it was handed. *)
Definition tainted (ev : event) : bool :=
  match ev with
  | EvIoctl _ VIDIOC_DQBUF _ (ABuf _ bytesused) r _ =>
      (r <? 0) && negb (bytesused =? 0)
  | _ => false
  end.

(** One call of the stream's interface, in any order, any number of
    times, each on whatever image the caller passes. *)
Inductive step : stream * world -> stream * world -> Prop :=
| step_start s w ok w' :
    start s w = Done ok w' -> step (s, w) (s, w')
| step_get_frame s o w ok s' o' w' :
    get_frame s o w = Done (ok, s', o') w' -> step (s, w) (s', w')
| step_put_frame s w s' w' :
    put_frame s w = Done s' w' -> step (s, w) (s', w').

(** Any sequence of such calls. *)
Definition lives : stream * world -> stream * world -> Prop := rtc step.

(** The unmap of a recorded buffer. *)
Definition unmap_event (b : buffer_view) : event :=
  EvMunmap (bv_data b) (bv_size b).

(** [put_frame] called [n] times in a row. *)
Fixpoint put_frames (n : nat) (s : stream) : M stream :=
  match n with
  | O => ret s
  | S n' => do s' <- put_frame s ;; put_frames n' s'
  end.

(** An answer with which the device does not rewrite a buffer record. *)
Definition keeps_record (a : answer) : bool :=
  match out a with BufData _ => false | _ => true end.

(** An enqueue of the buffer record the stream holds. *)
Definition submits (s : stream) (ev : event) : Prop :=
  exists res r e,
    ev = EvIoctl (dev_fd (dev_ s)) VIDIOC_QBUF (view (dev_buf (dev_ s)))
           res r e.

(** An enqueue of the buffer record the stream holds, left as it was. *)
Definition enqueue_of (s : stream) (ev : event) : Prop :=
  exists r e,
    ev = EvIoctl (dev_fd (dev_ s)) VIDIOC_QBUF (view (dev_buf (dev_ s)))
           (view (dev_buf (dev_ s))) r e.

(** ** Sample devices

    Scripts and states of concrete runs, used to try the theorems on. *)

Definition video0 : string := "/dev/video0".

(** The four-character code MJPG. *)
Definition MJPG : Z := 1196444237.

Definition hints : params := mk_params 640 480 30 MJPG.

(** What the allocator may have left in a new device object. *)
Definition limbo : device :=
  mk_device 0 (mk_frame 0 0 7 []) (mk_v4l2_buffer 9 9 9 9 9 9 9 9 9).

Definition a_chardev : answer := mk_answer 0 0 (StatData 8624).

Definition a_fd : answer := mk_answer 3 0 NoData.

Definition a_format (w h pf : Z) : answer := mk_answer 0 0 (FmtData w h pf).

Definition a_granted (n : Z) : answer := mk_answer 0 0 (ReqData n).

Definition a_array : answer := mk_answer 24576 0 NoData.

Definition a_queried (i : Z) : answer :=
  mk_answer 0 0 (BufData (mk_v4l2_buffer i 1 0 0 0 0 1 (i * 614400) 614400)).

Definition a_mapped (addr : Z) : answer := mk_answer addr 0 NoData.

Definition a_done : answer := mk_answer 0 0 NoData.

Definition a_rate (fps : Z) : answer := mk_answer 0 0 (ParmData fps).

Definition a_einval : answer := mk_answer (-1) 22 NoData.

Definition a_timeout : answer := mk_answer 0 0 NoData.

Definition a_readable : answer := mk_answer 1 0 (PollData POLLIN).

Definition a_frame (i bytes seq : Z) : answer :=
  mk_answer 0 0 (BufData (mk_v4l2_buffer i 1 bytes seq 100 250 1 0 614400)).

(** A device that does what it is asked: two buffers of 614400 bytes. *)
Definition plain_camera : list answer :=
  [a_chardev; a_fd; a_format 640 480 MJPG; a_granted 2; a_array;
   a_queried 0; a_mapped 1000000; a_queried 1; a_mapped 2000000;
   a_done; a_done; a_rate 30].

Definition boot (l : list answer) : world := mk_world l 0 [].

Definition plain_trace : list event :=
  [EvStat video0 0; EvOpen video0 2050 3;
   EvIoctl 3 VIDIOC_S_FMT (AFmt 640 480 MJPG) (AFmt 640 480 MJPG) 0 0;
   EvIoctl 3 VIDIOC_REQBUFS (AReq 2) (AReq 2) 0 0;
   EvCalloc 2 24576;
   EvIoctl 3 VIDIOC_QUERYBUF (ABuf 0 0) (ABuf 0 0) 0 0;
   EvMmap 614400 0 3 1000000;
   EvIoctl 3 VIDIOC_QUERYBUF (ABuf 1 0) (ABuf 1 0) 0 0;
   EvMmap 614400 614400 3 2000000;
   EvIoctl 3 VIDIOC_QBUF (ABuf 0 0) (ABuf 0 0) 0 0;
   EvIoctl 3 VIDIOC_QBUF (ABuf 1 0) (ABuf 1 0) 0 0].

Definition cam_pool : list buffer_view :=
  [mk_buffer_view 1000000 614400; mk_buffer_view 2000000 614400].

(** The stream [plain_camera] gives, holding the buffer record [b]. *)
Definition cam (b : v4l2_buffer) : stream :=
  mk_stream (mk_device 3 (mk_frame 640 480 2 cam_pool) b).

Definition blank : image := mk_image 0 0 0 0 0 0 0.

(** The device maps the first buffer, then refuses the second query. *)
Definition broken_query : list answer :=
  [a_chardev; a_fd; a_format 640 480 MJPG; a_granted 2; a_array;
   a_queried 0; a_mapped 1000000; a_einval].

Definition broken_query_trace : list event :=
  [EvStat video0 0; EvOpen video0 2050 3;
   EvIoctl 3 VIDIOC_S_FMT (AFmt 640 480 MJPG) (AFmt 640 480 MJPG) 0 0;
   EvIoctl 3 VIDIOC_REQBUFS (AReq 2) (AReq 2) 0 0;
   EvCalloc 2 24576;
   EvIoctl 3 VIDIOC_QUERYBUF (ABuf 0 0) (ABuf 0 0) 0 0;
   EvMmap 614400 0 3 1000000;
   EvIoctl 3 VIDIOC_QUERYBUF (ABuf 1 0) (ABuf 1 0) (-1) 22].

Definition opened_world : world :=
  mk_world (drop 2 plain_camera) 0 (take 2 plain_trace).

Definition negotiated_world : world :=
  mk_world (drop 3 plain_camera) 0 (take 3 plain_trace).




Definition timed_out : world := mk_world [] 0 [EvPoll 3 POLL_TIMEOUT_MS 0 0].

(** The image of an earlier frame, as a caller may pass it again. *)
Definition earlier_frame : image := mk_image 41 640 480 1000000 52133 100 250000.

(** An image variable the caller never initialised (main.cpp passes one). *)
Definition stack_garbage : image := mk_image 7 1 1 12345 5 0 0.

Definition lived_world : world :=
  mk_world [] 0
    (plain_trace
     ++ [EvIoctl 3 VIDIOC_S_PARM (AParm 30) (AParm 30) 0 0;
         EvIoctl 3 VIDIOC_STREAMON (AType 1) (AType 1) 0 0;
         EvPoll 3 POLL_TIMEOUT_MS 0 0]).

(** The device's answer to an enqueue when it rewrites the record: the
    byte count is back to 0. *)
Definition a_requeued (i : Z) : answer :=
  mk_answer 0 0 (BufData (mk_v4l2_buffer i 1 0 0 0 0 1 0 614400)).

Definition frame7 : image := mk_image 7 640 480 2000000 52133 100 250000.

(** A dequeue that fails with EIO (5) after the record was filled in, as
    a call that went through a conversion layer may. *)
Definition a_filled_then_failed : answer :=
  mk_answer (-1) 5 (BufData (mk_v4l2_buffer 1 1 52133 7 100 250 1 0 614400)).

Definition record7 : v4l2_buffer :=
  mk_v4l2_buffer 1 1 52133 7 100 250 1 0 614400.

Definition dequeued_trace : list event :=
  [EvPoll 3 POLL_TIMEOUT_MS 1 0;
   EvIoctl 3 VIDIOC_DQBUF (ABuf 0 0) (ABuf 1 52133) 0 0].

(** After the frame of [frame7]: three enqueues to come, the second
    refused, none rewriting the record. *)
Definition thrice : world :=
  mk_world [a_done; a_einval; a_done] 0 dequeued_trace.

(** ** More vocabulary: the calls one by one *)

(** The file mode a stat answer leaves. *)
Definition st_mode_of (a : answer) : Z :=
  match out a with StatData m => m | _ => 0 end.

(** A poll answer that says the descriptor is readable. *)
Definition poll_ready (a : answer) : bool :=
  (0 <? rc a) && negb (Z.land (poll_revents a) POLLIN =? 0).

(** A poll answer that is a failure other than an interruption. *)
Definition poll_broken (a : answer) : bool :=
  (rc a <? 0) && negb (err a =? EINTR).

(** The image [get_frame] builds from the dequeued record [b] and the
    pool slot [v] it names (lines 268-274). *)
Definition frame_image (d : device) (b : v4l2_buffer) (v : buffer_view)
  : image :=
  mk_image (vb_sequence b) (fr_w (dev_frame d)) (fr_h (dev_frame d))
    (bv_data v) (vb_bytesused b) (u64 (vb_tv_sec b))
    (u64 (vb_tv_usec b * 1000)).

(** A stat or an open. *)
Definition file_call (ev : event) : bool :=
  match ev with
  | EvStat _ _ | EvOpen _ _ _ => true
  | _ => false
  end.

(** A buffer query or a mapping call. *)
Definition map_call (ev : event) : bool :=
  match ev with
  | EvMmap _ _ _ _ => true
  | _ => ioctl_of VIDIOC_QUERYBUF ev
  end.

(** The slots a trace enqueued: the index of every enqueue that did not
    fail, oldest first. *)
Fixpoint enqueued (evs : list event) : list Z :=
  match evs with
  | [] => []
  | EvIoctl _ VIDIOC_QBUF (ABuf i _) _ r _ :: evs' =>
      if r <? 0 then enqueued evs' else i :: enqueued evs'
  | _ :: evs' => enqueued evs'
  end.

(** The width and the height the device answered to the first format
    request of a trace that did not fail and came back with the pixel
    format [pf]. *)
Fixpoint accepted_format (pf : Z) (evs : list event) : option (Z * Z) :=
  match evs with
  | [] => None
  | EvIoctl _ VIDIOC_S_FMT _ (AFmt w h pf') r _ :: evs' =>
      if (0 <=? r) && (pf' =? pf) then Some (w, h)
      else accepted_format pf evs'
  | _ :: evs' => accepted_format pf evs'
  end.

(** The frame-rate request [set_framerate] builds (lines 93-95). *)
Definition rate_hint (fps : Z) : v4l2_streamparm :=
  mk_v4l2_streamparm V4L2_BUF_TYPE_VIDEO_CAPTURE 1 fps.

(** ** More vocabulary: a construction, call by call *)

(** The answers one control operation gets: those after which
    [dev_ioctl] issues it again, then the one that settles it. *)
Definition round : Type := list answer * answer.

Definition answers_of (r : round) : list answer := r.1 ++ [r.2].

(** The operation is retried, then succeeds. *)
Definition goes_through (r : round) : Prop :=
  Forall (fun x => transient x = true) r.1 /\ 0 <= rc r.2.

(** The operation is retried, then fails with another error. *)
Definition fails_for_good (r : round) : Prop :=
  Forall (fun x => transient x = true) r.1 /\
  transient r.2 = false /\ rc r.2 < 0.

(** One good turn of the mapping loop: the query goes through and the
    mapping call does not fail. *)
Definition maps_one (t : round * answer) : Prop :=
  goes_through t.1 /\ rc t.2 <> MAP_FAILED.

Definition turn_answers (t : round * answer) : list answer :=
  answers_of t.1 ++ [t.2].

(** [m] takes the answers [xs], no more and no fewer, and returns a
    result that satisfies [P]. *)
Definition consumes {A} (m : M A) (xs : list answer) (P : A -> Prop) : Prop :=
  forall rest e tr, exists r e' tr',
    P r /\ m (mk_world (xs ++ rest) e tr) = Done r (mk_world rest e' tr').

(** What the environment answers while a stream is constructed, in the
    order of the calls of [create_stream]. *)
Record construction : Type := mk_construction {
  on_stat : answer;
  on_open : answer;
  on_format : round;
  on_request : round;
  on_calloc : answer;
  on_maps : list (round * answer);
  on_enqueues : list round
}.

(** The buffer request [init_stream] builds (lines 135-139). *)
Definition buffer_request : v4l2_requestbuffers :=
  mk_v4l2_requestbuffers BUFFERS_CNT V4L2_BUF_TYPE_VIDEO_CAPTURE
    V4L2_MEMORY_MMAP.

(** The path is a character device and the open succeeds. *)
Definition opens (c : construction) : Prop :=
  0 <= rc (on_stat c) /\ S_ISCHR (st_mode_of (on_stat c)) = true /\
  0 <= rc (on_open c).

(** The format the device leaves in the request. *)
Definition format_answer (p : params) (c : construction) : v4l2_format :=
  written (format_hint p) (on_format c).2.

(** The format request goes through and the pixel format is the one
    asked for. *)
Definition negotiates (p : params) (c : construction) : Prop :=
  goes_through (on_format c) /\
  fmt_pixelformat (format_answer p c) = p_fmt p.

(** The number of buffers the device leaves in the buffer request. *)
Definition buffers_granted (c : construction) : Z :=
  req_count (written buffer_request (on_request c).2).

(** The buffer request goes through and the array is allocated. *)
Definition allots (c : construction) : Prop :=
  goes_through (on_request c) /\ rc (on_calloc c) <> NULL.

(** The answers of the construction, stage by stage. *)
Definition opening (c : construction) : list answer := [on_stat c; on_open c].

Definition negotiation (c : construction) : list answer :=
  answers_of (on_format c).

Definition mapping (c : construction) : list answer :=
  answers_of (on_request c) ++ on_calloc c
    :: concat (turn_answers <$> on_maps c).

Definition enqueueing (c : construction) : list answer :=
  concat (answers_of <$> on_enqueues c).

(** * main.cpp: the command line *)

(** ** What the C library does *)

Definition INT_MIN : Z := - 2 ^ 31.
Definition INT_MAX : Z := 2 ^ 31 - 1.

Definition char_code (c : ascii) : Z := Z.of_N (N_of_ascii c).

(** [isspace] and [isdigit] in the C locale. *)
Definition isspace (c : ascii) : bool :=
  (char_code c =? 32) || ((9 <=? char_code c) && (char_code c <=? 13)).

Definition isdigit (c : ascii) : bool :=
  (48 <=? char_code c) && (char_code c <=? 57).

(** [strchr]: the rest of the string from the first [c] on, a null
    pointer ([None]) when there is none; the terminator counts as part of
    the string. *)
Fixpoint strchr (s : string) (c : ascii) : option string :=
  match s with
  | EmptyString => if Ascii.eqb c zero then Some EmptyString else None
  | String a s' => if Ascii.eqb a c then Some s else strchr s' c
  end.

(** A pointer into a string, moved on by one character. *)
Definition next_char (s : string) : string :=
  match s with
  | EmptyString => EmptyString
  | String _ s' => s'
  end.

Fixpoint skip_spaces (s : string) : string :=
  match s with
  | String c s' => if isspace c then skip_spaces s' else s
  | EmptyString => s
  end.

(** The value of the decimal digits [s] starts with, after [acc]. *)
Fixpoint decimal (acc : Z) (s : string) : Z :=
  match s with
  | String c s' => if isdigit c then decimal (10 * acc + (char_code c - 48)) s'
                   else acc
  | EmptyString => acc
  end.

(** The number [strtol] reads in base 10: white space, a sign, digits. *)
Definition strtol10 (s : string) : Z :=
  match skip_spaces s with
  | String "-" s' => - decimal 0 s'
  | String "+" s' => decimal 0 s'
  | s' => decimal 0 s'
  end.

(** [atoi]: the behaviour is undefined ([None]) when the number is not
    an [int]. *)
Definition atoi (s : string) : option Z :=
  let n := strtol10 s in
  if (INT_MIN <=? n) && (n <=? INT_MAX) then Some n else None.

(** ** Pixel formats *)

Definition v4l2_fourcc (a b c d : ascii) : Z :=
  Z.lor (Z.lor (char_code a) (Z.shiftl (char_code b) 8))
        (Z.lor (Z.shiftl (char_code c) 16) (Z.shiftl (char_code d) 24)).

Definition V4L2_PIX_FMT_RGB24 : Z := v4l2_fourcc "R" "G" "B" "3".
Definition V4L2_PIX_FMT_MJPEG : Z := v4l2_fourcc "M" "J" "P" "G".

(** ** The context *)

(** [struct context] (lines 74-89), the fields [init_context] touches.
    [fps] is a float in the source; the one value it is given here is
    30. *)
Record context : Type := mk_context {
  ctx_fps : Z;
  ctx_print_fps : bool;
  ctx_dev : option string;
  ctx_cam : params;
  ctx_stream : option stream
}.

Definition set_ctx_fps (c : context) (n : Z) : context :=
  mk_context n (ctx_print_fps c) (ctx_dev c) (ctx_cam c) (ctx_stream c).

Definition set_print_fps (c : context) (b : bool) : context :=
  mk_context (ctx_fps c) b (ctx_dev c) (ctx_cam c) (ctx_stream c).

Definition set_ctx_dev (c : context) (d : option string) : context :=
  mk_context (ctx_fps c) (ctx_print_fps c) d (ctx_cam c) (ctx_stream c).

Definition set_cam (c : context) (p : params) : context :=
  mk_context (ctx_fps c) (ctx_print_fps c) (ctx_dev c) p (ctx_stream c).

Definition set_ctx_stream (c : context) (s : option stream) : context :=
  mk_context (ctx_fps c) (ctx_print_fps c) (ctx_dev c) (ctx_cam c) s.

Definition set_fmt (p : params) (fmt : Z) : params :=
  mk_params (p_w p) (p_h p) (p_fps p) fmt.

Definition set_p_fps (p : params) (fps : Z) : params :=
  mk_params (p_w p) (p_h p) fps (p_fmt p).

(** ** The options *)

(** [opt] (lines 327-330): [arg] is the short or the long name. *)
Definition opt (arg args argl : string) : bool :=
  String.eqb arg args || String.eqb arg argl.

(** How a piece of the argument loop ends: it goes on with a value, the
    program exits, the behaviour is undefined, or the fuel ran out. *)
Inductive verdict (A : Type) : Type :=
| Goes (a : A)
| Quits (code : Z)
| Wild
| Tired.

Arguments Goes {A} a.
Arguments Quits {A} code.
Arguments Wild {A}.
Arguments Tired {A}.

(** The branch of [-p] (lines 349-361), after [i++]: [arg] is [argv[i]],
    a null pointer when the option was the last argument.  It goes on
    with [geom_w] and the hints. *)
Definition params_option (arg : option string) (cam : params)
  : verdict (string * params) :=
  match arg with
  | None => Quits 1
  | Some geom_w =>
      match strchr geom_w "x" with
      | None => Quits 1
      | Some geom_h =>
          let with_fps :=
            match strchr geom_h "@" with
            | Some fps =>
                match atoi (next_char fps) with
                | Some n => Some (set_p_fps cam (u8 n))
                | None => None
                end
            | None => Some cam
            end in
          match with_fps, atoi geom_w, atoi (next_char geom_h) with
          | Some cam', Some w, Some h =>
              Goes (geom_w, mk_params (u16 w) (u16 h) (p_fps cam') (p_fmt cam'))
          | _, _, _ => Wild
          end
      end
  end.

(** The argument loop (lines 343-370) from index [i] on.  [i] is a
    [uint8_t], compared with [argc] as an [int]; [argv[argc]] is a null
    pointer.  [geom_w] is [None] as long as nothing was assigned to it. *)
Fixpoint parse_args (fuel : nat) (argv : list string) (i : Z)
    (geom_w : option string) (ctx : context)
  : verdict (option string * context) :=
  if negb (i <? Z.of_nat (length argv)) then Goes (geom_w, ctx)
  else
    match fuel with
    | O => Tired
    | S fuel =>
        match argv !! Z.to_nat i with
        | None => Wild
        | Some arg =>
            if opt arg "-d" "--dev" then
              let i := u8 (i + 1) in
              parse_args fuel argv (u8 (i + 1)) geom_w
                (set_ctx_dev ctx (argv !! Z.to_nat i))
            else if opt arg "-p" "--params" then
              let i := u8 (i + 1) in
              match params_option (argv !! Z.to_nat i) (ctx_cam ctx) with
              | Goes (g, cam) =>
                  parse_args fuel argv (u8 (i + 1)) (Some g) (set_cam ctx cam)
              | Quits c => Quits c
              | Wild => Wild
              | Tired => Tired
              end
            else if opt arg "-j" "--jpeg" then
              parse_args fuel argv (u8 (i + 1)) geom_w
                (set_cam ctx (set_fmt (ctx_cam ctx) V4L2_PIX_FMT_MJPEG))
            else if opt arg "-f" "--fps" then
              parse_args fuel argv (u8 (i + 1)) geom_w (set_print_fps ctx true)
            else if opt arg "-h" "--help" then Quits 1
            else parse_args fuel argv (u8 (i + 1)) geom_w ctx
        end
    end.

(** How [init_context] ends: it returns, the program exits, or the
    argument loop never ends. *)
Inductive ending : Type :=
| Returns (ctx : context)
| Exits (code : Z)
| Spins.

(** Assigning to the [unique_ptr] [ctx->stream] (line 380): the stream it
    held, if any, is deleted. *)
Definition assign_stream (ctx : context) (s : option stream) : M context :=
  do _ <- match ctx_stream ctx with
          | Some old => delete_stream old
          | None => ret tt
          end ;;
  ret (set_ctx_stream ctx s).

(** [init_context], lines 380-386: the stream is created on the device
    [dev] with the hints of the context, and started. *)
Definition open_stream (ctx : context) (dev : string) (indet : device)
  : M ending :=
  do (s, cam) <- create_stream (Some dev) (ctx_cam ctx) indet ;;
  do ctx <- assign_stream (set_cam ctx cam) s ;;
  match s with
  | None => ret (Exits 1)
  | Some s =>
      do ok <- start s ;;
      if negb ok then ret (Exits 1) else ret (Returns ctx)
  end.

(** [init_context] (lines 332-387).  [help] (lines 313-325) and the log
    lines only print, and what is printed is not modelled.  Line 377
    prints [geom_w] as a string; when no [-p] was given nothing was
    assigned to that pointer, and the program prints what it finds there
    and goes on. *)
Definition init_context (fuel : nat) (argv : list string) (ctx : context)
    (indet : device) : M ending :=
  let ctx := set_cam ctx (set_fmt (ctx_cam ctx) V4L2_PIX_FMT_RGB24) in
  let ctx := set_ctx_fps ctx 30 in
  let ctx := set_ctx_dev ctx None in
  match parse_args fuel argv 0 None ctx with
  | Tired => ret Spins
  | Wild => undefined
  | Quits c => ret (Exits c)
  | Goes (_, ctx) =>
      match ctx_dev ctx with
      | None => ret (Exits 1)
      | Some dev => open_stream ctx dev indet
      end
  end.

(** ** Decimal strings *)

Fixpoint all_digits (s : string) : bool :=
  match s with
  | EmptyString => true
  | String c s' => isdigit c && all_digits s'
  end.

(** A string at which a decimal number ends: the end of the string or a
    character that is no digit. *)
Definition ends_number (s : string) : bool :=
  match s with
  | EmptyString => true
  | String c _ => negb (isdigit c)
  end.

(** Whether a run of [init_context] ended in the argument loop going
    round without end. *)
Definition spinning (o : outcome ending) : bool :=
  match o with
  | Done Spins _ => true
  | _ => false
  end.

(** Whether an argument is the option [-p]. *)
Definition is_params_option (arg : string) : bool := opt arg "-p" "--params".

(** ** More sample data *)

Definition a_eintr : answer := mk_answer (-1) EINTR NoData.

Definition a_eagain : answer := mk_answer (-1) EAGAIN NoData.

(** A poll that reports a hang-up (POLLHUP, 16) and nothing to read. *)
Definition a_hangup : answer := mk_answer 1 0 (PollData 16).

(** The world once [broken_query] has answered the stat and the open. *)
Definition broken_opened : world :=
  mk_world (drop 2 broken_query) 0 (take 2 broken_query_trace).

(** What [main]'s context may hold when [init_context] is called: nothing
    was assigned to it, and the stream pointer is null. *)
Definition raw_context : context :=
  mk_context 7 true (Some "junk") (mk_params 1 2 3 4) None.

Definition command_line : list string :=
  ["camview"; "-d"; video0; "-p"; "640x480@30"; "-j"].

(** [plain_camera], and a stream that starts. *)
Definition streaming_camera : list answer := plain_camera ++ [a_done].

(** The world after [create_stream] on [plain_camera]. *)
Definition plain_world : world :=
  mk_world [] 0
    (plain_trace ++ [EvIoctl 3 VIDIOC_S_PARM (AParm 30) (AParm 30) 0 0]).

(** The device [broken_query] leaves behind: one buffer mapped. *)
Definition half_built : device :=
  mk_device 3
    (mk_frame 640 480 1 [mk_buffer_view 1000000 614400; zero_view])
    (dev_buf limbo).

(** The context and the world after [init_context] on [command_line]
    and [streaming_camera]. *)
Definition ready_context : context :=
  mk_context 30 true (Some video0) hints (Some (cam (dev_buf limbo))).

Definition streaming_world : world :=
  mk_world [] 0
    (plain_trace
     ++ [EvIoctl 3 VIDIOC_S_PARM (AParm 30) (AParm 30) 0 0;
         EvIoctl 3 VIDIOC_STREAMON (AType 1) (AType 1) 0 0]).

(** The same with a stream that does not start. *)
Definition refused_world : world :=
  mk_world [] 22
    (plain_trace
     ++ [EvIoctl 3 VIDIOC_S_PARM (AParm 30) (AParm 30) 0 0;
         EvIoctl 3 VIDIOC_STREAMON (AType 1) (AType 1) (-1) 22]).

(** A camera that maps two buffers and enqueues the first; the enqueue
    of the second is then refused. *)
Definition two_mapped : construction :=
  mk_construction a_chardev a_fd ([], a_format 640 480 MJPG)
    ([], a_granted 2) a_array
    [(([], a_queried 0), a_mapped 1000000);
     (([], a_queried 1), a_mapped 2000000)]
    [([], a_done)].





(** ** The monad's equations *)

Lemma bind_Done_inv {A B} (m : M A) (k : A -> M B) w b w' :
  bind m k w = Done b w' ->
  exists a w1, m w = Done a w1 /\ k a w1 = Done b w'.
Proof.
  unfold bind. destruct (m w) as [a w1| |] eqn:E; try discriminate.
  intros H. exists a, w1. split; [reflexivity | exact H].
Qed.

Lemma bind_Done {A B} (m : M A) (k : A -> M B) w a w1 :
  m w = Done a w1 -> bind m k w = k a w1.
Proof. unfold bind. intros ->. reflexivity. Qed.

Lemma world_eta w : mk_world (script w) (errno w) (trace w) = w.
Proof. destruct w; reflexivity. Qed.

(** ** The retrying ioctl wrapper *)

Lemma transient_test (a : answer) (e : Z) :
  (rc a =? -1) && ((errno_after e a =? EINTR) || (errno_after e a =? EAGAIN))
  = transient a.
Proof.
  unfold transient, errno_after.
  destruct (rc a =? -1) eqn:E; [|reflexivity].
  apply Z.eqb_eq in E. rewrite E. reflexivity.
Qed.

Lemma transient_fails (a : answer) :
  transient a = true -> (rc a <? 0) = true.
Proof.
  unfold transient. intros H. apply andb_true_iff in H as [H _].
  apply Z.eqb_eq in H. rewrite H. reflexivity.
Qed.

Lemma dev_ioctl_loop_step {A} `{IoctlArg A} n fd req (arg : A) a s e tr :
  dev_ioctl_loop (S n) fd req arg (mk_world (a :: s) e tr) =
  let w1 := mk_world s (errno_after e a)
              (tr ++ [EvIoctl fd req (view arg) (view (written arg a)) (rc a)
                        (errno_after e a)]) in
  if transient a then dev_ioctl_loop n fd req arg w1
  else Done (negb (rc a <? 0), written arg a) w1.
Proof.
  cbn [dev_ioctl_loop]. unfold bind, v4l2_ioctl, bind, next_answer, get_errno,
    emit, ret. cbn [script errno trace].
  fold (errno_after e a). rewrite transient_test.
  destruct (transient a) eqn:T.
  - unfold written. rewrite T. reflexivity.
  - destruct (rc a <? 0); reflexivity.
Qed.

Lemma dev_ioctl_loop_nil {A} `{IoctlArg A} n fd req (arg : A) e tr :
  dev_ioctl_loop n fd req arg (mk_world [] e tr) = Starved.
Proof. destruct n; reflexivity. Qed.

Lemma dev_ioctl_loop_run {A} `{IoctlArg A} fd req (arg : A) ts a rest :
  Forall (fun x => transient x = true) ts ->
  transient a = false ->
  forall n e tr, (length ts < n)%nat ->
  dev_ioctl_loop n fd req arg (mk_world (ts ++ a :: rest) e tr) =
  Done (negb (rc a <? 0), written arg a)
       (mk_world rest (fold_left errno_after (ts ++ [a]) e)
          (tr ++ ioctl_events fd req arg e (ts ++ [a]))).
Proof.
  intros Hts Ha. induction Hts as [|t ts Ht _ IH]; intros n e tr Hn.
  - destruct n as [|n]; [simpl in Hn; lia|].
    cbn [app]. rewrite dev_ioctl_loop_step. cbn zeta. rewrite Ha.
    reflexivity.
  - destruct n as [|n]; [simpl in Hn; lia|].
    cbn [app]. rewrite dev_ioctl_loop_step. cbn zeta. rewrite Ht.
    rewrite IH by (simpl in Hn; lia).
    cbn [fold_left ioctl_events]. rewrite <- app_assoc. reflexivity.
Qed.

Lemma dev_ioctl_loop_starves {A} `{IoctlArg A} fd req (arg : A) ts :
  Forall (fun x => transient x = true) ts ->
  forall n e tr, dev_ioctl_loop n fd req arg (mk_world ts e tr) = Starved.
Proof.
  induction 1 as [|t ts Ht _ IH]; intros n e tr.
  - apply dev_ioctl_loop_nil.
  - destruct n as [|n]; [reflexivity|].
    rewrite dev_ioctl_loop_step. cbn zeta. rewrite Ht. apply IH.
Qed.

(** What a finished [dev_ioctl_loop] tells about the script it ran on. *)
Lemma dev_ioctl_loop_inv {A} `{IoctlArg A} n fd req (arg : A) w ok arg' w' :
  dev_ioctl_loop n fd req arg w = Done (ok, arg') w' ->
  exists ts a,
    script w = ts ++ a :: script w' /\
    Forall (fun x => transient x = true) ts /\
    transient a = false /\
    ok = negb (rc a <? 0) /\
    arg' = written arg a /\
    errno w' = fold_left errno_after (ts ++ [a]) (errno w) /\
    trace w' = trace w
               ++ ioctl_events fd req arg (errno w) (ts ++ [a]).
Proof.
  revert w. induction n as [|n IH]; intros [s e tr] Hrun; [discriminate|].
  destruct s as [|a s]; [discriminate|].
  rewrite dev_ioctl_loop_step in Hrun. cbn zeta in Hrun.
  destruct (transient a) eqn:T.
  - apply IH in Hrun as (ts & b & Hs & Hts & Hb & Hok & Harg & He & Htr).
    cbn [script errno trace] in *.
    exists (a :: ts), b. cbn [app fold_left ioctl_events].
    rewrite Hs, He, Htr, <- app_assoc. repeat split; try assumption.
    constructor; assumption.
  - injection Hrun as Hok Harg Hw. subst w'. cbn [script errno trace].
    exists [], a. repeat split; auto.
Qed.

Lemma dev_ioctl_inv {A} `{IoctlArg A} fd req (arg : A) w ok arg' w' :
  dev_ioctl fd req arg w = Done (ok, arg') w' ->
  exists ts a,
    script w = ts ++ a :: script w' /\
    Forall (fun x => transient x = true) ts /\
    transient a = false /\
    ok = negb (rc a <? 0) /\
    arg' = written arg a /\
    errno w' = fold_left errno_after (ts ++ [a]) (errno w) /\
    trace w' = trace w
               ++ ioctl_events fd req arg (errno w) (ts ++ [a]).
Proof. apply dev_ioctl_loop_inv. Qed.

(** C7: [dev_ioctl] issues the operation again for every answer that is
    -1 with EINTR or EAGAIN, one call per answer; the first other answer
    ends it at once: [true] when that answer is not negative (and the
    argument then holds what the device wrote), [false] when it is (the
    argument then holds whatever the failed call left in it).  While the
    device keeps answering with EINTR or EAGAIN the call does not
    return. *)
Theorem dev_ioctl_retries {A} `{IoctlArg A} fd req (arg : A) ts a rest e tr :
  Forall (fun x => transient x = true) ts ->
  transient a = false ->
  dev_ioctl fd req arg (mk_world (ts ++ a :: rest) e tr) =
    Done (negb (rc a <? 0), written arg a)
         (mk_world rest (fold_left errno_after (ts ++ [a]) e)
            (tr ++ ioctl_events fd req arg e (ts ++ [a])))
  /\ length (ioctl_events fd req arg e (ts ++ [a])) = S (length ts)
  /\ dev_ioctl fd req arg (mk_world ts e tr) = Starved.
Proof.
  intros Hts Ha. split; [|split].
  - unfold dev_ioctl, fueled. cbn [script].
    apply dev_ioctl_loop_run; [assumption..|].
    rewrite length_app. simpl. lia.
  - generalize e. clear. induction ts as [|t ts IH]; intros e.
    + reflexivity.
    + cbn [app ioctl_events length]. rewrite IH. reflexivity.
  - unfold dev_ioctl, fueled. apply dev_ioctl_loop_starves. assumption.
Qed.

Lemma dev_ioctl_retries_witness :
  dev_ioctl 3 VIDIOC_QBUF (fresh_buffer 1)
    (mk_world [mk_answer (-1) EINTR NoData; mk_answer (-1) EAGAIN NoData;
               mk_answer 0 0 NoData; mk_answer (-1) 22 NoData] 0 []) =
  Done (true, fresh_buffer 1)
    (mk_world [mk_answer (-1) 22 NoData] EAGAIN
       [EvIoctl 3 VIDIOC_QBUF (ABuf 1 0) (ABuf 1 0) (-1) EINTR;
        EvIoctl 3 VIDIOC_QBUF (ABuf 1 0) (ABuf 1 0) (-1) EAGAIN;
        EvIoctl 3 VIDIOC_QBUF (ABuf 1 0) (ABuf 1 0) 0 EAGAIN]).
Proof.
  refine (proj1 (dev_ioctl_retries 3 VIDIOC_QBUF (fresh_buffer 1)
                   [mk_answer (-1) EINTR NoData; mk_answer (-1) EAGAIN NoData]
                   (mk_answer 0 0 NoData) [mk_answer (-1) 22 NoData] 0 []
                   _ _)).
  - repeat constructor.
  - reflexivity.
Defined.

(** ** What the calls leave in the trace *)

Lemma next_answer_inv w a w' :
  next_answer w = Done a w' ->
  script w = a :: script w' /\
  errno w' = errno_after (errno w) a /\
  trace w' = trace w.
Proof.
  unfold next_answer. destruct (script w) as [|b s]; [discriminate|].
  intros [= -> <-]. cbn. auto.
Qed.

Lemma emit_inv e w u w' :
  emit e w = Done u w' ->
  script w' = script w /\ errno w' = errno w /\ trace w' = trace w ++ [e].
Proof. unfold emit. intros [= _ <-]. cbn. auto. Qed.

Lemma simple_call_inv {A} (ev : answer -> event) (f : answer -> A) w x w' :
  simple_call ev f w = Done x w' ->
  exists a, script w = a :: script w' /\ x = f a /\
            errno w' = errno_after (errno w) a /\
            trace w' = trace w ++ [ev a].
Proof.
  unfold simple_call. intros H.
  apply bind_Done_inv in H as (a & w1 & H1 & H).
  apply bind_Done_inv in H as (u & w2 & H2 & H).
  apply next_answer_inv in H1 as (Hs & He & Ht).
  apply emit_inv in H2 as (Hs2 & He2 & Ht2).
  injection H as <- <-. exists a.
  rewrite Hs2, He2, Ht2, Ht. auto.
Qed.

Lemma ioctl_events_of {A} `{IoctlArg A} fd req (arg : A) e l :
  Forall (fun ev => ioctl_of req ev = true) (ioctl_events fd req arg e l).
Proof.
  revert e. induction l as [|a l IH]; intros e; cbn [ioctl_events].
  - constructor.
  - constructor; [|apply IH]. cbn. apply bool_decide_eq_true. reflexivity.
Qed.

Lemma ioctl_events_calm {A} `{IoctlArg A} fd req (arg : A) e ts a :
  Forall (fun x => transient x = true) ts ->
  (rc a <? 0) = false ->
  Forall calm (ioctl_events fd req arg e (ts ++ [a])).
Proof.
  intros Hts Ha. revert e.
  induction Hts as [|t ts Ht _ IH]; intros e; cbn [app ioctl_events].
  - repeat constructor. unfold calm. cbn. rewrite Ha. reflexivity.
  - constructor; [|apply IH]. unfold calm. cbn.
    rewrite transient_test, Ht, andb_false_r. reflexivity.
Qed.

Lemma dev_ioctl_trace {A} `{IoctlArg A} fd req (arg : A) w ok arg' w' :
  dev_ioctl fd req arg w = Done (ok, arg') w' ->
  exists evs, trace w' = trace w ++ evs /\
              Forall (fun ev => ioctl_of req ev = true) evs /\
              (ok = true -> Forall calm evs).
Proof.
  intros Hrun.
  apply dev_ioctl_inv in Hrun as (ts & a & _ & Hts & _ & Hok & _ & _ & Htr).
  eexists. split; [exact Htr|]. split; [apply ioctl_events_of|].
  intros ->. apply ioctl_events_calm; [assumption|].
  destruct (rc a <? 0); [discriminate | reflexivity].
Qed.

Lemma ioctl_of_plain req ev :
  req <> VIDIOC_S_PARM -> ioctl_of req ev = true -> plain ev.
Proof.
  destruct ev; cbn; try discriminate. intros Hne Hreq.
  apply bool_decide_eq_true in Hreq. subst. split; [reflexivity|].
  apply bool_decide_eq_false. congruence.
Qed.

Lemma ioctl_events_plain req evs :
  Forall (fun ev => ioctl_of req ev = true) evs ->
  req <> VIDIOC_S_PARM -> Forall plain evs.
Proof.
  intros Hof Hne. eapply Forall_impl; [exact Hof|].
  intros ev. apply ioctl_of_plain. exact Hne.
Qed.

Lemma ioctl_of_mappings req evs :
  Forall (fun ev => ioctl_of req ev = true) evs -> mappings evs = [].
Proof.
  induction 1 as [|ev evs Hev _ IH]; [reflexivity|].
  destruct ev; cbn in Hev; try discriminate. exact IH.
Qed.

Lemma mappings_app evs1 evs2 :
  mappings (evs1 ++ evs2) = mappings evs1 ++ mappings evs2.
Proof.
  induction evs1 as [|ev evs1 IH]; [reflexivity|].
  destruct ev; cbn [app mappings]; try exact IH.
  destruct (addr =? MAP_FAILED); cbn [app]; rewrite IH; reflexivity.
Qed.

(** ** Mapping the pool *)

(** One turn of the mapping loop, case by case. *)
Lemma map_buffers_step n count d w ok d' w' :
  (fr_bufcnt (dev_frame d) <? count) = true ->
  map_buffers (S n) count d w = Done (ok, d') w' ->
  exists okq buf w1,
    dev_ioctl (dev_fd d) VIDIOC_QUERYBUF
      (fresh_buffer (fr_bufcnt (dev_frame d))) w = Done (okq, buf) w1 /\
    ((okq = false /\ ok = false /\ d' = d /\ w' = w1) \/
     (okq = true /\
      exists addr w2,
        v4l2_mmap (vb_length buf) (vb_offset buf) (dev_fd d) w1
          = Done addr w2 /\
        ((addr = MAP_FAILED /\ ok = false /\ w' = w2 /\
          d' = alter_buf (set_data addr) (fr_bufcnt (dev_frame d))
                 (alter_buf (set_size (vb_length buf))
                    (fr_bufcnt (dev_frame d)) d)) \/
         (addr <> MAP_FAILED /\
          map_buffers n count (next_slot d (vb_length buf) addr) w2
            = Done (ok, d') w')))).
Proof.
  intros Hlt Hrun. cbn [map_buffers] in Hrun. rewrite Hlt in Hrun.
  apply bind_Done_inv in Hrun as ([okq buf] & w1 & Hq & Hrun).
  exists okq, buf, w1. split; [exact Hq|].
  destruct okq; cbn [negb] in Hrun.
  - right. split; [reflexivity|].
    apply bind_Done_inv in Hrun as (addr & w2 & Hm & Hrun).
    exists addr, w2. split; [exact Hm|].
    destruct (addr =? MAP_FAILED) eqn:E.
    + left. apply Z.eqb_eq in E. injection Hrun as <- <- <-. auto.
    + right. apply Z.eqb_neq in E. split; [exact E | exact Hrun].
  - left. injection Hrun as <- <- <-. auto.
Qed.

Lemma map_buffers_exit n count d w :
  (fr_bufcnt (dev_frame d) <? count) = false ->
  map_buffers n count d w = Done (true, d) w.
Proof. intros Hge. destruct n; cbn [map_buffers]; rewrite Hge; reflexivity. Qed.

Lemma v4l2_mmap_inv len off fd w addr w' :
  v4l2_mmap len off fd w = Done addr w' ->
  trace w' = trace w ++ [EvMmap len off fd addr].
Proof.
  intros H.
  apply (simple_call_inv (fun a => EvMmap len off fd (rc a)) rc) in H
    as (a & _ & -> & _ & Ht).
  exact Ht.
Qed.

Lemma mmap_plain len off fd addr : plain (EvMmap len off fd addr).
Proof. split; reflexivity. Qed.

Lemma mmap_calm len off fd addr : calm (EvMmap len off fd addr).
Proof. reflexivity. Qed.

(** What the mapping loop leaves alone, and what it leaves in the trace. *)
Lemma map_buffers_frame n count d w ok d' w' :
  map_buffers n count d w = Done (ok, d') w' ->
  dev_fd d' = dev_fd d /\ dev_buf d' = dev_buf d /\
  fr_w (dev_frame d') = fr_w (dev_frame d) /\
  fr_h (dev_frame d') = fr_h (dev_frame d) /\
  length (fr_buf (dev_frame d')) = length (fr_buf (dev_frame d)) /\
  exists evs, trace w' = trace w ++ evs /\ Forall plain evs /\
              (ok = true -> Forall calm evs).
Proof.
  revert d w. induction n as [|n IH]; intros d w Hrun.
  - cbn [map_buffers] in Hrun.
    destruct (fr_bufcnt (dev_frame d) <? count); [discriminate|].
    injection Hrun as <- <- <-. repeat split; try reflexivity.
    exists []. rewrite app_nil_r. repeat split; constructor.
  - destruct (fr_bufcnt (dev_frame d) <? count) eqn:Hlt.
    2:{ rewrite map_buffers_exit in Hrun by assumption.
        injection Hrun as <- <- <-. repeat split; try reflexivity.
        exists []. rewrite app_nil_r. repeat split; constructor. }
    apply map_buffers_step in Hrun as (okq & buf & w1 & Hq & Hcase);
      [|assumption].
    apply dev_ioctl_trace in Hq as (evq & Htq & Hofq & Hcalmq).
    assert (Hplainq : Forall plain evq).
    { apply (ioctl_events_plain _ _ Hofq). discriminate. }
    destruct Hcase as [(-> & -> & -> & ->) | (-> & addr & w2 & Hm & Hcase)].
    + repeat split; try reflexivity.
      exists evq. repeat split; [assumption..|discriminate].
    + apply v4l2_mmap_inv in Hm.
      destruct Hcase as [(-> & -> & -> & ->) | (Hne & Hrun)].
      * cbn. rewrite !length_alter. repeat split; try reflexivity.
        eexists. rewrite Hm, Htq, <- app_assoc. split; [reflexivity|].
        split; [|discriminate].
        apply Forall_app. split; [assumption|].
        repeat constructor.
      * apply IH in Hrun as (Hfd & Hb & Hw & Hh & Hlen & evs & Ht & Hp & Hc).
        cbn in Hfd, Hb, Hw, Hh, Hlen. rewrite !length_alter in Hlen.
        repeat split; try assumption.
        eexists. rewrite Ht, Hm, Htq, <- !app_assoc. split; [reflexivity|].
        split.
        -- apply Forall_app. split; [assumption|].
           apply Forall_app. split; [repeat constructor | assumption].
        -- intros Hok. apply Forall_app. split; [auto|].
           apply Forall_app. split; [repeat constructor | auto].
Qed.

Lemma u8_small x : 0 <= x < 256 -> u8 x = x.
Proof. intros Hx. unfold u8. apply Z.mod_small. exact Hx. Qed.

Lemma u8_range x : 0 <= u8 x < 256.
Proof. unfold u8. apply Z.mod_pos_bound. reflexivity. Qed.

Lemma u16_range x : 0 <= u16 x < 65536.
Proof. unfold u16. apply Z.mod_pos_bound. reflexivity. Qed.

Lemma u32_range x : 0 <= u32 x < 4294967296.
Proof. unfold u32. apply Z.mod_pos_bound. reflexivity. Qed.

(** A device that grants 256 buffers or more: the 8-bit counter never
    reaches the count, so the loop cannot end well. *)
Lemma map_buffers_wraps n count d w ok d' w' :
  256 <= count ->
  0 <= fr_bufcnt (dev_frame d) < 256 ->
  map_buffers n count d w = Done (ok, d') w' ->
  ok = false.
Proof.
  intros Hcount. revert d w. induction n as [|n IH]; intros d w Hi Hrun.
  - cbn [map_buffers] in Hrun.
    replace (fr_bufcnt (dev_frame d) <? count) with true in Hrun
      by (symmetry; apply Z.ltb_lt; lia).
    discriminate.
  - apply map_buffers_step in Hrun as (okq & buf & w1 & _ & Hcase);
      [|apply Z.ltb_lt; lia].
    destruct Hcase as [(_ & -> & _) | (_ & addr & w2 & _ & Hcase)];
      [reflexivity|].
    destruct Hcase as [(_ & -> & _) | (_ & Hrun)]; [reflexivity|].
    apply IH in Hrun; [assumption|]. cbn. apply u8_range.
Qed.

(** The mapping loop that ends well has mapped every slot from the
    counter's start up to [count], in order, and recorded for each the
    length asked for and the address obtained. *)
Lemma map_buffers_pool n count d w d' w' :
  map_buffers n count d w = Done (true, d') w' ->
  count < 256 ->
  0 <= fr_bufcnt (dev_frame d) <= count ->
  Z.of_nat (length (fr_buf (dev_frame d))) = count ->
  fr_bufcnt (dev_frame d') = count /\
  take (Z.to_nat (fr_bufcnt (dev_frame d))) (fr_buf (dev_frame d')) =
    take (Z.to_nat (fr_bufcnt (dev_frame d))) (fr_buf (dev_frame d)) /\
  exists evs,
    trace w' = trace w ++ evs /\
    region <$> drop (Z.to_nat (fr_bufcnt (dev_frame d)))
                 (fr_buf (dev_frame d')) = mappings evs.
Proof.
  intros Hrun Hcount. revert d w Hrun.
  induction n as [|n IH]; intros d w Hrun Hi Hlen.
  - cbn [map_buffers] in Hrun.
    destruct (fr_bufcnt (dev_frame d) <? count) eqn:Hlt; [discriminate|].
    injection Hrun as <- <-. apply Z.ltb_ge in Hlt.
    split; [lia|]. split; [reflexivity|].
    exists []. rewrite app_nil_r. split; [reflexivity|].
    rewrite drop_ge by lia. reflexivity.
  - destruct (fr_bufcnt (dev_frame d) <? count) eqn:Hlt.
    2:{ rewrite map_buffers_exit in Hrun by assumption.
        injection Hrun as <- <-. apply Z.ltb_ge in Hlt.
        split; [lia|]. split; [reflexivity|].
        exists []. rewrite app_nil_r. split; [reflexivity|].
        rewrite drop_ge by lia. reflexivity. }
    apply Z.ltb_lt in Hlt.
    apply map_buffers_step in Hrun as (okq & buf & w1 & Hq & Hcase);
      [|apply Z.ltb_lt; assumption].
    destruct Hcase as [(_ & Hf & _) | (-> & addr & w2 & Hm & Hcase)];
      [discriminate|].
    destruct Hcase as [(_ & Hf & _) | (Hne & Hrun)]; [discriminate|].
    apply dev_ioctl_trace in Hq as (evq & Htq & Hofq & _).
    apply v4l2_mmap_inv in Hm.
    set (i := fr_bufcnt (dev_frame d)) in *.
    apply IH in Hrun as (Hcnt & Htake & evs & Ht & Hmap).
    2:{ cbn. fold i. rewrite u8_small by lia. lia. }
    2:{ cbn. rewrite !length_alter. exact Hlen. }
    cbn in Htake, Hmap. fold i in Htake, Hmap.
    rewrite u8_small in Htake, Hmap by lia.
    replace (Z.to_nat (i + 1)) with (S (Z.to_nat i)) in Htake, Hmap by lia.
    split; [exact Hcnt|]. split.
    + assert (Hti : forall l : list buffer_view,
                 take (Z.to_nat i) l
                 = take (Z.to_nat i) (take (S (Z.to_nat i)) l)).
      { intros l. rewrite take_take. f_equal. lia. }
      rewrite (Hti (fr_buf (dev_frame d'))), Htake, <- Hti.
      rewrite !take_alter_ge by lia. reflexivity.
    + exists (evq ++ [EvMmap (vb_length buf) (vb_offset buf) (dev_fd d) addr]
                ++ evs).
      split; [rewrite Ht, Hm, Htq, <- !app_assoc; reflexivity|].
      rewrite !mappings_app, (ioctl_of_mappings _ _ Hofq). cbn [app mappings].
      apply Z.eqb_neq in Hne. rewrite Hne. cbn [app].
      assert (Hi' : fr_buf (dev_frame d') !! Z.to_nat i =
                    Some (mk_buffer_view addr (vb_length buf))).
      { rewrite <- (lookup_take_lt _ (S (Z.to_nat i))) by lia.
        rewrite Htake, lookup_take_lt by lia.
        rewrite !list_lookup_alter_eq.
        destruct (lookup_lt_is_Some_2 (fr_buf (dev_frame d)) (Z.to_nat i))
          as [v Hv]; [lia|].
        rewrite Hv. reflexivity. }
      rewrite (drop_S _ _ _ Hi'), fmap_cons, Hmap. reflexivity.
Qed.

Lemma ioctl_events_snoc {A} `{IoctlArg A} fd req (arg : A) e l a :
  ioctl_events fd req arg e (l ++ [a]) =
  ioctl_events fd req arg e l
  ++ [EvIoctl fd req (view arg) (view (written arg a)) (rc a)
        (errno_after (fold_left errno_after l e) a)].
Proof.
  revert e. induction l as [|b l IH]; intros e; [reflexivity|].
  cbn [app ioctl_events fold_left]. rewrite IH. reflexivity.
Qed.

(** The last call of a finished [dev_ioctl] is the one that decided. *)
Lemma dev_ioctl_last {A} `{IoctlArg A} fd req (arg : A) w ok arg' w' :
  dev_ioctl fd req arg w = Done (ok, arg') w' ->
  exists evs, trace w' = trace w ++ evs /\
    Forall (fun ev => ioctl_of req ev = true) evs /\
    (ok = true -> Forall calm evs) /\
    exists pre r e a,
      evs = pre ++ [EvIoctl fd req (view arg) (view arg') r e] /\
      ok = negb (r <? 0) /\ arg' = written arg a.
Proof.
  intros Hrun.
  destruct (dev_ioctl_trace _ _ _ _ _ _ _ Hrun) as (evs & Ht & Hof & Hcalm).
  exists evs. repeat split; try assumption.
  apply dev_ioctl_inv in Hrun as (ts & a & _ & _ & _ & Hok & -> & _ & Htr).
  rewrite Ht in Htr. apply app_inv_head in Htr.
  rewrite ioctl_events_snoc in Htr. eauto 10.
Qed.

(** ** Queueing the pool, the frame rate *)

Lemma queue_buffers_trace n i d w ok w' :
  queue_buffers n i d w = Done ok w' ->
  exists evs, trace w' = trace w ++ evs /\
              Forall (fun ev => ioctl_of VIDIOC_QBUF ev = true) evs /\
              (ok = true -> Forall calm evs).
Proof.
  revert i w. induction n as [|n IH]; intros i w Hrun;
    cbn [queue_buffers] in Hrun;
    destruct (i <? fr_bufcnt (dev_frame d)); try discriminate.
  1,3: injection Hrun as <- <-; exists []; rewrite app_nil_r;
       repeat split; try constructor.
  apply bind_Done_inv in Hrun as ([okq b] & w1 & Hq & Hrun).
  apply dev_ioctl_trace in Hq as (evq & Htq & Hofq & Hcalmq).
  destruct okq; cbn [negb] in Hrun.
  - apply IH in Hrun as (evs & Ht & Hof & Hcalm).
    exists (evq ++ evs). rewrite Ht, Htq, <- app_assoc.
    split; [reflexivity|]. split.
    + apply Forall_app. auto.
    + intros Hok. apply Forall_app. auto.
  - injection Hrun as <- <-. exists evq. repeat split; auto; discriminate.
Qed.

Lemma set_framerate_trace d fps w r w' :
  set_framerate d fps w = Done r w' ->
  exists evs, trace w' = trace w ++ evs /\
              Forall (fun ev => ioctl_of VIDIOC_S_PARM ev = true) evs /\
              (Forall calm evs \/ r = 0).
Proof.
  unfold set_framerate. intros Hrun.
  apply bind_Done_inv in Hrun as ([ok par] & w1 & Hq & Hrun).
  apply dev_ioctl_trace in Hq as (evq & Htq & Hofq & Hcalmq).
  exists evq. split; [|split; [assumption|]].
  - destruct ok; injection Hrun as <- <-; exact Htq.
  - destruct ok; [left; auto | right]. injection Hrun as <- <-. reflexivity.
Qed.

Lemma calloc_inv n w ptr w' :
  calloc n w = Done ptr w' -> trace w' = trace w ++ [EvCalloc n ptr].
Proof.
  intros H.
  apply (simple_call_inv (fun a => EvCalloc n (rc a)) rc) in H
    as (a & _ & -> & _ & Ht).
  exact Ht.
Qed.

Lemma plain_no_release ev : plain ev -> releases ev = false.
Proof. intros [H _]. exact H. Qed.

Lemma s_parm_no_release ev :
  ioctl_of VIDIOC_S_PARM ev = true -> releases ev = false.
Proof. destruct ev; cbn; try discriminate. reflexivity. Qed.

(** ** Stream construction *)

Lemma log_fail fps evs : Forall plain evs -> construction_log false fps evs.
Proof.
  intros Hp. split.
  - eapply Forall_impl; [exact Hp|]. apply plain_no_release.
  - intros ev Hin _. rewrite Forall_forall in Hp.
    destruct (Hp ev Hin) as [_ ->]. reflexivity.
Qed.

Lemma log_ok fps evs1 evs2 :
  Forall plain evs1 -> Forall calm evs1 ->
  Forall (fun ev => ioctl_of VIDIOC_S_PARM ev = true) evs2 ->
  Forall calm evs2 \/ fps = 0 ->
  construction_log true fps (evs1 ++ evs2).
Proof.
  intros Hp Hc Hs Hf. split.
  - apply Forall_app. split.
    + eapply Forall_impl; [exact Hp|]. apply plain_no_release.
    + eapply Forall_impl; [exact Hs|]. apply s_parm_no_release.
  - intros ev Hin Hhard. rewrite Forall_forall in Hc, Hs.
    apply elem_of_app in Hin as [Hin|Hin].
    + specialize (Hc ev Hin). unfold calm in Hc. congruence.
    + rewrite (Hs ev Hin). split; [reflexivity|].
      destruct Hf as [Hf|Hf]; [|exact Hf].
      rewrite Forall_forall in Hf. specialize (Hf ev Hin).
      unfold calm in Hf. congruence.
Qed.

Lemma log_prepend ok fps evs0 evs :
  Forall plain evs0 -> Forall calm evs0 ->
  construction_log ok fps evs -> construction_log ok fps (evs0 ++ evs).
Proof.
  intros Hp Hc [Hr Hl]. split.
  - apply Forall_app. split; [|exact Hr].
    eapply Forall_impl; [exact Hp|]. apply plain_no_release.
  - intros ev Hin Hhard.
    apply elem_of_app in Hin as [Hin|Hin]; [|exact (Hl ev Hin Hhard)].
    rewrite Forall_forall in Hc. specialize (Hc ev Hin).
    unfold calm in Hc. congruence.
Qed.

Lemma pool_prepend fd f evs0 evs :
  mappings evs0 = [] -> pool_ok fd f evs -> pool_ok fd f (evs0 ++ evs).
Proof.
  intros H0 ((r & e & Hin & Hr) & Hlen & Hcnt & Hmap). split; [|split; [|split]].
  - exists r, e. split; [|exact Hr]. apply elem_of_app. right. exact Hin.
  - exact Hlen.
  - exact Hcnt.
  - rewrite mappings_app, H0. exact Hmap.
Qed.

Lemma granted_count_nonneg (req : v4l2_requestbuffers) (a : answer) :
  0 <= req_count req -> 0 <= req_count (written req a).
Proof.
  intros Hreq. unfold written. destruct (transient a); [exact Hreq|].
  cbn. destruct (out a); try exact Hreq. cbn. apply u32_range.
Qed.

Lemma init_buffers_spec d p w ok d' p' w' :
  init_buffers d p w = Done (ok, d', p') w' ->
  dev_fd d' = dev_fd d /\ dev_buf d' = dev_buf d /\
  fr_w (dev_frame d') = fr_w (dev_frame d) /\
  fr_h (dev_frame d') = fr_h (dev_frame d) /\
  p_w p' = p_w p /\ p_h p' = p_h p /\ p_fmt p' = p_fmt p /\
  exists evs, trace w' = trace w ++ evs /\
              (exists ev evs', evs = ev :: evs' /\
                               ioctl_of VIDIOC_REQBUFS ev = true) /\
              construction_log ok (p_fps p') evs /\
              (ok = true -> pool_ok (dev_fd d) (dev_frame d') evs).
Proof.
  unfold init_buffers. intros Hrun.
  apply bind_Done_inv in Hrun as ([okr req'] & w1 & Hr & Hrun).
  apply dev_ioctl_last in Hr
    as (evr & Htr & Hofr & Hcalmr & pre & r & e & a & Hevr & Hokr & Hreq').
  assert (Hplainr : Forall plain evr).
  { apply (ioctl_events_plain _ _ Hofr). discriminate. }
  assert (Hstart : forall rest, exists ev evs',
             evr ++ rest = ev :: evs' /\ ioctl_of VIDIOC_REQBUFS ev = true).
  { intros rest. destruct evr as [|ev evr']; [destruct pre; discriminate|].
    exists ev, (evr' ++ rest). split; [reflexivity|].
    apply Forall_cons in Hofr as [Hev _]. exact Hev. }
  destruct okr; cbn [negb] in Hrun.
  2:{ injection Hrun as <- <- <- <-. repeat split; try reflexivity.
      exists evr. split; [exact Htr|].
      split; [rewrite <- (app_nil_r evr); apply Hstart|].
      split; [|discriminate].
      apply log_fail. exact Hplainr. }
  apply bind_Done_inv in Hrun as (ptr & w2 & Hc & Hrun).
  apply calloc_inv in Hc.
  set (count := req_count req') in *.
  assert (Hcount : 0 <= count).
  { subst count req'. apply granted_count_nonneg. cbn. unfold BUFFERS_CNT. lia. }
  assert (Hplainc : Forall plain [EvCalloc count ptr])
    by (repeat constructor).
  destruct (ptr =? NULL).
  { injection Hrun as <- <- <- <-. repeat split; try reflexivity.
    exists (evr ++ [EvCalloc count ptr]). rewrite Hc, Htr, <- app_assoc.
    split; [reflexivity|]. split; [apply Hstart|]. split; [|discriminate].
    apply log_fail. apply Forall_app. auto. }
  apply bind_Done_inv in Hrun as ([okm d2] & w3 & Hm & Hrun).
  unfold fueled in Hm.
  destruct (map_buffers_frame _ _ _ _ _ _ _ Hm)
    as (Hfd & Hb & Hw & Hh & Hlen & evm & Htm & Hplainm & Hcalmm).
  cbn in Hfd, Hb, Hw, Hh, Hlen. rewrite length_replicate in Hlen.
  destruct okm; cbn [negb] in Hrun.
  2:{ injection Hrun as <- <- <- <-. repeat split; try assumption.
      exists (evr ++ [EvCalloc count ptr] ++ evm).
      rewrite Htm, Hc, Htr, <- !app_assoc.
      split; [reflexivity|]. split; [apply Hstart|]. split; [|discriminate].
      apply log_fail. rewrite !Forall_app. auto. }
  apply bind_Done_inv in Hrun as (okq & w4 & Hq & Hrun).
  apply queue_buffers_trace in Hq as (evq & Htq & Hofq & Hcalmq).
  assert (Hplainq : Forall plain evq).
  { apply (ioctl_events_plain _ _ Hofq). discriminate. }
  destruct okq; cbn [negb] in Hrun.
  2:{ injection Hrun as <- <- <- <-. repeat split; try assumption.
      exists (evr ++ [EvCalloc count ptr] ++ evm ++ evq).
      rewrite Htq, Htm, Hc, Htr, <- !app_assoc.
      split; [reflexivity|]. split; [apply Hstart|]. split; [|discriminate].
      apply log_fail. rewrite !Forall_app. auto. }
  apply bind_Done_inv in Hrun as (fps & w5 & Hs & Hrun).
  apply set_framerate_trace in Hs as (evs & Hts & Hofs & Hfps).
  injection Hrun as <- <- <- <-. cbn [p_w p_h p_fmt p_fps].
  repeat split; try assumption.
  exists ((evr ++ [EvCalloc count ptr] ++ evm ++ evq) ++ evs).
  split; [rewrite Hts, Htq, Htm, Hc, Htr, <- !app_assoc; reflexivity|].
  split; [rewrite <- !app_assoc; apply Hstart|].
  split.
  - apply log_ok; try assumption.
    + rewrite !Forall_app. auto.
    + rewrite !Forall_app. repeat split; auto. repeat constructor.
  - intros _.
    assert (Hsmall : count < 256).
    { destruct (Z.lt_ge_cases count 256) as [Hlt|Hge]; [exact Hlt|].
      apply (map_buffers_wraps _ _ _ _ _ _ _ Hge) in Hm;
        [discriminate | cbn; lia]. }
    apply map_buffers_pool in Hm as (Hcnt & _ & evm' & Htm' & Hmap);
      [|exact Hsmall|cbn; lia|cbn; rewrite length_replicate; lia].
    rewrite Htm in Htm'. apply app_inv_head in Htm'. subst evm'.
    cbn in Hmap. rewrite drop_0 in Hmap.
    split; [|split; [|split]].
    + exists r, e. split.
      * rewrite Hevr, Hcnt. fold count.
        apply elem_of_app. left. apply elem_of_app. left.
        apply elem_of_app. right. apply list_elem_of_singleton. reflexivity.
      * destruct (r <? 0) eqn:Er; [discriminate|]. apply Z.ltb_ge in Er. lia.
    + rewrite Hlen, Hcnt. lia.
    + rewrite Hcnt. lia.
    + rewrite Hmap, !mappings_app.
      rewrite (ioctl_of_mappings _ _ Hofr), (ioctl_of_mappings _ _ Hofq),
        (ioctl_of_mappings _ _ Hofs).
      cbn [mappings app]. rewrite !app_nil_r. reflexivity.
Qed.

Lemma init_stream_negotiated d p w ok fmt' w1 :
  dev_ioctl (dev_fd d) VIDIOC_S_FMT (format_hint p) w = Done (ok, fmt') w1 ->
  init_stream d p w =
  if negb ok then Done (false, d, p) w1
  else if negb (fmt_pixelformat fmt' =? p_fmt p) then Done (false, d, p) w1
  else init_buffers (negotiated_device d fmt') (negotiated_params p fmt') w1.
Proof.
  intros Hf. unfold init_stream. fold (format_hint p).
  rewrite (bind_Done _ _ _ _ _ Hf).
  destruct ok; [|reflexivity]. cbn [negb].
  destruct (fmt_pixelformat fmt' =? p_fmt p); reflexivity.
Qed.

Lemma init_stream_spec d p w ok d' p' w' :
  init_stream d p w = Done (ok, d', p') w' ->
  dev_fd d' = dev_fd d /\ dev_buf d' = dev_buf d /\ p_fmt p' = p_fmt p /\
  exists evs, trace w' = trace w ++ evs /\
              construction_log ok (p_fps p') evs /\
              (ok = true ->
               pool_ok (dev_fd d) (dev_frame d') evs /\
               fr_w (dev_frame d') = p_w p' /\ fr_h (dev_frame d') = p_h p').
Proof.
  intros Hrun.
  destruct (dev_ioctl (dev_fd d) VIDIOC_S_FMT (format_hint p) w)
    as [[okf fmt'] w1| |] eqn:Hf.
  2,3: unfold init_stream in Hrun; fold (format_hint p) in Hrun;
       unfold bind in Hrun; rewrite Hf in Hrun; discriminate.
  rewrite (init_stream_negotiated _ _ _ _ _ _ Hf) in Hrun.
  apply dev_ioctl_trace in Hf as (evf & Htf & Hoff & Hcalmf).
  assert (Hplainf : Forall plain evf).
  { apply (ioctl_events_plain _ _ Hoff). discriminate. }
  destruct okf; cbn [negb] in Hrun.
  2:{ injection Hrun as <- <- <- <-. repeat split.
      exists evf. split; [exact Htf|]. split; [|discriminate].
      apply log_fail. exact Hplainf. }
  destruct (fmt_pixelformat fmt' =? p_fmt p); cbn [negb] in Hrun.
  2:{ injection Hrun as <- <- <- <-. repeat split.
      exists evf. split; [exact Htf|]. split; [|discriminate].
      apply log_fail. exact Hplainf. }
  apply init_buffers_spec in Hrun
    as (Hfd & Hb & Hw & Hh & Hpw & Hph & Hpf & evs & Ht & _ & Hlog & Hpool).
  cbn in Hfd, Hb, Hw, Hh, Hpw, Hph, Hpf, Hpool.
  repeat split; try assumption.
  exists (evf ++ evs). rewrite Ht, Htf, <- app_assoc.
  split; [reflexivity|]. split.
  - apply log_prepend; auto.
  - intros Hok. split; [|split; congruence].
    apply pool_prepend; [|auto]. eapply ioctl_of_mappings. exact Hoff.
Qed.

Lemma open_camera_trace path w fd w0 :
  open_camera path w = Done fd w0 ->
  (fd = -1 \/ 0 <= fd) /\
  exists evs, trace w0 = trace w ++ evs /\
              Forall plain evs /\ Forall calm evs /\ mappings evs = [].
Proof.
  unfold open_camera. intros Hrun.
  apply bind_Done_inv in Hrun as ([r mode] & w1 & Hs & Hrun).
  apply (simple_call_inv (fun a => EvStat path (rc a))) in Hs
    as (a & _ & _ & _ & Hts).
  assert (Hstat : forall x, plain (EvStat path x) /\ calm (EvStat path x))
    by (repeat split).
  destruct (r <? 0).
  { injection Hrun as <- <-. split; [auto|].
    eexists. split; [exact Hts|]. repeat split; repeat constructor. }
  destruct (S_ISCHR mode); cbn [negb] in Hrun.
  2:{ injection Hrun as <- <-. split; [auto|].
      eexists. split; [exact Hts|]. repeat split; repeat constructor. }
  apply bind_Done_inv in Hrun as (fd' & w2 & Ho & Hrun).
  apply (simple_call_inv (fun a => EvOpen path _ (rc a)) rc) in Ho
    as (b & _ & _ & _ & Hto).
  split.
  - destruct (fd' <? 0) eqn:E; injection Hrun as <- <-; [auto|].
    right. apply Z.ltb_ge in E. exact E.
  - eexists. split.
    + destruct (fd' <? 0); injection Hrun as <- <-;
        rewrite Hto, Hts, <- app_assoc; reflexivity.
    + repeat split; repeat constructor.
Qed.

Lemma create_stream_spec path p indet w r p' w' :
  create_stream path p indet w = Done (r, p') w' ->
  p_fmt p' = p_fmt p /\
  exists evs, trace w' = trace w ++ evs /\
              construction_log (created r) (p_fps p') evs /\
              forall s, r = Some s ->
                pool_ok (dev_fd (dev_ s)) (dev_frame (dev_ s)) evs /\
                get_frame_size s = (p_w p', p_h p').
Proof.
  unfold create_stream. intros Hrun.
  destruct path as [path|].
  2:{ injection Hrun as <- <- <-. split; [reflexivity|].
      exists []. rewrite app_nil_r. split; [reflexivity|].
      split; [apply log_fail; constructor | discriminate]. }
  apply bind_Done_inv in Hrun as (fd & w0 & Ho & Hrun).
  apply open_camera_trace in Ho as (_ & ev0 & Ht0 & Hp0 & Hc0 & Hm0).
  destruct (fd <? 0).
  { injection Hrun as <- <- <-. split; [reflexivity|].
    exists ev0. split; [exact Ht0|].
    split; [apply log_fail; exact Hp0 | discriminate]. }
  apply bind_Done_inv in Hrun as ([[ok d'] p1] & w1 & Hi & Hrun).
  apply init_stream_spec in Hi
    as (Hfd & _ & Hfmt & evs & Ht & Hlog & Hpool).
  cbn [new_device dev_fd] in Hfd, Hpool.
  assert (Hres : r = (if ok then Some (mk_stream d') else None) /\ p' = p1
                 /\ w' = w1).
  { destruct ok; injection Hrun as <- <- <-; auto. }
  destruct Hres as (-> & -> & ->). split; [exact Hfmt|].
  exists (ev0 ++ evs). rewrite Ht, Ht0, <- app_assoc.
  split; [reflexivity|]. split.
  - apply log_prepend; [assumption..|]. destruct ok; exact Hlog.
  - intros s Hs. destruct ok; [|discriminate]. injection Hs as <-.
    destruct (Hpool eq_refl) as (Hp & Hw & Hh). cbn [dev_]. split.
    + apply pool_prepend; [exact Hm0|]. rewrite Hfd. exact Hp.
    + unfold get_frame_size. cbn [dev_]. rewrite Hw, Hh. reflexivity.
Qed.

(** ** Frames *)

(** One turn of the poll loop on the next answer of the script. *)
Lemma get_frame_loop_step n d o a s e tr :
  get_frame_loop (S n) d o (mk_world (a :: s) e tr) =
  let w1 := mk_world s (errno_after e a) (tr ++ [poll_event (dev_fd d) e a]) in
  if rc a =? 0 then Done (true, d, o) w1
  else if rc a <? 0 then
    if err a =? EINTR then get_frame_loop n d o w1 else Done (false, d, o) w1
  else if Z.land (poll_revents a) POLLIN =? 0 then get_frame_loop n d o w1
  else dequeue d o w1.
Proof.
  cbn [get_frame_loop]. unfold bind at 1. unfold poll, bind, next_answer,
    get_errno, emit, ret. cbn [script errno trace].
  fold (errno_after e a). fold (poll_revents a).
  fold (poll_event (dev_fd d) e a).
  destruct (rc a =? 0); [reflexivity|].
  destruct (rc a <? 0) eqn:E.
  - unfold errno_after. rewrite E. cbn [errno].
    destruct (err a =? EINTR); reflexivity.
  - destruct (Z.land (poll_revents a) POLLIN =? 0); reflexivity.
Qed.

Lemma ioctl_of_other q q' ev :
  q <> q' -> ioctl_of q ev = true -> ioctl_of q' ev = false.
Proof.
  destruct ev; cbn; try reflexivity. intros Hne Hq.
  apply bool_decide_eq_true in Hq. apply bool_decide_eq_false. congruence.
Qed.

Lemma dequeue_spec d o w brk d' o' w' :
  dequeue d o w = Done (brk, d', o') w' ->
  exists evs, trace w' = trace w ++ evs /\ Forall no_return evs /\
  ((brk = false /\ o' = o /\
    exists b, d' = set_buf d b /\
      (Forall (fun ev => tainted ev = false) evs -> vb_bytesused b = 0)) \/
   (brk = true /\ exists b v,
      d' = set_buf d b /\
      fr_buf (dev_frame d) !! Z.to_nat (vb_index b) = Some v /\
      o' = mk_image (vb_sequence b) (fr_w (dev_frame d))
             (fr_h (dev_frame d)) (bv_data v) (vb_bytesused b)
             (u64 (vb_tv_sec b)) (u64 (vb_tv_usec b * 1000)))).
Proof.
  unfold dequeue. intros Hrun.
  apply bind_Done_inv in Hrun as ([ok b] & w1 & Hq & Hrun).
  pose proof (dev_ioctl_inv _ _ _ _ _ _ _ Hq)
    as (ts & a & _ & _ & _ & Hok & Hb & _ & Htq).
  set (evq := ioctl_events (dev_fd d) VIDIOC_DQBUF (fresh_buffer 0)
                (errno w) (ts ++ [a])) in *.
  assert (Hnr : Forall no_return evq).
  { eapply Forall_impl; [apply ioctl_events_of|]. intros ev Hev. split.
    - eapply ioctl_of_other; [|exact Hev]. discriminate.
    - destruct ev; cbn in Hev; try discriminate. reflexivity. }
  exists evq.
  destruct ok; cbn [negb] in Hrun.
  - destruct (fr_buf (dev_frame d) !! Z.to_nat (vb_index b)) as [v|] eqn:Hv;
      [|discriminate].
    injection Hrun as <- <- <- <-. repeat split; try assumption.
    right. split; [reflexivity|]. exists b, v. auto.
  - injection Hrun as <- <- <- <-. repeat split; try assumption.
    left. split; [reflexivity|]. split; [reflexivity|].
    exists b. split; [reflexivity|]. intros Hclean.
    subst evq. rewrite ioctl_events_snoc in Hclean.
    apply Forall_app in Hclean as [_ Hlast].
    apply Forall_cons in Hlast as [Hlast _].
    cbn [tainted view v4l2_buffer_arg] in Hlast. rewrite <- Hb in Hlast.
    destruct (rc a <? 0); [|discriminate]. cbn [andb] in Hlast.
    apply negb_false_iff, Z.eqb_eq in Hlast. exact Hlast.
Qed.

Lemma get_frame_loop_spec n d o w brk d' o' w' :
  get_frame_loop n d o w = Done (brk, d', o') w' ->
  exists evs, trace w' = trace w ++ evs /\ Forall no_return evs /\
  ((d' = d /\ o' = o) \/
   (brk = false /\ o' = o /\
    exists b, d' = set_buf d b /\
      (Forall (fun ev => tainted ev = false) evs -> vb_bytesused b = 0)) \/
   (brk = true /\ exists b v,
      d' = set_buf d b /\
      fr_buf (dev_frame d) !! Z.to_nat (vb_index b) = Some v /\
      o' = mk_image (vb_sequence b) (fr_w (dev_frame d))
             (fr_h (dev_frame d)) (bv_data v) (vb_bytesused b)
             (u64 (vb_tv_sec b)) (u64 (vb_tv_usec b * 1000)))).
Proof.
  revert w. induction n as [|n IH]; intros [s e tr] Hrun; [discriminate|].
  destruct s as [|a s]; [discriminate|].
  rewrite get_frame_loop_step in Hrun. cbn zeta in Hrun.
  set (w1 := mk_world s (errno_after e a)
               (tr ++ [poll_event (dev_fd d) e a])) in *.
  assert (Hstep : forall P : list event -> Prop,
    (forall evs, P evs -> P (poll_event (dev_fd d) e a :: evs)) ->
    (exists evs, trace w' = trace w1 ++ evs /\ Forall no_return evs /\ P evs) ->
    exists evs, trace w' = trace (mk_world (a :: s) e tr) ++ evs
                /\ Forall no_return evs /\ P evs).
  { intros P HP (evs & Ht & Hnr & Hp).
    exists (poll_event (dev_fd d) e a :: evs). cbn [trace].
    rewrite Ht. subst w1. cbn [trace]. rewrite <- app_assoc.
    split; [reflexivity|]. split; [|apply HP; exact Hp].
    constructor; [split; reflexivity | exact Hnr]. }
  assert (Hnow : w' = w1 -> d' = d -> o' = o ->
    exists evs, trace w' = trace (mk_world (a :: s) e tr) ++ evs
                /\ Forall no_return evs /\
      ((d' = d /\ o' = o) \/
       (brk = false /\ o' = o /\
        exists b, d' = set_buf d b /\
          (Forall (fun ev => tainted ev = false) evs -> vb_bytesused b = 0)) \/
       (brk = true /\ exists b v,
          d' = set_buf d b /\
          fr_buf (dev_frame d) !! Z.to_nat (vb_index b) = Some v /\
          o' = mk_image (vb_sequence b) (fr_w (dev_frame d))
                 (fr_h (dev_frame d)) (bv_data v) (vb_bytesused b)
                 (u64 (vb_tv_sec b)) (u64 (vb_tv_usec b * 1000))))).
  { intros -> -> ->. exists [poll_event (dev_fd d) e a].
    split; [reflexivity|]. split; [|auto].
    repeat constructor. }
  assert (Hmore : forall evs,
    ((d' = d /\ o' = o) \/
     (brk = false /\ o' = o /\
      exists b, d' = set_buf d b /\
        (Forall (fun ev => tainted ev = false) evs -> vb_bytesused b = 0)) \/
     (brk = true /\ exists b v,
        d' = set_buf d b /\
        fr_buf (dev_frame d) !! Z.to_nat (vb_index b) = Some v /\
        o' = mk_image (vb_sequence b) (fr_w (dev_frame d))
               (fr_h (dev_frame d)) (bv_data v) (vb_bytesused b)
               (u64 (vb_tv_sec b)) (u64 (vb_tv_usec b * 1000)))) ->
    ((d' = d /\ o' = o) \/
     (brk = false /\ o' = o /\
      exists b, d' = set_buf d b /\
        (Forall (fun ev => tainted ev = false)
           (poll_event (dev_fd d) e a :: evs) -> vb_bytesused b = 0)) \/
     (brk = true /\ exists b v,
        d' = set_buf d b /\
        fr_buf (dev_frame d) !! Z.to_nat (vb_index b) = Some v /\
        o' = mk_image (vb_sequence b) (fr_w (dev_frame d))
               (fr_h (dev_frame d)) (bv_data v) (vb_bytesused b)
               (u64 (vb_tv_sec b)) (u64 (vb_tv_usec b * 1000))))).
  { intros evs [H | [(Hb & Ho & b & Hd & Hc) | H]]; auto.
    right. left. repeat split; try assumption. exists b.
    split; [exact Hd|]. intros Hall. apply Hc.
    apply Forall_cons in Hall as [_ Hall]. exact Hall. }
  destruct (rc a =? 0).
  { injection Hrun as <- <- <- Hw. apply Hnow; auto. }
  destruct (rc a <? 0).
  { destruct (err a =? EINTR).
    - apply IH in Hrun. apply (Hstep _ Hmore Hrun).
    - injection Hrun as <- <- <- Hw. apply Hnow; auto. }
  destruct (Z.land (poll_revents a) POLLIN =? 0).
  - apply IH in Hrun. apply (Hstep _ Hmore Hrun).
  - apply dequeue_spec in Hrun as (evs & Ht & Hnr & Hcase).
    apply (Hstep _ Hmore). exists evs. repeat split; try assumption.
    destruct Hcase as [H | H]; auto.
Qed.

(** What [get_frame] does to the stream, the image and the trace.  Either
    no buffer was dequeued: the image is the caller's, untouched, and the
    result is read off its [bytes] field (after a timeout) or is [false]
    (after a failure); the marker is clear unless the dequeue itself
    failed and left a byte count in the record.  Or a buffer was dequeued
    and the image is built from it. *)
Lemma get_frame_spec s o w ok s' o' w' :
  get_frame s o w = Done (ok, s', o') w' ->
  dev_fd (dev_ s') = dev_fd (dev_ s) /\
  dev_frame (dev_ s') = dev_frame (dev_ s) /\
  exists evs, trace w' = trace w ++ evs /\ Forall no_return evs /\
  ((o' = o /\ vb_bytesused (dev_buf (dev_ s')) = 0 /\
    (ok = negb (img_bytes o =? 0) \/ ok = false)) \/
   (o' = o /\ ok = false /\
    (Forall (fun ev => tainted ev = false) evs ->
     vb_bytesused (dev_buf (dev_ s')) = 0)) \/
   (exists v,
      fr_buf (dev_frame (dev_ s))
        !! Z.to_nat (vb_index (dev_buf (dev_ s'))) = Some v /\
      o' = mk_image (vb_sequence (dev_buf (dev_ s')))
             (fr_w (dev_frame (dev_ s))) (fr_h (dev_frame (dev_ s)))
             (bv_data v) (vb_bytesused (dev_buf (dev_ s')))
             (u64 (vb_tv_sec (dev_buf (dev_ s'))))
             (u64 (vb_tv_usec (dev_buf (dev_ s')) * 1000)) /\
      ok = negb (vb_bytesused (dev_buf (dev_ s')) =? 0))).
Proof.
  unfold get_frame. intros Hrun.
  apply bind_Done_inv in Hrun as ([[brk d'] o1] & w1 & Hloop & Hrun).
  unfold fueled in Hloop.
  apply get_frame_loop_spec in Hloop as (evs & Ht & Hnr & Hcase).
  assert (Hres : s' = mk_stream d' /\ o' = o1 /\ w' = w1 /\
                 ok = (if brk then negb (img_bytes o1 =? 0) else false)).
  { destruct brk; injection Hrun as <- <- <- <-; auto. }
  destruct Hres as (-> & -> & -> & ->). cbn [dev_].
  destruct Hcase
    as [(-> & ->) | [(-> & -> & b & -> & Hb) | (-> & b & v & -> & Hv & ->)]].
  - repeat split. exists evs. repeat split; try assumption. left.
    repeat split. destruct brk; auto.
  - repeat split. exists evs. repeat split; try assumption. right. left.
    auto.
  - repeat split. exists evs. repeat split; try assumption. right. right.
    exists v. auto.
Qed.

Lemma get_frame_loop_polls d o pre a rest :
  Forall (fun x => poll_again x = true) pre ->
  rc a = 0 ->
  forall n e tr, (length pre < n)%nat ->
  get_frame_loop n d o (mk_world (pre ++ a :: rest) e tr) =
  Done (true, d, o)
       (mk_world rest (fold_left errno_after (pre ++ [a]) e)
          (tr ++ poll_events (dev_fd d) e (pre ++ [a]))).
Proof.
  intros Hpre Ha. induction Hpre as [|x pre Hx _ IH]; intros n e tr Hn;
    (destruct n as [|n]; [simpl in Hn; lia|]);
    cbn [app]; rewrite get_frame_loop_step; cbn zeta.
  - rewrite Ha. reflexivity.
  - unfold poll_again in Hx.
    destruct (rc x =? 0); [discriminate|].
    assert (Hgo : get_frame_loop n d o
                    (mk_world (pre ++ a :: rest) (errno_after e x)
                       (tr ++ [poll_event (dev_fd d) e x])) =
                  Done (true, d, o)
                    (mk_world rest
                       (fold_left errno_after ((x :: pre) ++ [a]) e)
                       (tr ++ poll_events (dev_fd d) e ((x :: pre) ++ [a])))).
    { rewrite IH by (simpl in Hn; lia).
      cbn [app fold_left poll_events]. rewrite <- app_assoc. reflexivity. }
    destruct (rc x <? 0).
    + rewrite Hx. exact Hgo.
    + rewrite Hx. exact Hgo.
Qed.

(** X1: the timeout in general.  After any number of interrupted or idle
    polls, a poll that times out ends [get_frame] with the marker clear
    and the caller's image untouched; the result is whether that image
    had a byte count other than 0 on entry.  A caller that passes an
    image with a byte count of 0 gets false. *)
Lemma get_frame_timeout s o pre a rest e tr :
  Forall (fun x => poll_again x = true) pre ->
  rc a = 0 ->
  get_frame s o (mk_world (pre ++ a :: rest) e tr) =
  Done (negb (img_bytes o =? 0),
        mk_stream (set_buf (dev_ s) (set_bytesused (dev_buf (dev_ s)) 0)), o)
       (mk_world rest (fold_left errno_after (pre ++ [a]) e)
          (tr ++ poll_events (dev_fd (dev_ s)) e (pre ++ [a]))).
Proof.
  intros Hpre Ha. unfold get_frame, bind, fueled. cbn [script].
  rewrite (get_frame_loop_polls _ _ _ _ _ Hpre Ha)
    by (rewrite length_app; simpl; lia).
  reflexivity.
Qed.

(** X2: a [get_frame] that is given an image with a byte count of 0
    returns true only if it dequeued.  The image then has the size
    [get_frame_size] reports, which the call did not change, and its
    byte count, which is not 0, is the marker the stream keeps. *)
Lemma get_frame_fresh_image s o w s' o' w' :
  img_bytes o = 0 ->
  get_frame s o w = Done (true, s', o') w' ->
  (img_w o', img_h o') = get_frame_size s' /\
  get_frame_size s' = get_frame_size s /\
  img_bytes o' = vb_bytesused (dev_buf (dev_ s')) /\
  img_bytes o' <> 0.
Proof.
  intros Ho Hrun.
  apply get_frame_spec in Hrun
    as (_ & Hf & evs & _ & _
        & [(_ & _ & Hok) | [(_ & Hok & _) | (v & _ & -> & Hok)]]).
  { rewrite Ho in Hok. destruct Hok; discriminate. }
  { discriminate. }
  unfold get_frame_size. rewrite Hf. cbn [img_w img_h img_bytes].
  repeat split.
  destruct (vb_bytesused (dev_buf (dev_ s')) =? 0) eqn:E; [discriminate|].
  apply Z.eqb_neq. exact E.
Qed.

Lemma put_frame_idle s w :
  vb_bytesused (dev_buf (dev_ s)) = 0 -> put_frame s w = Done s w.
Proof. intros H. unfold put_frame. rewrite H. reflexivity. Qed.




(** ** The life of a stream *)

Lemma step_frame x y :
  step x y ->
  dev_fd (dev_ y.1) = dev_fd (dev_ x.1) /\
  dev_frame (dev_ y.1) = dev_frame (dev_ x.1).
Proof.
  intros [s w ok w' H | s o w ok s' o' w' H | s w s' w' H]; cbn [fst].
  - auto.
  - apply get_frame_spec in H as (Hfd & Hf & _). auto.
  - unfold put_frame in H.
    destruct (vb_bytesused (dev_buf (dev_ s)) =? 0).
    + injection H as <- <-. auto.
    + apply bind_Done_inv in H as ([ok b] & w1 & _ & H).
      injection H as <- <-. auto.
Qed.

Lemma lives_frame x y :
  lives x y ->
  dev_fd (dev_ y.1) = dev_fd (dev_ x.1) /\
  dev_frame (dev_ y.1) = dev_frame (dev_ x.1).
Proof.
  induction 1 as [x | x y z Hxy _ IH]; [auto|].
  apply step_frame in Hxy as [Hfd Hf]. destruct IH as [IHfd IHf].
  split; congruence.
Qed.

(** ** Teardown *)

Lemma unmap_buffers_run n i d w :
  let c := fr_bufcnt (dev_frame d) in
  0 <= i <= c -> c < 256 -> n = Z.to_nat (c - i) ->
  (Z.to_nat c <= length (fr_buf (dev_frame d)))%nat ->
  unmap_buffers n i d w =
  Done tt (mk_world (script w) (errno w)
             (trace w ++ (unmap_event
                            <$> drop (Z.to_nat i)
                                  (take (Z.to_nat c) (fr_buf (dev_frame d)))))).
Proof.
  intros c. revert i w. induction n as [|n IH]; intros i w Hi Hc Hn Hlen.
  - cbn [unmap_buffers]. fold c.
    replace (i <? c) with false by (symmetry; apply Z.ltb_ge; lia).
    rewrite drop_ge by (rewrite length_take; lia).
    cbn. rewrite app_nil_r, world_eta. reflexivity.
  - cbn [unmap_buffers]. fold c.
    replace (i <? c) with true by (symmetry; apply Z.ltb_lt; lia).
    destruct (lookup_lt_is_Some_2 (fr_buf (dev_frame d)) (Z.to_nat i))
      as [b Hb]; [lia|].
    rewrite Hb. unfold bind, v4l2_munmap, emit.
    rewrite u8_small by lia. rewrite IH by (cbn [script errno trace]; lia).
    cbn [script errno trace].
    assert (Hb' : take (Z.to_nat c) (fr_buf (dev_frame d)) !! Z.to_nat i
                  = Some b) by (rewrite lookup_take_lt by lia; exact Hb).
    rewrite (drop_S _ _ _ Hb'), fmap_cons, <- app_assoc.
    replace (Z.to_nat (i + 1)) with (S (Z.to_nat i)) by lia.
    reflexivity.
Qed.

(** [~device] on any device whose counter stays within its array: the
    recorded buffers are unmapped in slot order, then the descriptor is
    closed; nothing else happens. *)
Lemma delete_device_run d w :
  0 <= fr_bufcnt (dev_frame d) < 256 ->
  (Z.to_nat (fr_bufcnt (dev_frame d)) <= length (fr_buf (dev_frame d)))%nat ->
  delete_device d w =
  Done tt (mk_world (script w) (errno w)
             (trace w
              ++ (unmap_event
                    <$> take (Z.to_nat (fr_bufcnt (dev_frame d)))
                          (fr_buf (dev_frame d)))
              ++ [EvClose (dev_fd d)])).
Proof.
  intros Hc Hlen. unfold delete_device, bind.
  rewrite unmap_buffers_run by lia.
  unfold v4l2_close, emit. cbn [script errno trace].
  rewrite drop_0, <- app_assoc. reflexivity.
Qed.

Lemma unmap_region (l : list buffer_view) :
  unmap_event <$> l = (fun x => EvMunmap x.2 x.1) <$> (region <$> l).
Proof. rewrite <- list_fmap_compose. reflexivity. Qed.

(** C9: whatever was done with a stream since [create_stream] returned
    it (started or not, frames taken or not), destroying it unmaps every
    region mapped at construction, one unmap per recorded buffer in slot
    order, and only then closes the descriptor; the close is the last
    thing it does. *)
Theorem teardown_unmaps_then_closes path p indet w s p' w1 s2 w2 :
  create_stream path p indet w = Done (Some s, p') w1 ->
  lives (s, w1) (s2, w2) ->
  exists evs,
    trace w1 = trace w ++ evs /\
    region <$> fr_buf (dev_frame (dev_ s2)) = mappings evs /\
    delete_stream s2 w2 =
    Done tt (mk_world (script w2) (errno w2)
               (trace w2
                ++ ((fun x => EvMunmap x.2 x.1) <$> mappings evs)
                ++ [EvClose (dev_fd (dev_ s))])).
Proof.
  intros Hc Hl.
  apply create_stream_spec in Hc as (_ & evs & Ht & _ & Hs).
  destruct (Hs s eq_refl) as ((_ & Hlen & Hcnt & Hmap) & _).
  apply lives_frame in Hl as [Hfd Hf]. cbn [fst] in Hfd, Hf.
  exists evs. split; [exact Ht|]. rewrite Hf. split; [exact Hmap|].
  unfold delete_stream. rewrite delete_device_run; rewrite Hf; [|lia..].
  rewrite firstn_all2 by lia. rewrite unmap_region, Hmap, Hfd. reflexivity.
Qed.

(** ** What a construction guarantees *)



(** X3: [create_stream] releases nothing.  Whether it returns a stream
    or none, and wherever it gave up, none of the calls it made is an
    unmapping or a close. *)
Lemma create_stream_releases_nothing path p indet w r p' w' :
  create_stream path p indet w = Done (r, p') w' ->
  exists evs, trace w' = trace w ++ evs /\
              Forall (fun ev => releases ev = false) evs.
Proof.
  intros Hc.
  apply create_stream_spec in Hc as (_ & evs & Ht & [Hrel _] & _).
  eauto.
Qed.

(** C4 (amended): once the device is open and the format request itself
    has succeeded, [create_stream] fails at the format check exactly
    when the pixel format that came back differs from the one asked for:
    it then returns none at once, params untouched.  When the pixel
    format matches, construction goes on to the buffer request, and
    however it ends the params keep their pixel format and hold as width
    and height what the device returned, cut to the 16 bits of the
    fields and not compared with the hints; a stream that is returned
    reports the same size. *)
Theorem format_negotiation path p indet w fd w0 fmt' w1 :
  open_camera path w = Done fd w0 ->
  (fd <? 0) = false ->
  dev_ioctl fd VIDIOC_S_FMT (format_hint p) w0 = Done (true, fmt') w1 ->
  (fmt_pixelformat fmt' <> p_fmt p ->
   create_stream (Some path) p indet w = Done (None, p) w1) /\
  (fmt_pixelformat fmt' = p_fmt p ->
   forall r p' w',
     create_stream (Some path) p indet w = Done (r, p') w' ->
     (exists ev evs, trace w' = trace w1 ++ ev :: evs /\
                     ioctl_of VIDIOC_REQBUFS ev = true) /\
     p_fmt p' = p_fmt p /\
     p_w p' = u16 (fmt_width fmt') /\
     p_h p' = u16 (fmt_height fmt') /\
     forall s, r = Some s ->
       get_frame_size s = (u16 (fmt_width fmt'), u16 (fmt_height fmt'))).
Proof.
  intros Ho Hfd Hf.
  assert (Hcreate : create_stream (Some path) p indet w =
            (do (ok, dev', p') <- init_stream (new_device fd indet) p ;;
             if negb ok then ret (None, p')
             else ret (Some (mk_stream dev'), p')) w0).
  { unfold create_stream. rewrite (bind_Done _ _ _ _ _ Ho), Hfd. reflexivity. }
  unfold bind in Hcreate.
  rewrite (init_stream_negotiated (new_device fd indet) p w0 true fmt' w1 Hf)
    in Hcreate.
  cbn [negb] in Hcreate. rewrite Hcreate. clear Hcreate. split.
  - intros Hne. apply Z.eqb_neq in Hne. rewrite Hne. reflexivity.
  - intros Heq. apply Z.eqb_eq in Heq. rewrite Heq. cbn [negb].
    intros r p' w' Hrun.
    destruct (init_buffers (negotiated_device (new_device fd indet) fmt')
                (negotiated_params p fmt') w1)
      as [[[ok d'] p1] w2| |] eqn:Hi; try discriminate.
    apply init_buffers_spec in Hi
      as (_ & _ & Hw & Hh & Hpw & Hph & Hpf & evs & Ht & Hstart & _).
    cbn in Hw, Hh, Hpw, Hph, Hpf.
    assert (Hres : r = (if ok then Some (mk_stream d') else None) /\ p' = p1
                   /\ w' = w2).
    { destruct ok; injection Hrun as <- <- <-; auto. }
    destruct Hres as (-> & -> & ->).
    destruct Hstart as (ev & evs' & -> & Hev).
    repeat split; try assumption; [eauto|].
    intros s Hs. destruct ok; [|discriminate]. injection Hs as <-.
    unfold get_frame_size. cbn [dev_]. rewrite Hw, Hh. reflexivity.
Qed.

(** ** Returning a frame *)

Lemma written_keeps (b : v4l2_buffer) (a : answer) :
  keeps_record a = true -> written b a = b.
Proof.
  unfold keeps_record, written. intros Hk.
  destruct (transient a); [reflexivity|].
  cbn. destruct (out a); try reflexivity. discriminate.
Qed.

Lemma ioctl_events_keep s e l :
  Forall (fun a => keeps_record a = true) l ->
  Forall (enqueue_of s)
    (ioctl_events (dev_fd (dev_ s)) VIDIOC_QBUF (dev_buf (dev_ s)) e l).
Proof.
  intros Hl. revert e. induction Hl as [|a l Ha _ IH]; intros e.
  - constructor.
  - cbn [ioctl_events]. constructor; [|apply IH].
    rewrite (written_keeps _ _ Ha). unfold enqueue_of. eauto.
Qed.



Lemma ioctl_events_length {A} `{IoctlArg A} fd req (arg : A) e l :
  length (ioctl_events fd req arg e l) = length l.
Proof.
  revert e. induction l as [|a l IH]; intros e; [reflexivity|].
  cbn [ioctl_events length]. rewrite IH. reflexivity.
Qed.

Lemma ioctl_events_arg {A} `{IoctlArg A} fd req (arg : A) e l :
  Forall (fun ev => exists res r e', ev = EvIoctl fd req (view arg) res r e')
    (ioctl_events fd req arg e l).
Proof.
  revert e. induction l as [|a l IH]; intros e; cbn [ioctl_events].
  - constructor.
  - constructor; [eauto | apply IH].
Qed.

(** One [put_frame] with the marker set: the record is enqueued, and the
    record kept is the one the deciding call left. *)
Lemma put_frame_submits s w s' w' :
  vb_bytesused (dev_buf (dev_ s)) <> 0 ->
  put_frame s w = Done s' w' ->
  (exists a, s' = mk_stream (set_buf (dev_ s) (written (dev_buf (dev_ s)) a))) /\
  exists evs, trace w' = trace w ++ evs /\ (1 <= length evs)%nat /\
              Forall (submits s) evs.
Proof.
  intros Hp Hrun. unfold put_frame in Hrun.
  apply Z.eqb_neq in Hp. rewrite Hp in Hrun.
  apply bind_Done_inv in Hrun as ([ok b] & w1 & Hq & Hrun).
  injection Hrun as <- <-.
  apply dev_ioctl_inv in Hq as (ts & a & _ & _ & _ & _ & -> & _ & Ht).
  split; [eauto|].
  eexists. split; [exact Ht|]. split.
  - rewrite ioctl_events_length, length_app. cbn. lia.
  - apply ioctl_events_arg.
Qed.

(** One [put_frame] with the marker set, on a device that leaves the
    record alone: the record is enqueued, and the stream is as before. *)
Lemma put_frame_pending s w s' w' :
  vb_bytesused (dev_buf (dev_ s)) <> 0 ->
  Forall (fun a => keeps_record a = true) (script w) ->
  put_frame s w = Done s' w' ->
  s' = s /\
  Forall (fun a => keeps_record a = true) (script w') /\
  exists evs, trace w' = trace w ++ evs /\ (1 <= length evs)%nat /\
              Forall (enqueue_of s) evs.
Proof.
  intros Hp Hk Hrun. unfold put_frame in Hrun.
  apply Z.eqb_neq in Hp. rewrite Hp in Hrun.
  apply bind_Done_inv in Hrun as ([ok b] & w1 & Hq & Hrun).
  injection Hrun as <- <-.
  apply dev_ioctl_inv in Hq as (ts & a & Hs & _ & _ & _ & Hb & _ & Ht).
  rewrite Hs in Hk. apply Forall_app in Hk as [Hkt Hk].
  apply Forall_cons in Hk as [Hka Hk].
  rewrite (written_keeps _ _ Hka) in Hb. subst b.
  split; [destruct s as [[fd f b]]; reflexivity|].
  split; [exact Hk|].
  eexists. split; [exact Ht|]. split.
  - rewrite ioctl_events_length, length_app. cbn. lia.
  - apply ioctl_events_keep. apply Forall_app. split; [exact Hkt|].
    constructor; [exact Hka | constructor].
Qed.

Lemma put_frames_pending n s w s' w' :
  vb_bytesused (dev_buf (dev_ s)) <> 0 ->
  Forall (fun a => keeps_record a = true) (script w) ->
  put_frames n s w = Done s' w' ->
  s' = s /\
  exists evs, trace w' = trace w ++ evs /\ (n <= length evs)%nat /\
              Forall (enqueue_of s) evs.
Proof.
  intros Hp. revert w. induction n as [|n IH]; intros w Hk Hrun.
  - injection Hrun as <- <-. split; [reflexivity|].
    exists []. rewrite app_nil_r. repeat split; [cbn; lia | constructor].
  - cbn [put_frames] in Hrun.
    apply bind_Done_inv in Hrun as (s1 & w1 & H1 & Hrun).
    apply put_frame_pending in H1 as (-> & Hk1 & ev1 & Ht1 & Hl1 & He1);
      [|assumption..].
    apply IH in Hrun as (-> & evs & Ht & Hl & He); [|assumption].
    split; [reflexivity|].
    exists (ev1 ++ evs). rewrite Ht, Ht1, <- app_assoc.
    split; [reflexivity|]. split.
    + rewrite length_app. lia.
    + apply Forall_app. auto.
Qed.

(** One [put_frame] with the marker set, as an equation: the enqueue is
    issued again while it is answered with EINTR or EAGAIN, and the
    record kept is the one the deciding call left. *)
Lemma put_frame_run s ts a rest e tr :
  vb_bytesused (dev_buf (dev_ s)) <> 0 ->
  Forall (fun x => transient x = true) ts ->
  transient a = false ->
  put_frame s (mk_world (ts ++ a :: rest) e tr) =
  Done (mk_stream (set_buf (dev_ s) (written (dev_buf (dev_ s)) a)))
       (mk_world rest (fold_left errno_after (ts ++ [a]) e)
          (tr ++ ioctl_events (dev_fd (dev_ s)) VIDIOC_QBUF
                   (dev_buf (dev_ s)) e (ts ++ [a]))).
Proof.
  intros Hp Hts Ha. unfold put_frame.
  apply Z.eqb_neq in Hp. rewrite Hp.
  unfold bind, dev_ioctl, fueled. cbn [script].
  rewrite (dev_ioctl_loop_run _ _ _ _ _ _ Hts Ha)
    by (rewrite length_app; simpl; lia).
  reflexivity.
Qed.

(** C10 (amended): [put_frame] has no statement that clears the pending
    marker.  After a [get_frame] that returned true with the marker set
    (it dequeued a buffer that was not empty, into whatever image the
    caller passed), the marker is the image's byte count and the
    record's index is the slot the image points into.  The next
    [put_frame] then enqueues that record, again while the answer is
    EINTR or EAGAIN, and keeps the record as the deciding call left it:
    on an answer that does not rewrite the record the stream is as before
    (so every further [put_frame] enqueues the same record again), and
    once an answer has left a byte count of 0 in the record every
    further [put_frame] does nothing. *)
Theorem put_frame_resubmits n s0 o w0 s o' w :
  get_frame s0 o w0 = Done (true, s, o') w ->
  vb_bytesused (dev_buf (dev_ s)) <> 0 ->
  vb_bytesused (dev_buf (dev_ s)) = img_bytes o' /\
  img_bytes o' <> 0 /\
  (exists v, fr_buf (dev_frame (dev_ s))
               !! Z.to_nat (vb_index (dev_buf (dev_ s))) = Some v /\
             img_data o' = bv_data v) /\
  (forall ts a rest e tr,
     Forall (fun x => transient x = true) ts ->
     transient a = false ->
     let s1 :=
       mk_stream (set_buf (dev_ s) (written (dev_buf (dev_ s)) a)) in
     put_frame s (mk_world (ts ++ a :: rest) e tr) =
       Done s1
         (mk_world rest (fold_left errno_after (ts ++ [a]) e)
            (tr ++ ioctl_events (dev_fd (dev_ s)) VIDIOC_QBUF
                     (dev_buf (dev_ s)) e (ts ++ [a]))) /\
     (keeps_record a = true -> s1 = s) /\
     (vb_bytesused (dev_buf (dev_ s1)) = 0 ->
      forall w2, put_frame s1 w2 = Done s1 w2)) /\
  (forall s1 w1,
     put_frame s w = Done s1 w1 ->
     (exists a,
        s1 = mk_stream (set_buf (dev_ s) (written (dev_buf (dev_ s)) a))) /\
     exists evs, trace w1 = trace w ++ evs /\ (1 <= length evs)%nat /\
                 Forall (submits s) evs) /\
  (Forall (fun a => keeps_record a = true) (script w) ->
   forall s' w',
     put_frames n s w = Done s' w' ->
     s' = s /\
     exists evs, trace w' = trace w ++ evs /\ (n <= length evs)%nat /\
                 Forall (enqueue_of s) evs).
Proof.
  intros Hg Hp.
  apply get_frame_spec in Hg
    as (_ & Hf & evs & _ & _
        & [(_ & Hz & _) | [(_ & Hok & _) | (v & Hv & -> & Hok)]]).
  { contradiction. }
  { discriminate. }
  cbn [img_bytes img_data].
  split; [reflexivity|]. split; [exact Hp|]. split.
  { exists v. rewrite Hf. auto. }
  split.
  { intros ts a rest e tr Hts Ha. cbn zeta. split; [|split].
    - apply put_frame_run; assumption.
    - intros Hk. rewrite (written_keeps _ _ Hk).
      destruct s as [[fd f b]]. reflexivity.
    - intros Hz w2. apply put_frame_idle. exact Hz. }
  split.
  - intros s1 w1. apply put_frame_submits. exact Hp.
  - intros Hk s' w'. apply put_frames_pending; assumption.
Qed.

(** ** Sample runs *)

Lemma create_plain_camera rest :
  create_stream (Some video0) hints limbo (boot (plain_camera ++ rest)) =
  Done (Some (cam (dev_buf limbo)), hints)
       (mk_world rest 0
          (plain_trace
           ++ [EvIoctl 3 VIDIOC_S_PARM (AParm 30) (AParm 30) 0 0])).
Proof. reflexivity. Qed.

(** *** Construction that fails midway *)

(** C1: the code at a failing input.  The device is opened (descriptor
    3), one buffer is mapped, the query of the second buffer fails with
    EINVAL.  [create_stream] returns none, and its trace ends with the
    failed query: the region mapped at 1000000 is not unmapped and
    descriptor 3 is not closed. *)
Theorem create_stream_leaks :
  create_stream (Some video0) hints limbo (boot broken_query) =
    Done (None, hints) (mk_world [] 22 broken_query_trace) /\
  mappings broken_query_trace = [(614400, 1000000)] /\
  filter (fun ev => releases ev = true) broken_query_trace = [].
Proof. repeat split. Qed.

(** C2, as stated, fails: the frame-rate request is refused with EINVAL,
    which is neither EINTR nor EAGAIN, and [create_stream] returns the
    stream all the same, with a frame rate of 0 in the params. *)
Lemma frame_rate_failure_is_not_fatal :
  create_stream (Some video0) hints limbo
    (boot [a_chardev; a_fd; a_format 640 480 MJPG; a_granted 2; a_array;
           a_queried 0; a_mapped 1000000; a_queried 1; a_mapped 2000000;
           a_done; a_done; a_einval]) =
  Done (Some (cam (dev_buf limbo)), mk_params 640 480 0 MJPG)
       (mk_world [] 22
          (plain_trace
           ++ [EvIoctl 3 VIDIOC_S_PARM (AParm 30) (AParm 30) (-1) 22])).
Proof. reflexivity. Qed.

(** *** Format negotiation *)

(** C4, as stated, fails twice.  First run: the format request itself is
    refused; no pixel format comes back that differs from the request
    (the structure is as it was sent), yet [create_stream] returns none.
    Second run: the device answers 66176 x 66016; the request goes
    through and the params hold 640 x 480, not the device's values. *)
Lemma negotiation_beyond_the_token :
  create_stream (Some video0) hints limbo (boot [a_chardev; a_fd; a_einval]) =
    Done (None, hints)
         (mk_world [] 22
            [EvStat video0 0; EvOpen video0 2050 3;
             EvIoctl 3 VIDIOC_S_FMT (AFmt 640 480 MJPG) (AFmt 640 480 MJPG)
               (-1) 22]) /\
  create_stream (Some video0) hints limbo
    (boot [a_chardev; a_fd; a_format 66176 66016 MJPG; a_granted 2; a_array;
           a_queried 0; a_mapped 1000000; a_queried 1; a_mapped 2000000;
           a_done; a_done; a_rate 30]) =
    Done (Some (cam (dev_buf limbo)), mk_params 640 480 30 MJPG)
         (mk_world [] 0
            ([EvStat video0 0; EvOpen video0 2050 3;
              EvIoctl 3 VIDIOC_S_FMT (AFmt 640 480 MJPG)
                (AFmt 66176 66016 MJPG) 0 0]
             ++ drop 3 plain_trace
             ++ [EvIoctl 3 VIDIOC_S_PARM (AParm 30) (AParm 30) 0 0])).
Proof. split; reflexivity. Qed.

Lemma format_negotiation_witness :
  (fmt_pixelformat (format_hint hints) <> p_fmt hints ->
   create_stream (Some video0) hints limbo (boot plain_camera)
   = Done (None, hints) negotiated_world) /\
  (fmt_pixelformat (format_hint hints) = p_fmt hints ->
   forall r p' w',
     create_stream (Some video0) hints limbo (boot plain_camera)
     = Done (r, p') w' ->
     (exists ev evs, trace w' = trace negotiated_world ++ ev :: evs /\
                     ioctl_of VIDIOC_REQBUFS ev = true) /\
     p_fmt p' = p_fmt hints /\
     p_w p' = u16 (fmt_width (format_hint hints)) /\
     p_h p' = u16 (fmt_height (format_hint hints)) /\
     forall s, r = Some s ->
       get_frame_size s = (u16 (fmt_width (format_hint hints)),
                           u16 (fmt_height (format_hint hints)))).
Proof.
  apply (format_negotiation video0 hints limbo (boot plain_camera) 3
           opened_world (format_hint hints) negotiated_world);
    reflexivity.
Defined.

(** *** A pool of another size *)



(** *** Frames that were not there *)

(** C3: the code at a failing input.  The poll times out; the caller's
    image still has the byte count of an earlier frame; [get_frame]
    returns true, a frame, and hands back that image untouched. *)
Theorem get_frame_timeout_stale :
  get_frame (cam zero_buffer) earlier_frame (boot [a_timeout]) =
  Done (true, cam zero_buffer, earlier_frame) timed_out.
Proof. reflexivity. Qed.

(** C8: the code at a failing input.  The poll times out; the image the
    caller passed has a byte count that is not 0; [get_frame] returns
    true with that image, whose width and height (1 x 1) are not the
    640 x 480 that [get_frame_size] reports. *)
Theorem get_frame_timeout_foreign_size :
  get_frame (cam zero_buffer) stack_garbage (boot [a_timeout]) =
    Done (true, cam zero_buffer, stack_garbage) timed_out /\
  (img_w stack_garbage, img_h stack_garbage) = (1, 1) /\
  get_frame_size (cam zero_buffer) = (640, 480).
Proof. repeat split. Qed.



(** *** A life and its end *)

Lemma teardown_unmaps_then_closes_witness :
  exists evs,
    trace (mk_world [a_done; a_timeout] 0
             (plain_trace
              ++ [EvIoctl 3 VIDIOC_S_PARM (AParm 30) (AParm 30) 0 0]))
    = trace (boot (plain_camera ++ [a_done; a_timeout])) ++ evs /\
    region <$> fr_buf (dev_frame (dev_ (cam (set_bytesused (dev_buf limbo) 0))))
    = mappings evs /\
    delete_stream (cam (set_bytesused (dev_buf limbo) 0)) lived_world =
    Done tt (mk_world (script lived_world) (errno lived_world)
               (trace lived_world
                ++ ((fun x => EvMunmap x.2 x.1) <$> mappings evs)
                ++ [EvClose (dev_fd (dev_ (cam (dev_buf limbo))))])).
Proof.
  apply (teardown_unmaps_then_closes (Some video0) hints limbo
           (boot (plain_camera ++ [a_done; a_timeout]))
           (cam (dev_buf limbo)) hints).
  - reflexivity.
  - eapply rtc_l; [eapply (step_start _ _ true); reflexivity|].
    eapply rtc_l; [eapply (step_get_frame _ blank _ false); reflexivity|].
    apply rtc_refl.
Defined.

(** A dequeued buffer with no bytes in it is no frame. *)
Example get_frame_empty_buffer :
  get_frame (cam zero_buffer) blank (boot [a_readable; a_frame 0 0 8]) =
  Done (false,
        cam (mk_v4l2_buffer 0 1 0 8 100 250 1 0 614400),
        mk_image 8 640 480 1000000 0 100 250000)
       (mk_world [] 0
          [EvPoll 3 POLL_TIMEOUT_MS 1 0;
           EvIoctl 3 VIDIOC_DQBUF (ABuf 0 0) (ABuf 0 0) 0 0]).
Proof. reflexivity. Qed.

Example teardown_of_plain_camera :
  delete_stream (cam (set_bytesused (dev_buf limbo) 0)) lived_world =
  Done tt (mk_world [] 0
             (trace lived_world
              ++ [EvMunmap 1000000 614400; EvMunmap 2000000 614400;
                  EvClose 3])).
Proof. reflexivity. Qed.

(** *** Returning a frame twice *)

(** C10, as stated, fails: [get_frame] hands out a frame of 52133 bytes
    in slot 1; the first [put_frame] enqueues slot 1 and the device, as
    it answers, rewrites the record with a byte count of 0; the second
    [put_frame] finds the marker clear and enqueues nothing. *)
Lemma second_put_frame_does_nothing :
  get_frame (cam zero_buffer) blank
    (boot [a_readable; a_frame 1 52133 7; a_requeued 1]) =
    Done (true, cam record7, frame7)
         (mk_world [a_requeued 1] 0 dequeued_trace) /\
  put_frame (cam record7) (mk_world [a_requeued 1] 0 dequeued_trace) =
    Done (cam (mk_v4l2_buffer 1 1 0 0 0 0 1 0 614400))
         (mk_world [] 0
            (dequeued_trace
             ++ [EvIoctl 3 VIDIOC_QBUF (ABuf 1 52133) (ABuf 1 0) 0 0])) /\
  put_frame (cam (mk_v4l2_buffer 1 1 0 0 0 0 1 0 614400))
    (mk_world [] 0
       (dequeued_trace
        ++ [EvIoctl 3 VIDIOC_QBUF (ABuf 1 52133) (ABuf 1 0) 0 0])) =
    Done (cam (mk_v4l2_buffer 1 1 0 0 0 0 1 0 614400))
         (mk_world [] 0
            (dequeued_trace
             ++ [EvIoctl 3 VIDIOC_QBUF (ABuf 1 52133) (ABuf 1 0) 0 0])).
Proof. repeat split. Qed.

Lemma put_frame_resubmits_witness :
  vb_bytesused (dev_buf (dev_ (cam record7))) = img_bytes frame7 /\
  img_bytes frame7 <> 0 /\
  (exists v, fr_buf (dev_frame (dev_ (cam record7)))
               !! Z.to_nat (vb_index (dev_buf (dev_ (cam record7)))) = Some v /\
             img_data frame7 = bv_data v) /\
  (forall ts a rest e tr,
     Forall (fun x => transient x = true) ts ->
     transient a = false ->
     let s1 :=
       mk_stream (set_buf (dev_ (cam record7))
                    (written (dev_buf (dev_ (cam record7))) a)) in
     put_frame (cam record7) (mk_world (ts ++ a :: rest) e tr) =
       Done s1
         (mk_world rest (fold_left errno_after (ts ++ [a]) e)
            (tr ++ ioctl_events (dev_fd (dev_ (cam record7))) VIDIOC_QBUF
                     (dev_buf (dev_ (cam record7))) e (ts ++ [a]))) /\
     (keeps_record a = true -> s1 = cam record7) /\
     (vb_bytesused (dev_buf (dev_ s1)) = 0 ->
      forall w2, put_frame s1 w2 = Done s1 w2)) /\
  (forall s1 w1,
     put_frame (cam record7) thrice = Done s1 w1 ->
     (exists a,
        s1 = mk_stream (set_buf (dev_ (cam record7))
                          (written (dev_buf (dev_ (cam record7))) a))) /\
     exists evs, trace w1 = trace thrice ++ evs /\ (1 <= length evs)%nat /\
                 Forall (submits (cam record7)) evs) /\
  (Forall (fun a => keeps_record a = true) (script thrice) ->
   forall s' w',
     put_frames 3 (cam record7) thrice = Done s' w' ->
     s' = cam record7 /\
     exists evs, trace w' = trace thrice ++ evs /\ (3 <= length evs)%nat /\
                 Forall (enqueue_of (cam record7)) evs).
Proof.
  apply (put_frame_resubmits 3 (cam zero_buffer) earlier_frame
           (boot [a_readable; a_frame 1 52133 7; a_done; a_einval; a_done])
           (cam record7) frame7 thrice).
  - reflexivity.
  - discriminate.
Defined.

Example put_frame_three_times :
  put_frames 3 (cam record7) thrice =
  Done (cam record7)
    (mk_world [] 22
       (dequeued_trace
        ++ [EvIoctl 3 VIDIOC_QBUF (ABuf 1 52133) (ABuf 1 52133) 0 0;
            EvIoctl 3 VIDIOC_QBUF (ABuf 1 52133) (ABuf 1 52133) (-1) 22;
            EvIoctl 3 VIDIOC_QBUF (ABuf 1 52133) (ABuf 1 52133) 0 22])).
Proof. reflexivity. Qed.

(** ** The fuel is enough

    The loops get as much fuel as the script is long.  More fuel changes
    nothing: a loop that stops for want of fuel has used up the script,
    and would stop on its next call anyway. *)

Lemma dev_ioctl_loop_fuel {A} `{IoctlArg A} fd req (arg : A) w n m :
  (length (script w) <= n)%nat -> (length (script w) <= m)%nat ->
  dev_ioctl_loop n fd req arg w = dev_ioctl_loop m fd req arg w.
Proof.
  destruct w as [s e tr]. cbn [script]. revert e tr n m.
  induction s as [|a s IH]; intros e tr n m Hn Hm.
  - rewrite !dev_ioctl_loop_nil. reflexivity.
  - destruct n as [|n]; [simpl in Hn; lia|].
    destruct m as [|m]; [simpl in Hm; lia|].
    rewrite !dev_ioctl_loop_step. cbn zeta.
    destruct (transient a); [|reflexivity].
    apply IH; simpl in Hn, Hm; lia.
Qed.

Lemma get_frame_loop_fuel d o w n m :
  (length (script w) <= n)%nat -> (length (script w) <= m)%nat ->
  get_frame_loop n d o w = get_frame_loop m d o w.
Proof.
  destruct w as [s e tr]. cbn [script]. revert e tr n m.
  induction s as [|a s IH]; intros e tr n m Hn Hm.
  - destruct n, m; reflexivity.
  - destruct n as [|n]; [simpl in Hn; lia|].
    destruct m as [|m]; [simpl in Hm; lia|].
    rewrite !get_frame_loop_step. cbn zeta.
    assert (Hgo : get_frame_loop n d o
                    (mk_world s (errno_after e a)
                       (tr ++ [poll_event (dev_fd d) e a])) =
                  get_frame_loop m d o
                    (mk_world s (errno_after e a)
                       (tr ++ [poll_event (dev_fd d) e a])))
      by (apply IH; simpl in Hn, Hm; lia).
    rewrite Hgo. reflexivity.
Qed.

Lemma dev_ioctl_shrinks {A} `{IoctlArg A} fd req (arg : A) w x w' :
  dev_ioctl fd req arg w = Done x w' ->
  (length (script w') < length (script w))%nat.
Proof.
  destruct x as [ok arg']. intros Hrun.
  apply dev_ioctl_inv in Hrun as (ts & a & Hs & _).
  rewrite Hs, length_app. simpl. lia.
Qed.

Lemma v4l2_mmap_shrinks len off fd w addr w' :
  v4l2_mmap len off fd w = Done addr w' ->
  (length (script w') < length (script w))%nat.
Proof.
  intros H.
  apply (simple_call_inv (fun a => EvMmap len off fd (rc a)) rc) in H
    as (a & Hs & _).
  rewrite Hs. simpl. lia.
Qed.

Lemma map_buffers_fuel count n :
  forall m d w,
  (length (script w) <= n)%nat -> (length (script w) <= m)%nat ->
  map_buffers n count d w = map_buffers m count d w.
Proof.
  induction n as [|n IH]; intros m d w Hn Hm.
  - assert (Hs : script w = []) by (destruct (script w); [reflexivity|simpl in Hn; lia]).
    destruct m as [|m]; [reflexivity|].
    cbn [map_buffers].
    destruct (fr_bufcnt (dev_frame d) <? count); [|reflexivity].
    unfold bind, dev_ioctl, fueled. rewrite Hs.
    destruct w as [s e tr]. cbn [script] in Hs. subst s. reflexivity.
  - destruct m as [|m].
    { assert (Hs : script w = [])
        by (destruct (script w); [reflexivity|simpl in Hm; lia]).
      cbn [map_buffers].
      destruct (fr_bufcnt (dev_frame d) <? count); [|reflexivity].
      unfold bind, dev_ioctl, fueled. rewrite Hs.
      destruct w as [s e tr]. cbn [script] in Hs. subst s. reflexivity. }
    cbn [map_buffers].
    destruct (fr_bufcnt (dev_frame d) <? count); [|reflexivity].
    unfold bind at 1 3.
    destruct (dev_ioctl (dev_fd d) VIDIOC_QUERYBUF
                (fresh_buffer (fr_bufcnt (dev_frame d))) w)
      as [[ok buf] w1| |] eqn:Hq; try reflexivity.
    apply dev_ioctl_shrinks in Hq.
    destruct ok; [|reflexivity]. cbn [negb]. unfold bind.
    destruct (v4l2_mmap (vb_length buf) (vb_offset buf) (dev_fd d) w1)
      as [addr w2| |] eqn:Hmm; try reflexivity.
    apply v4l2_mmap_shrinks in Hmm.
    destruct (addr =? MAP_FAILED); [reflexivity|].
    apply IH; lia.
Qed.

(** The enqueue loop counts up to the 8-bit [bufcnt]: that many turns
    of fuel are enough. *)
Lemma queue_buffers_fuel d n :
  forall m i w,
  0 <= i -> fr_bufcnt (dev_frame d) < 256 ->
  (Z.to_nat (fr_bufcnt (dev_frame d) - i) <= n)%nat ->
  (Z.to_nat (fr_bufcnt (dev_frame d) - i) <= m)%nat ->
  queue_buffers n i d w = queue_buffers m i d w.
Proof.
  induction n as [|n IH]; intros m i w Hi Hc Hn Hm.
  - cbn [queue_buffers].
    replace (i <? fr_bufcnt (dev_frame d)) with false
      by (symmetry; apply Z.ltb_ge; lia).
    destruct m; cbn [queue_buffers];
      replace (i <? fr_bufcnt (dev_frame d)) with false
        by (symmetry; apply Z.ltb_ge; lia);
      reflexivity.
  - destruct (i <? fr_bufcnt (dev_frame d)) eqn:Hlt.
    2:{ destruct m; cbn [queue_buffers]; rewrite Hlt; reflexivity. }
    apply Z.ltb_lt in Hlt.
    destruct m as [|m]; [lia|].
    cbn [queue_buffers].
    replace (i <? fr_bufcnt (dev_frame d)) with true
      by (symmetry; apply Z.ltb_lt; lia).
    unfold bind.
    destruct (dev_ioctl (dev_fd d) VIDIOC_QBUF (fresh_buffer i) w)
      as [[ok b] w1| |]; try reflexivity.
    destruct ok; [|reflexivity]. cbn [negb].
    rewrite u8_small by lia. apply IH; lia.
Qed.

(** ** Frames, path by path *)

Lemma get_frame_loop_skip d o pre :
  Forall (fun x => poll_again x = true) pre ->
  forall n s e tr,
  get_frame_loop (length pre + n) d o (mk_world (pre ++ s) e tr) =
  get_frame_loop n d o
    (mk_world s (fold_left errno_after pre e)
       (tr ++ poll_events (dev_fd d) e pre)).
Proof.
  induction 1 as [|x pre Hx _ IH]; intros n s e tr.
  - cbn [length app fold_left poll_events Nat.add]. rewrite app_nil_r.
    reflexivity.
  - cbn [length app Nat.add]. rewrite get_frame_loop_step. cbn zeta.
    unfold poll_again in Hx.
    destruct (rc x =? 0); [discriminate|].
    assert (Hgo : get_frame_loop (length pre + n) d o
                    (mk_world (pre ++ s) (errno_after e x)
                       (tr ++ [poll_event (dev_fd d) e x])) =
                  get_frame_loop n d o
                    (mk_world s (fold_left errno_after (x :: pre) e)
                       (tr ++ poll_events (dev_fd d) e (x :: pre)))).
    { rewrite IH. cbn [fold_left poll_events]. rewrite <- app_assoc.
      reflexivity. }
    destruct (rc x <? 0); rewrite Hx; exact Hgo.
Qed.

(** [get_frame] up to the poll that decides: the marker is cleared, the
    polls before it are in the trace, and the loop stands before the
    answer [a]. *)
Lemma get_frame_at_poll s o pre a rest e tr :
  Forall (fun x => poll_again x = true) pre ->
  get_frame s o (mk_world (pre ++ a :: rest) e tr) =
  (do (brk, d', o') <-
     (fun w => get_frame_loop (S (length rest))
                 (set_buf (dev_ s) (set_bytesused (dev_buf (dev_ s)) 0)) o w) ;;
   if brk then ret (negb (img_bytes o' =? 0), mk_stream d', o')
   else ret (false, mk_stream d', o'))
    (mk_world (a :: rest) (fold_left errno_after pre e)
       (tr ++ poll_events (dev_fd (dev_ s)) e pre)).
Proof.
  intros Hpre. unfold get_frame, bind, fueled. cbn [script].
  rewrite length_app. cbn [length].
  rewrite (get_frame_loop_skip _ _ _ Hpre). reflexivity.
Qed.

Lemma poll_events_snoc fd e l a :
  poll_events fd e (l ++ [a]) =
  poll_events fd e l ++ [poll_event fd (fold_left errno_after l e) a].
Proof.
  revert e. induction l as [|x l IH]; intros e; [reflexivity|].
  cbn [app poll_events fold_left]. rewrite IH. reflexivity.
Qed.

Lemma fold_errno_snoc l a e :
  fold_left errno_after (l ++ [a]) e
  = errno_after (fold_left errno_after l e) a.
Proof. rewrite fold_left_app. reflexivity. Qed.

(** X4: a poll that fails with anything but EINTR ends [get_frame] at
    once: it returns false whatever the caller's image holds, leaves that
    image untouched, clears the marker and dequeues nothing; the polls
    are the only calls it made.  (A line is logged on this path: what
    [errno] holds afterwards is not stated.) *)
Theorem get_frame_poll_failure s o pre a rest e tr :
  Forall (fun x => poll_again x = true) pre ->
  poll_broken a = true ->
  exists e',
    get_frame s o (mk_world (pre ++ a :: rest) e tr) =
    Done (false,
          mk_stream (set_buf (dev_ s) (set_bytesused (dev_buf (dev_ s)) 0)),
          o)
         (mk_world rest e'
            (tr ++ poll_events (dev_fd (dev_ s)) e (pre ++ [a]))).
Proof.
  intros Hpre Ha. exists (err a).
  rewrite (get_frame_at_poll _ _ _ _ _ _ _ Hpre).
  unfold bind. rewrite get_frame_loop_step. cbn zeta.
  unfold poll_broken in Ha. apply andb_true_iff in Ha as [Hneg Herr].
  apply negb_true_iff in Herr.
  assert (Hnz : (rc a =? 0) = false).
  { apply Z.eqb_neq. apply Z.ltb_lt in Hneg. lia. }
  rewrite Hnz, Hneg, Herr, poll_events_snoc, app_assoc.
  unfold errno_after. rewrite Hneg. reflexivity.
Qed.

Lemma get_frame_loop_ready n d o a rest e tr :
  poll_ready a = true ->
  get_frame_loop (S n) d o (mk_world (a :: rest) e tr) =
  dequeue d o
    (mk_world rest (errno_after e a) (tr ++ [poll_event (dev_fd d) e a])).
Proof.
  intros Ha. rewrite get_frame_loop_step. cbn zeta.
  unfold poll_ready in Ha. apply andb_true_iff in Ha as [Hpos Hin].
  apply negb_true_iff in Hin. apply Z.ltb_lt in Hpos.
  replace (rc a =? 0) with false by (symmetry; apply Z.eqb_neq; lia).
  replace (rc a <? 0) with false by (symmetry; apply Z.ltb_ge; lia).
  rewrite Hin. reflexivity.
Qed.

Lemma dequeue_run d o ts b rest e tr :
  Forall (fun x => transient x = true) ts ->
  transient b = false ->
  dequeue d o (mk_world (ts ++ b :: rest) e tr) =
  let rec := written (fresh_buffer 0) b in
  let w' := mk_world rest (fold_left errno_after (ts ++ [b]) e)
              (tr ++ ioctl_events (dev_fd d) VIDIOC_DQBUF (fresh_buffer 0) e
                       (ts ++ [b])) in
  if rc b <? 0 then Done (false, set_buf d rec, o) w'
  else
    match fr_buf (dev_frame d) !! Z.to_nat (vb_index rec) with
    | None => Undefined
    | Some v => Done (true, set_buf d rec, frame_image d rec v) w'
    end.
Proof.
  intros Hts Hb. unfold dequeue, bind, dev_ioctl, fueled. cbn [script].
  rewrite (dev_ioctl_loop_run _ _ _ _ _ _ Hts Hb)
    by (rewrite length_app; simpl; lia).
  cbn zeta. destruct (rc b <? 0); cbn [negb]; [reflexivity|].
  destruct (fr_buf (dev_frame d)
              !! Z.to_nat (vb_index (written (fresh_buffer 0) b)));
    reflexivity.
Qed.

Lemma success_not_transient (b : answer) :
  (rc b <? 0) = false -> transient b = false.
Proof.
  intros Hb. unfold transient. apply Z.ltb_ge in Hb.
  replace (rc b =? -1) with false by (symmetry; apply Z.eqb_neq; lia).
  reflexivity.
Qed.

(** X5: the whole good path of [get_frame].  After any number of
    interrupted or idle polls the descriptor is readable; the dequeue is
    retried while it is answered with EINTR or EAGAIN and then succeeds.
    The record the device wrote names a slot: if the slot is outside the
    pool the code reads beyond the array (the index is not checked);
    otherwise the image has the negotiated size, the slot's address, the
    record's byte count and sequence number, its seconds, and its
    microseconds times 1000; the stream keeps the record, and the result
    is whether the byte count is not 0. *)
Theorem get_frame_dequeues s o pre a ts b rest e tr :
  Forall (fun x => poll_again x = true) pre ->
  poll_ready a = true ->
  Forall (fun x => transient x = true) ts ->
  (rc b <? 0) = false ->
  get_frame s o (mk_world (pre ++ a :: ts ++ b :: rest) e tr) =
  let d := dev_ s in
  let e1 := fold_left errno_after (pre ++ [a]) e in
  let rec := written (fresh_buffer 0) b in
  match fr_buf (dev_frame d) !! Z.to_nat (vb_index rec) with
  | None => Undefined
  | Some v =>
      Done (negb (vb_bytesused rec =? 0), mk_stream (set_buf d rec),
            frame_image d rec v)
           (mk_world rest (fold_left errno_after (ts ++ [b]) e1)
              (tr ++ poll_events (dev_fd d) e (pre ++ [a])
                  ++ ioctl_events (dev_fd d) VIDIOC_DQBUF (fresh_buffer 0) e1
                       (ts ++ [b])))
  end.
Proof.
  intros Hpre Ha Hts Hb. cbn zeta.
  rewrite (get_frame_at_poll _ _ _ _ _ _ _ Hpre).
  unfold bind. rewrite (get_frame_loop_ready _ _ _ _ _ _ _ Ha).
  rewrite (dequeue_run _ _ _ _ _ _ _ Hts (success_not_transient _ Hb)).
  cbn zeta. rewrite Hb. cbn [dev_fd set_buf dev_frame].
  rewrite poll_events_snoc, (fold_errno_snoc pre a e), <- !app_assoc.
  destruct (fr_buf (dev_frame (dev_ s))
              !! Z.to_nat (vb_index (written (fresh_buffer 0) b)));
    [|reflexivity].
  destruct s as [[fd f old]]. reflexivity.
Qed.

(** X6: a dequeue that fails for good (after the descriptor was
    readable) ends [get_frame] with false whatever the caller's image
    holds, and the image is untouched.  The stream's record is the
    zeroed one the dequeue was handed, with whatever the failed call
    wrote into it: it is the zeroed record itself, marker clear, when
    the failed call left the record alone. *)
Theorem get_frame_dequeue_failure s o pre a ts b rest e tr :
  Forall (fun x => poll_again x = true) pre ->
  poll_ready a = true ->
  Forall (fun x => transient x = true) ts ->
  transient b = false ->
  (rc b <? 0) = true ->
  let d := dev_ s in
  let e1 := fold_left errno_after (pre ++ [a]) e in
  let rec := written (fresh_buffer 0) b in
  (exists e',
     get_frame s o (mk_world (pre ++ a :: ts ++ b :: rest) e tr) =
     Done (false, mk_stream (set_buf d rec), o)
          (mk_world rest e'
             (tr ++ poll_events (dev_fd d) e (pre ++ [a])
                 ++ ioctl_events (dev_fd d) VIDIOC_DQBUF (fresh_buffer 0) e1
                      (ts ++ [b])))) /\
  (keeps_record b = true -> rec = fresh_buffer 0).
Proof.
  intros Hpre Ha Hts Hb Hneg. cbn zeta. split.
  - eexists.
    rewrite (get_frame_at_poll _ _ _ _ _ _ _ Hpre).
    unfold bind. rewrite (get_frame_loop_ready _ _ _ _ _ _ _ Ha).
    rewrite (dequeue_run _ _ _ _ _ _ _ Hts Hb).
    cbn zeta. rewrite Hneg. cbn [dev_fd set_buf dev_frame].
    rewrite poll_events_snoc, (fold_errno_snoc pre a e), <- !app_assoc.
    destruct s as [[fd f old]]. reflexivity.
  - apply written_keeps.
Qed.

(** ** Construction, path by path *)

Lemma get_frame_loop_keeps_polling d o l :
  Forall (fun x => poll_again x = true) l ->
  forall n e tr, get_frame_loop n d o (mk_world l e tr) = Starved.
Proof.
  induction 1 as [|x l Hx _ IH]; intros n e tr.
  - destruct n; reflexivity.
  - destruct n; [reflexivity|]. rewrite get_frame_loop_step. cbn zeta.
    unfold poll_again in Hx. destruct (rc x =? 0); [discriminate|].
    destruct (rc x <? 0); rewrite Hx; apply IH.
Qed.

(** X7: the timeout belongs to each poll, not to the call.  While every
    poll is interrupted (EINTR) or reports the descriptor ready for
    something other than reading, [get_frame] polls again, without
    bound: however many such answers there are, it has not returned when
    they run out. *)
Theorem get_frame_keeps_polling s o l e tr n :
  Forall (fun x => poll_again x = true) l ->
  get_frame s o (mk_world l e tr) = Starved /\
  get_frame_loop n
    (set_buf (dev_ s) (set_bytesused (dev_buf (dev_ s)) 0)) o
    (mk_world l e tr) = Starved.
Proof.
  intros Hl. split.
  - unfold get_frame, bind, fueled.
    rewrite get_frame_loop_keeps_polling by exact Hl. reflexivity.
  - apply get_frame_loop_keeps_polling. exact Hl.
Qed.

(** X8: when the path cannot be examined or is not a character device,
    [create_stream] returns none after the one stat call: the device is
    never opened, so there is no descriptor to leak, and the params are
    untouched.  A null path returns none without any call. *)
Theorem create_stream_without_device path p indet a rest e tr w :
  (rc a <? 0) = true \/ S_ISCHR (st_mode_of a) = false ->
  create_stream (Some path) p indet (mk_world (a :: rest) e tr) =
    Done (None, p)
         (mk_world rest (errno_after e a) (tr ++ [EvStat path (rc a)])) /\
  create_stream None p indet w = Done (None, p) w.
Proof.
  intros Ha. split; [|reflexivity].
  unfold create_stream, open_camera, bind, stat, bind, next_answer, emit, ret.
  cbn [script errno trace]. fold (errno_after e a). fold (st_mode_of a).
  destruct (rc a <? 0) eqn:Hneg; [reflexivity|].
  destruct Ha as [Ha|Ha]; [discriminate|]. rewrite Ha. reflexivity.
Qed.

(** X9: when the path is a character device but the open fails,
    [create_stream] returns none after the stat and the one open
    (read/write, non-blocking); no control operation is issued and the
    params are untouched.  (A line is logged on this path: what [errno]
    holds afterwards is not stated.) *)
Theorem create_stream_open_failure path p indet a b rest e tr :
  (rc a <? 0) = false ->
  S_ISCHR (st_mode_of a) = true ->
  (rc b <? 0) = true ->
  exists e',
    create_stream (Some path) p indet (mk_world (a :: b :: rest) e tr) =
    Done (None, p)
         (mk_world rest e'
            (tr ++ [EvStat path (rc a);
                    EvOpen path (Z.lor O_RDWR O_NONBLOCK) (rc b)])).
Proof.
  intros Ha Hchr Hb. exists (err b).
  unfold create_stream, open_camera, bind, stat, v4l2_open, bind, next_answer,
    emit, ret.
  cbn [script errno trace]. fold (st_mode_of a).
  rewrite Ha, Hchr. cbn [negb script errno trace]. rewrite Hb.
  cbn. rewrite <- app_assoc. reflexivity.
Qed.

Lemma create_stream_inv path p indet w s p' w1 :
  create_stream path p indet w = Done (Some s, p') w1 ->
  exists name fd w0,
    path = Some name /\
    open_camera name w = Done fd w0 /\ (fd <? 0) = false /\
    init_stream (new_device fd indet) p w0 = Done (true, dev_ s, p') w1.
Proof.
  unfold create_stream. intros Hrun.
  destruct path as [name|]; [|discriminate].
  apply bind_Done_inv in Hrun as (fd & w0 & Ho & Hrun).
  destruct (fd <? 0) eqn:Hfd; [discriminate|].
  apply bind_Done_inv in Hrun as ([[ok d'] p1] & w2 & Hi & Hrun).
  destruct ok; [|discriminate]. injection Hrun as <- <- <-.
  exists name, fd, w0. auto.
Qed.

(** X10: [create_stream] never initialises the buffer record of the
    device object (the member [buf] has no initialiser): the stream it
    returns still holds whatever the allocator left there.  So a
    [put_frame] before the first [get_frame] acts on that content: it
    does nothing if the stale byte count is 0, and otherwise enqueues
    the stale record. *)
Theorem put_frame_before_first_frame path p indet w s p' w1 :
  create_stream path p indet w = Done (Some s, p') w1 ->
  dev_buf (dev_ s) = dev_buf indet /\
  (vb_bytesused (dev_buf indet) = 0 -> put_frame s w1 = Done s w1) /\
  (vb_bytesused (dev_buf indet) <> 0 ->
   forall s1 w2,
     put_frame s w1 = Done s1 w2 ->
     exists evs, trace w2 = trace w1 ++ evs /\ (1 <= length evs)%nat /\
       Forall (fun ev => exists res r e,
                 ev = EvIoctl (dev_fd (dev_ s)) VIDIOC_QBUF
                        (view (dev_buf indet)) res r e) evs).
Proof.
  intros Hc.
  apply create_stream_inv in Hc as (name & fd & w0 & _ & _ & _ & Hi).
  apply init_stream_spec in Hi as (_ & Hb & _). cbn [new_device dev_buf] in Hb.
  split; [exact Hb|]. split.
  - intros Hz. apply put_frame_idle. rewrite Hb. exact Hz.
  - intros Hnz s1 w2 Hput. rewrite <- Hb in Hnz.
    apply (put_frame_submits _ _ _ _ Hnz) in Hput as (_ & evs & Ht & Hl & Hs).
    exists evs. split; [exact Ht|]. split; [exact Hl|].
    unfold submits in Hs. rewrite Hb in Hs. exact Hs.
Qed.

Lemma init_buffers_failure d p w d' p' w' :
  init_buffers d p w = Done (false, d', p') w' -> p' = p.
Proof.
  unfold init_buffers. intros Hrun.
  apply bind_Done_inv in Hrun as ([okr req'] & w1 & _ & Hrun).
  destruct okr; cbn [negb] in Hrun; [|injection Hrun as _ <-; reflexivity].
  apply bind_Done_inv in Hrun as (ptr & w2 & _ & Hrun).
  destruct (ptr =? NULL); [injection Hrun as _ <-; reflexivity|].
  apply bind_Done_inv in Hrun as ([okm d2] & w3 & _ & Hrun).
  destruct okm; cbn [negb] in Hrun; [|injection Hrun as _ <-; reflexivity].
  apply bind_Done_inv in Hrun as (okq & w4 & _ & Hrun).
  destruct okq; cbn [negb] in Hrun; [|injection Hrun as _ <-; reflexivity].
  apply bind_Done_inv in Hrun as (fps & w5 & _ & Hrun).
  discriminate.
Qed.

(** ** The order of a construction *)

Lemma open_camera_events path w fd w0 :
  open_camera path w = Done fd w0 ->
  exists evs, trace w0 = trace w ++ evs /\
              Forall (fun ev => file_call ev = true) evs.
Proof.
  unfold open_camera. intros Hrun.
  apply bind_Done_inv in Hrun as ([r mode] & w1 & Hs & Hrun).
  apply (simple_call_inv (fun a => EvStat path (rc a))) in Hs
    as (a & _ & _ & _ & Hts).
  destruct (r <? 0).
  { injection Hrun as _ <-. eexists. split; [exact Hts|].
    repeat constructor. }
  destruct (S_ISCHR mode); cbn [negb] in Hrun.
  2:{ injection Hrun as _ <-. eexists. split; [exact Hts|].
      repeat constructor. }
  apply bind_Done_inv in Hrun as (fd' & w2 & Ho & Hrun).
  apply (simple_call_inv (fun a => EvOpen path _ (rc a)) rc) in Ho
    as (b & _ & _ & _ & Hto).
  eexists. split.
  - destruct (fd' <? 0); injection Hrun as _ <-;
      rewrite Hto, Hts, <- app_assoc; reflexivity.
  - repeat constructor.
Qed.

Lemma map_buffers_events n count d w ok d' w' :
  map_buffers n count d w = Done (ok, d') w' ->
  exists evs, trace w' = trace w ++ evs /\
              Forall (fun ev => map_call ev = true) evs.
Proof.
  revert d w. induction n as [|n IH]; intros d w Hrun.
  - cbn [map_buffers] in Hrun.
    destruct (fr_bufcnt (dev_frame d) <? count); [discriminate|].
    injection Hrun as _ _ <-. exists []. rewrite app_nil_r.
    split; [reflexivity | constructor].
  - destruct (fr_bufcnt (dev_frame d) <? count) eqn:Hlt.
    2:{ rewrite map_buffers_exit in Hrun by assumption.
        injection Hrun as _ _ <-. exists []. rewrite app_nil_r.
        split; [reflexivity | constructor]. }
    apply map_buffers_step in Hrun as (okq & buf & w1 & Hq & Hcase);
      [|assumption].
    apply dev_ioctl_trace in Hq as (evq & Htq & Hofq & _).
    assert (Hmq : Forall (fun ev => map_call ev = true) evq).
    { eapply Forall_impl; [exact Hofq|]. intros ev Hev.
      destruct ev; cbn in Hev; try discriminate. exact Hev. }
    destruct Hcase as [(_ & _ & _ & ->) | (_ & addr & w2 & Hm & Hcase)].
    + exists evq. auto.
    + apply v4l2_mmap_inv in Hm.
      destruct Hcase as [(_ & _ & -> & _) | (_ & Hrun)].
      * eexists. rewrite Hm, Htq, <- app_assoc. split; [reflexivity|].
        apply Forall_app. split; [exact Hmq | repeat constructor].
      * apply IH in Hrun as (evs & Ht & Hmc).
        eexists. rewrite Ht, Hm, Htq, <- !app_assoc. split; [reflexivity|].
        apply Forall_app. split; [exact Hmq|].
        apply Forall_app. split; [repeat constructor | exact Hmc].
Qed.

Lemma enqueued_app evs1 evs2 :
  enqueued (evs1 ++ evs2) = enqueued evs1 ++ enqueued evs2.
Proof.
  induction evs1 as [|ev evs1 IH]; [reflexivity|].
  destruct ev as [| |fd req arg res r e| | | | |]; cbn [app enqueued];
    try exact IH.
  destruct req; try exact IH.
  destruct arg; try exact IH.
  destruct (r <? 0); cbn [app]; rewrite IH; reflexivity.
Qed.

Lemma enqueue_events i fd e ts a :
  Forall (fun x => transient x = true) ts ->
  (rc a <? 0) = false ->
  enqueued (ioctl_events fd VIDIOC_QBUF (fresh_buffer i) e (ts ++ [a])) = [i].
Proof.
  intros Hts Ha. revert e.
  induction Hts as [|t ts Ht _ IH]; intros e; cbn [app ioctl_events enqueued].
  - cbn. rewrite Ha. reflexivity.
  - cbn [view v4l2_buffer_arg fresh_buffer vb_index vb_bytesused].
    rewrite (transient_fails _ Ht). apply IH.
Qed.

Lemma queue_buffers_enqueued n i d w w' :
  queue_buffers n i d w = Done true w' ->
  0 <= i <= fr_bufcnt (dev_frame d) -> fr_bufcnt (dev_frame d) < 256 ->
  exists evs, trace w' = trace w ++ evs /\
              Forall (fun ev => ioctl_of VIDIOC_QBUF ev = true) evs /\
              enqueued evs = seqZ i (fr_bufcnt (dev_frame d) - i).
Proof.
  revert i w. induction n as [|n IH]; intros i w Hrun Hi Hc;
    cbn [queue_buffers] in Hrun;
    destruct (i <? fr_bufcnt (dev_frame d)) eqn:Hlt; try discriminate.
  1,3: injection Hrun as <-; exists []; rewrite app_nil_r;
       apply Z.ltb_ge in Hlt;
       replace (fr_bufcnt (dev_frame d) - i) with 0 by lia;
       repeat split; constructor.
  apply Z.ltb_lt in Hlt.
  apply bind_Done_inv in Hrun as ([okq b] & w1 & Hq & Hrun).
  destruct okq; cbn [negb] in Hrun; [|discriminate].
  pose proof (dev_ioctl_inv _ _ _ _ _ _ _ Hq)
    as (ts & a & _ & Hts & _ & Hok & _ & _ & Htq).
  rewrite u8_small in Hrun by lia.
  apply IH in Hrun as (evs & Ht & Hof & Hen); [|lia..].
  eexists. rewrite Ht, Htq, <- app_assoc. split; [reflexivity|]. split.
  - apply Forall_app. split; [apply ioctl_events_of | exact Hof].
  - rewrite enqueued_app, Hen, enqueue_events; [|exact Hts|].
    + rewrite (seqZ_cons i) by lia. cbn [app]. f_equal. f_equal; lia.
    + destruct (rc a <? 0); [discriminate | reflexivity].
Qed.

Lemma enqueued_none req evs :
  req <> VIDIOC_QBUF ->
  Forall (fun ev => ioctl_of req ev = true) evs -> enqueued evs = [].
Proof.
  intros Hne. induction 1 as [|ev evs Hev _ IH]; [reflexivity|].
  destruct ev as [| |fd q arg res r e| | | | |]; cbn in Hev;
    try discriminate.
  apply bool_decide_eq_true in Hev. subst q.
  destruct req; try contradiction; exact IH.
Qed.

(** X12: the calls of a successful [create_stream], in order: the stat
    and the open; the format requests; the buffer requests; the
    allocation of the array for the granted count; the buffer queries
    and mapping calls; the enqueues, of which the ones that did not fail
    are slots 0, 1, ... up to the count, each once and in that order;
    and last the frame-rate requests.  No other call is made. *)
Theorem construction_protocol path p indet w s p' w1 :
  create_stream path p indet w = Done (Some s, p') w1 ->
  exists ev_open ev_fmt ev_req ptr ev_map ev_q ev_parm,
    trace w1 = trace w ++ ev_open ++ ev_fmt ++ ev_req
               ++ EvCalloc (fr_bufcnt (dev_frame (dev_ s))) ptr
               :: ev_map ++ ev_q ++ ev_parm /\
    Forall (fun ev => file_call ev = true) ev_open /\
    Forall (fun ev => ioctl_of VIDIOC_S_FMT ev = true) ev_fmt /\
    Forall (fun ev => ioctl_of VIDIOC_REQBUFS ev = true) ev_req /\
    Forall (fun ev => map_call ev = true) ev_map /\
    Forall (fun ev => ioctl_of VIDIOC_QBUF ev = true) ev_q /\
    Forall (fun ev => ioctl_of VIDIOC_S_PARM ev = true) ev_parm /\
    enqueued ev_q = seqZ 0 (fr_bufcnt (dev_frame (dev_ s))).
Proof.
  intros Hc.
  apply create_stream_inv in Hc as (name & fd & w0 & _ & Ho & _ & Hi).
  apply open_camera_events in Ho as (ev0 & Ht0 & Hf0).
  destruct (dev_ioctl (dev_fd (new_device fd indet)) VIDIOC_S_FMT
              (format_hint p) w0) as [[okf fmt'] wf| |] eqn:Hf.
  2,3: unfold init_stream in Hi; fold (format_hint p) in Hi;
       unfold bind in Hi; rewrite Hf in Hi; discriminate.
  rewrite (init_stream_negotiated _ _ _ _ _ _ Hf) in Hi.
  destruct okf; cbn [negb] in Hi; [|discriminate].
  destruct (fmt_pixelformat fmt' =? p_fmt p); cbn [negb] in Hi;
    [|discriminate].
  apply dev_ioctl_trace in Hf as (evf & Htf & Hoff & _).
  unfold init_buffers in Hi.
  apply bind_Done_inv in Hi as ([okr req'] & w2 & Hr & Hi).
  destruct okr; cbn [negb] in Hi; [|discriminate].
  apply dev_ioctl_last in Hr
    as (evr & Htr & Hofr & _ & _ & _ & _ & a & _ & _ & Hreq').
  apply bind_Done_inv in Hi as (ptr & w3 & Hcal & Hi).
  apply calloc_inv in Hcal.
  destruct (ptr =? NULL); [discriminate|].
  apply bind_Done_inv in Hi as ([okm d2] & w4 & Hm & Hi).
  destruct okm; cbn [negb] in Hi; [|discriminate].
  unfold fueled in Hm.
  set (count := req_count req') in *.
  assert (Hcount : 0 <= count).
  { subst count req'. apply granted_count_nonneg. cbn. unfold BUFFERS_CNT. lia. }
  assert (Hsmall : count < 256).
  { destruct (Z.lt_ge_cases count 256) as [Hlt|Hge]; [exact Hlt|].
    apply (map_buffers_wraps _ _ _ _ _ _ _ Hge) in Hm;
      [discriminate | cbn; lia]. }
  destruct (map_buffers_events _ _ _ _ _ _ _ Hm) as (evm & Htm & Hmc).
  apply map_buffers_pool in Hm as (Hcnt & _);
    [|exact Hsmall|cbn; lia|cbn; rewrite length_replicate; lia].
  apply bind_Done_inv in Hi as (okq & w5 & Hq & Hi).
  destruct okq; cbn [negb] in Hi; [|discriminate].
  apply queue_buffers_enqueued in Hq as (evq & Htq & Hofq & Hen); [|lia..].
  apply bind_Done_inv in Hi as (fps & w6 & Hs & Hi).
  apply set_framerate_trace in Hs as (evs & Hts & Hofs & _).
  injection Hi as Hd _ <-. rewrite <- Hd.
  exists ev0, evf, evr, ptr, evm, evq, evs.
  rewrite Hcnt. repeat split; try assumption.
  - rewrite Hts, Htq, Htm, Hcal, Htr, Htf, Ht0, <- !app_assoc. reflexivity.
  - rewrite Hen, Hcnt. f_equal. lia.
Qed.

(** ** The params after a failure *)

Lemma accepted_format_app pf evs1 evs2 :
  accepted_format pf (evs1 ++ evs2) =
  match accepted_format pf evs1 with
  | Some x => Some x
  | None => accepted_format pf evs2
  end.
Proof.
  induction evs1 as [|ev evs1 IH]; [reflexivity|].
  destruct ev as [| |fd q arg res r e| | | | |]; cbn [app accepted_format];
    try exact IH.
  destruct q; try exact IH. destruct res; try exact IH.
  destruct ((0 <=? r) && (pixelformat =? pf)); [reflexivity | exact IH].
Qed.

Lemma accepted_format_files pf evs :
  Forall (fun ev => file_call ev = true) evs -> accepted_format pf evs = None.
Proof.
  induction 1 as [|ev evs Hev _ IH]; [reflexivity|].
  destruct ev; try discriminate Hev; exact IH.
Qed.

Lemma accepted_format_other pf req evs :
  req <> VIDIOC_S_FMT ->
  Forall (fun ev => ioctl_of req ev = true \/ file_call ev = true
                    \/ map_call ev = true
                    \/ exists n ptr, ev = EvCalloc n ptr) evs ->
  accepted_format pf evs = None.
Proof.
  intros Hreq. induction 1 as [|ev evs Hev _ IH]; [reflexivity|].
  destruct ev as [| |fd q arg res r e| | | | |]; cbn [accepted_format];
    try exact IH.
  destruct q; try exact IH. exfalso.
  destruct Hev as [Hev|[Hev|[Hev|(n & ptr & Hev)]]]; try discriminate Hev.
  apply bool_decide_eq_true in Hev. congruence.
Qed.

Lemma accepted_format_retried pf fd (arg : v4l2_format) e ts :
  Forall (fun x => transient x = true) ts ->
  accepted_format pf (ioctl_events fd VIDIOC_S_FMT arg e ts) = None.
Proof.
  intros Hts. revert e. induction Hts as [|t ts Ht _ IH]; intros e;
    [reflexivity|].
  cbn [ioctl_events accepted_format view v4l2_format_arg].
  apply transient_fails in Ht. apply Z.ltb_lt in Ht.
  replace (0 <=? rc t) with false by (symmetry; apply Z.leb_gt; lia).
  apply IH.
Qed.

(** The events of [init_buffers] hold no format request. *)
Lemma init_buffers_no_format d p w ok d' p' w' pf :
  init_buffers d p w = Done (ok, d', p') w' ->
  exists evs, trace w' = trace w ++ evs /\ accepted_format pf evs = None.
Proof.
  unfold init_buffers. intros Hrun.
  assert (Hio : forall req evs, req <> VIDIOC_S_FMT ->
            Forall (fun ev => ioctl_of req ev = true) evs ->
            accepted_format pf evs = None).
  { intros req evs Hreq Hof. apply (accepted_format_other pf req); [exact Hreq|].
    eapply Forall_impl; [exact Hof|]. auto. }
  apply bind_Done_inv in Hrun as ([okr req'] & w1 & Hr & Hrun).
  apply dev_ioctl_trace in Hr as (evr & Htr & Hofr & _).
  pose proof (Hio VIDIOC_REQBUFS _ ltac:(discriminate) Hofr) as Hnr.
  destruct okr; cbn [negb] in Hrun.
  2:{ injection Hrun as _ _ _ <-. eauto. }
  apply bind_Done_inv in Hrun as (ptr & w2 & Hcal & Hrun).
  apply calloc_inv in Hcal.
  destruct (ptr =? NULL).
  { injection Hrun as _ _ _ <-. exists (evr ++ [EvCalloc (req_count req') ptr]).
    rewrite Hcal, Htr, <- app_assoc. split; [reflexivity|].
    rewrite accepted_format_app, Hnr. reflexivity. }
  apply bind_Done_inv in Hrun as ([okm d2] & w3 & Hm & Hrun).
  unfold fueled in Hm.
  apply map_buffers_events in Hm as (evm & Htm & Hmc).
  assert (Hnm : accepted_format pf evm = None).
  { apply (accepted_format_other pf VIDIOC_QUERYBUF); [discriminate|].
    eapply Forall_impl; [exact Hmc|]. auto. }
  assert (Hupto : trace w3 = trace w
                  ++ (evr ++ [EvCalloc (req_count req') ptr] ++ evm)).
  { rewrite Htm, Hcal, Htr, <- !app_assoc. reflexivity. }
  assert (Hnone : accepted_format pf
                    (evr ++ [EvCalloc (req_count req') ptr] ++ evm) = None).
  { rewrite !accepted_format_app, Hnr, Hnm. reflexivity. }
  destruct okm; cbn [negb] in Hrun.
  2:{ injection Hrun as _ _ _ <-. eauto. }
  apply bind_Done_inv in Hrun as (okq & w4 & Hq & Hrun).
  apply queue_buffers_trace in Hq as (evq & Htq & Hofq & _).
  pose proof (Hio VIDIOC_QBUF _ ltac:(discriminate) Hofq) as Hnq.
  destruct okq; cbn [negb] in Hrun.
  2:{ injection Hrun as _ _ _ <-.
      exists ((evr ++ [EvCalloc (req_count req') ptr] ++ evm) ++ evq).
      rewrite Htq, Hupto, <- !app_assoc. split; [reflexivity|].
      rewrite !accepted_format_app, Hnr, Hnm, Hnq. reflexivity. }
  apply bind_Done_inv in Hrun as (fps & w5 & Hs & Hrun).
  apply set_framerate_trace in Hs as (evp & Htp & Hofp & _).
  pose proof (Hio VIDIOC_S_PARM _ ltac:(discriminate) Hofp) as Hnp.
  injection Hrun as _ _ _ <-.
  exists ((evr ++ [EvCalloc (req_count req') ptr] ++ evm) ++ evq ++ evp).
  rewrite Htp, Htq, Hupto, <- !app_assoc. split; [reflexivity|].
  rewrite !accepted_format_app, Hnr, Hnm, Hnq, Hnp. reflexivity.
Qed.

(** X11: what a failed [create_stream] leaves in the caller's params.
    Frame rate and pixel format are as passed.  If no format request
    succeeded with the requested pixel format, width and height are as
    passed too.  If one did (and the construction failed later), they
    hold the width and the height the device answered to it, cut to 16
    bits, although no stream was created. *)
Theorem create_stream_failure_params path p indet w p' w' :
  create_stream path p indet w = Done (None, p') w' ->
  exists evs,
    trace w' = trace w ++ evs /\
    p' = match accepted_format (p_fmt p) evs with
         | Some (w0, h0) => mk_params (u16 w0) (u16 h0) (p_fps p) (p_fmt p)
         | None => p
         end.
Proof.
  intros Hc. unfold create_stream in Hc.
  destruct path as [name|].
  2:{ injection Hc as <- <-. exists []. rewrite app_nil_r. auto. }
  apply bind_Done_inv in Hc as (fd & w0 & Ho & Hc).
  apply open_camera_events in Ho as (ev0 & Ht0 & Hf0).
  pose proof (accepted_format_files (p_fmt p) _ Hf0) as Hn0.
  destruct (fd <? 0).
  { injection Hc as <- <-. exists ev0. rewrite Hn0. auto. }
  apply bind_Done_inv in Hc as ([[ok d'] p1] & w2 & Hi & Hc).
  destruct ok; [discriminate|]. injection Hc as <- <-.
  destruct (dev_ioctl (dev_fd (new_device fd indet)) VIDIOC_S_FMT
              (format_hint p) w0) as [[okf fmt'] w1| |] eqn:Hf.
  2,3: unfold init_stream in Hi; fold (format_hint p) in Hi;
       unfold bind in Hi; rewrite Hf in Hi; discriminate.
  rewrite (init_stream_negotiated _ _ _ _ _ _ Hf) in Hi.
  apply dev_ioctl_inv in Hf as (ts & a & _ & Hts & _ & Hok & Hfmt' & _ & Htf).
  set (evf := ioctl_events (dev_fd (new_device fd indet)) VIDIOC_S_FMT
                (format_hint p) (errno w0) (ts ++ [a])) in *.
  assert (Hlast : accepted_format (p_fmt p) evf =
                  if negb (rc a <? 0) && (fmt_pixelformat fmt' =? p_fmt p)
                  then Some (fmt_width fmt', fmt_height fmt') else None).
  { subst evf. rewrite ioctl_events_snoc, accepted_format_app,
      accepted_format_retried by exact Hts.
    cbn [accepted_format view v4l2_format_arg]. rewrite <- Hfmt'.
    replace (0 <=? rc a) with (negb (rc a <? 0))
      by (destruct (rc a <? 0) eqn:E;
          [apply Z.ltb_lt in E; symmetry; apply Z.leb_gt; lia
          |apply Z.ltb_ge in E; symmetry; apply Z.leb_le; lia]).
    reflexivity. }
  rewrite <- Hok in Hlast.
  destruct okf; cbn [negb andb] in Hi, Hlast.
  2:{ injection Hi as _ <- <-. exists (ev0 ++ evf).
      rewrite Htf, Ht0, <- app_assoc. split; [reflexivity|].
      rewrite accepted_format_app, Hn0, Hlast. reflexivity. }
  destruct (fmt_pixelformat fmt' =? p_fmt p); cbn [negb] in Hi.
  2:{ injection Hi as _ <- <-. exists (ev0 ++ evf).
      rewrite Htf, Ht0, <- app_assoc. split; [reflexivity|].
      rewrite accepted_format_app, Hn0, Hlast. reflexivity. }
  destruct (init_buffers_no_format _ _ _ _ _ _ _ (p_fmt p) Hi)
    as (evb & Htb & Hnb).
  apply init_buffers_failure in Hi. subst p1.
  exists (ev0 ++ evf ++ evb).
  rewrite Htb, Htf, Ht0, <- !app_assoc. split; [reflexivity|].
  rewrite !accepted_format_app, Hn0, Hlast. reflexivity.
Qed.

(** ** The frame rate *)

(** X13: [set_framerate] asks for one frame per [fps]-th of a second,
    again while the answer is EINTR or EAGAIN.  It returns 0 when the
    request fails for good, and otherwise the denominator the device
    left in the structure, cut to 8 bits: the device's answer wins over
    the request, and a device that leaves the structure alone gives back
    the rate asked for. *)
Theorem set_framerate_result d fps ts a rest e tr :
  Forall (fun x => transient x = true) ts ->
  transient a = false ->
  set_framerate d fps (mk_world (ts ++ a :: rest) e tr) =
    Done (if rc a <? 0 then 0
          else u8 (par_denominator (written (rate_hint fps) a)))
         (mk_world rest (fold_left errno_after (ts ++ [a]) e)
            (tr ++ ioctl_events (dev_fd d) VIDIOC_S_PARM (rate_hint fps) e
                     (ts ++ [a]))) /\
  ((rc a <? 0) = false ->
   (forall den, out a = ParmData den ->
      u8 (par_denominator (written (rate_hint fps) a)) = den mod 256) /\
   (out a = NoData -> 0 <= fps < 256 ->
      u8 (par_denominator (written (rate_hint fps) a)) = fps)).
Proof.
  intros Hts Ha. split.
  - unfold set_framerate, bind, dev_ioctl, fueled. cbn [script].
    fold (rate_hint fps).
    rewrite (dev_ioctl_loop_run _ _ _ _ _ _ Hts Ha)
      by (rewrite length_app; simpl; lia).
    destruct (rc a <? 0); reflexivity.
  - intros Hok. unfold written. rewrite Ha. split.
    + intros den Hden. rewrite Hden. cbn. unfold u8, u32.
      apply Z.mod_mod_divide. exists (2 ^ 24). reflexivity.
    + intros Hno Hfps. rewrite Hno. cbn. apply u8_small. exact Hfps.
Qed.

(** ** The counter and the pool *)

Lemma map_buffers_partial n count d w ok d' w' :
  map_buffers n count d w = Done (ok, d') w' ->
  count < 256 ->
  0 <= fr_bufcnt (dev_frame d) <= count ->
  Z.of_nat (length (fr_buf (dev_frame d))) = count ->
  fr_bufcnt (dev_frame d) <= fr_bufcnt (dev_frame d') <= count /\
  take (Z.to_nat (fr_bufcnt (dev_frame d))) (fr_buf (dev_frame d')) =
    take (Z.to_nat (fr_bufcnt (dev_frame d))) (fr_buf (dev_frame d)) /\
  exists evs,
    trace w' = trace w ++ evs /\
    region <$> drop (Z.to_nat (fr_bufcnt (dev_frame d)))
                 (take (Z.to_nat (fr_bufcnt (dev_frame d')))
                    (fr_buf (dev_frame d'))) = mappings evs.
Proof.
  intros Hrun Hcount. revert d w Hrun.
  assert (Hnone : forall (l : list buffer_view) k,
             region <$> drop k (take k l) = []).
  { intros l k. rewrite drop_ge by (rewrite length_take; lia). reflexivity. }
  induction n as [|n IH]; intros d w Hrun Hi Hlen.
  - cbn [map_buffers] in Hrun.
    destruct (fr_bufcnt (dev_frame d) <? count) eqn:Hlt; [discriminate|].
    injection Hrun as _ <- <-. split; [lia|]. split; [reflexivity|].
    exists []. rewrite app_nil_r. split; [reflexivity | apply Hnone].
  - destruct (fr_bufcnt (dev_frame d) <? count) eqn:Hlt.
    2:{ rewrite map_buffers_exit in Hrun by assumption.
        injection Hrun as _ <- <-. split; [lia|]. split; [reflexivity|].
        exists []. rewrite app_nil_r. split; [reflexivity | apply Hnone]. }
    apply Z.ltb_lt in Hlt.
    apply map_buffers_step in Hrun as (okq & buf & w1 & Hq & Hcase);
      [|apply Z.ltb_lt; assumption].
    apply dev_ioctl_trace in Hq as (evq & Htq & Hofq & _).
    set (i := fr_bufcnt (dev_frame d)) in *.
    destruct Hcase as [(_ & _ & -> & ->) | (_ & addr & w2 & Hm & Hcase)].
    { fold i. split; [lia|]. split; [reflexivity|].
      exists evq. split; [exact Htq|].
      rewrite (ioctl_of_mappings _ _ Hofq). apply Hnone. }
    apply v4l2_mmap_inv in Hm.
    destruct Hcase as [(-> & _ & -> & ->) | (Hne & Hrun)].
    { cbn [alter_buf set_frame set_bufs dev_frame fr_bufcnt fr_buf]. fold i.
      split; [lia|]. split; [rewrite !take_alter_ge by lia; reflexivity|].
      eexists. rewrite Hm, Htq, <- app_assoc. split; [reflexivity|].
      rewrite mappings_app, (ioctl_of_mappings _ _ Hofq). cbn.
      apply Hnone. }
    apply IH in Hrun as (Hcnt & Htake & evs & Ht & Hmap).
    2:{ cbn. fold i. rewrite u8_small by lia. lia. }
    2:{ cbn. rewrite !length_alter. exact Hlen. }
    cbn in Hcnt, Htake, Hmap. fold i in Hcnt, Htake, Hmap.
    rewrite u8_small in Hcnt, Htake, Hmap by lia.
    replace (Z.to_nat (i + 1)) with (S (Z.to_nat i)) in Htake, Hmap by lia.
    split; [lia|]. split.
    + assert (Hti : forall l : list buffer_view,
                 take (Z.to_nat i) l
                 = take (Z.to_nat i) (take (S (Z.to_nat i)) l)).
      { intros l. rewrite take_take. f_equal. lia. }
      rewrite (Hti (fr_buf (dev_frame d'))), Htake, <- Hti.
      rewrite !take_alter_ge by lia. reflexivity.
    + exists (evq ++ [EvMmap (vb_length buf) (vb_offset buf) (dev_fd d) addr]
                ++ evs).
      split; [rewrite Ht, Hm, Htq, <- !app_assoc; reflexivity|].
      rewrite !mappings_app, (ioctl_of_mappings _ _ Hofq). cbn [app mappings].
      apply Z.eqb_neq in Hne. rewrite Hne. cbn [app].
      assert (Hi' : take (Z.to_nat (fr_bufcnt (dev_frame d')))
                      (fr_buf (dev_frame d')) !! Z.to_nat i =
                    Some (mk_buffer_view addr (vb_length buf))).
      { rewrite lookup_take_lt by lia.
        rewrite <- (lookup_take_lt _ (S (Z.to_nat i))) by lia.
        rewrite Htake, lookup_take_lt by lia.
        rewrite !list_lookup_alter_eq.
        destruct (lookup_lt_is_Some_2 (fr_buf (dev_frame d)) (Z.to_nat i))
          as [v Hv]; [lia|].
        rewrite Hv. reflexivity. }
      rewrite (drop_S _ _ _ Hi'), fmap_cons, Hmap. reflexivity.
Qed.

Lemma ioctl_not_calloc req evs n ptr :
  Forall (fun ev => ioctl_of req ev = true) evs -> EvCalloc n ptr ∉ evs.
Proof.
  intros Hof Hin. rewrite Forall_forall in Hof.
  specialize (Hof _ Hin). discriminate.
Qed.

Lemma map_call_not_calloc evs n ptr :
  Forall (fun ev => map_call ev = true) evs -> EvCalloc n ptr ∉ evs.
Proof.
  intros Hof Hin. rewrite Forall_forall in Hof.
  specialize (Hof _ Hin). discriminate.
Qed.

(** X14: the bookkeeping of [init_stream].  Once the array has been
    allocated (for fewer than 256 buffers), on every way out of
    [init_stream], good or bad, the counter is the number of buffers
    mapped so far and the first that many slots record exactly those
    mappings, in order.  So [~device] on that device would unmap exactly
    the regions that were mapped, and then close the descriptor. *)
Theorem init_stream_bookkeeping d p w ok d' p' w' evs n ptr :
  init_stream d p w = Done (ok, d', p') w' ->
  trace w' = trace w ++ evs ->
  EvCalloc n ptr ∈ evs -> ptr <> NULL -> n < 256 ->
  0 <= fr_bufcnt (dev_frame d') <= n /\
  Z.of_nat (length (fr_buf (dev_frame d'))) = n /\
  region <$> take (Z.to_nat (fr_bufcnt (dev_frame d'))) (fr_buf (dev_frame d'))
    = mappings evs /\
  forall w2,
    delete_device d' w2 =
    Done tt (mk_world (script w2) (errno w2)
               (trace w2
                ++ ((fun x => EvMunmap x.2 x.1) <$> mappings evs)
                ++ [EvClose (dev_fd d)])).
Proof.
  intros Hi Hevs Hin Hptr Hn.
  destruct (dev_ioctl (dev_fd d) VIDIOC_S_FMT (format_hint p) w)
    as [[okf fmt'] wf| |] eqn:Hf.
  2,3: unfold init_stream in Hi; fold (format_hint p) in Hi;
       unfold bind in Hi; rewrite Hf in Hi; discriminate.
  rewrite (init_stream_negotiated _ _ _ _ _ _ Hf) in Hi.
  apply dev_ioctl_trace in Hf as (evf & Htf & Hoff & _).
  assert (Hstop : wf = w' -> False).
  { intros <-. rewrite Htf in Hevs. apply app_inv_head in Hevs. subst evs.
    exact (ioctl_not_calloc _ _ _ _ Hoff Hin). }
  destruct okf; cbn [negb] in Hi;
    [|injection Hi as _ _ _ Hw; exfalso; exact (Hstop Hw)].
  destruct (fmt_pixelformat fmt' =? p_fmt p); cbn [negb] in Hi;
    [|injection Hi as _ _ _ Hw; exfalso; exact (Hstop Hw)].
  unfold init_buffers in Hi. cbn [negotiated_device set_frame dev_fd] in Hi.
  apply bind_Done_inv in Hi as ([okr req'] & w2 & Hr & Hi).
  apply dev_ioctl_last in Hr
    as (evr & Htr & Hofr & _ & _ & _ & _ & a & _ & _ & Hreq').
  assert (Hffr : Forall (fun ev => releases ev = false
                                   /\ mappings [ev] = []
                                   /\ forall k q, ev <> EvCalloc k q)
                   (evf ++ evr)).
  { apply Forall_app. split; (eapply Forall_impl; [eassumption|]);
      intros ev Hev; destruct ev; cbn in Hev; try discriminate;
      repeat split; discriminate. }
  destruct okr; cbn [negb] in Hi.
  2:{ injection Hi as _ _ _ Hw. exfalso. subst w'.
      rewrite Htr, Htf, <- app_assoc in Hevs. apply app_inv_head in Hevs.
      subst evs. rewrite Forall_forall in Hffr.
      destruct (Hffr _ Hin) as (_ & _ & Hno). exact (Hno _ _ eq_refl). }
  apply bind_Done_inv in Hi as (ptr0 & w3 & Hcal & Hi).
  apply calloc_inv in Hcal.
  set (count := req_count req') in *.
  assert (Hcount : 0 <= count).
  { subst count req'. apply granted_count_nonneg. cbn. unfold BUFFERS_CNT. lia. }
  assert (Hsame : forall l, evs = evf ++ evr ++ EvCalloc count ptr0 :: l ->
            (forall k q, EvCalloc k q ∉ l) -> n = count /\ ptr = ptr0).
  { intros l Hl Hnot. rewrite Hl, app_assoc in Hin.
    apply elem_of_app in Hin as [Hin|Hin].
    - rewrite Forall_forall in Hffr. destruct (Hffr _ Hin) as (_ & _ & Hno).
      exfalso. exact (Hno _ _ eq_refl).
    - apply elem_of_cons in Hin as [Heq|Hin]; [injection Heq; auto|].
      exfalso. exact (Hnot _ _ Hin). }
  destruct (ptr0 =? NULL) eqn:Hnull.
  { injection Hi as _ _ _ Hw. exfalso. subst w'.
    rewrite Hcal, Htr, Htf, <- !app_assoc in Hevs.
    apply app_inv_head in Hevs. symmetry in Hevs.
    destruct (Hsame [] Hevs) as [_ ->]; [intros k q H; inversion H|].
    apply Z.eqb_eq in Hnull. contradiction. }
  apply bind_Done_inv in Hi as ([okm d2] & w4 & Hm & Hi).
  unfold fueled in Hm.
  destruct (map_buffers_frame _ _ _ _ _ _ _ Hm)
    as (Hfd & _ & _ & _ & Hlen & _).
  cbn in Hfd, Hlen. rewrite length_replicate in Hlen.
  destruct (map_buffers_events _ _ _ _ _ _ _ Hm) as (evm & Htm & Hmc).
  assert (Hend : d' = d2 /\
            exists tail, trace w' = trace w4 ++ tail /\
              mappings tail = [] /\ forall k q, EvCalloc k q ∉ tail).
  { destruct okm; cbn [negb] in Hi.
    2:{ injection Hi as _ <- _ <-. split; [reflexivity|].
        exists []. rewrite app_nil_r.
        repeat split; auto. intros k q H. inversion H. }
    apply bind_Done_inv in Hi as (okq & w5 & Hq & Hi).
    apply queue_buffers_trace in Hq as (evq & Htq & Hofq & _).
    destruct okq; cbn [negb] in Hi.
    2:{ injection Hi as _ <- _ <-. split; [reflexivity|].
        exists evq. repeat split; auto.
        - eapply ioctl_of_mappings. exact Hofq.
        - intros k q. eapply ioctl_not_calloc. exact Hofq. }
    apply bind_Done_inv in Hi as (fps & w6 & Hs & Hi).
    apply set_framerate_trace in Hs as (evp & Htp & Hofp & _).
    injection Hi as _ <- _ <-. split; [reflexivity|].
    exists (evq ++ evp). rewrite Htp, Htq, <- app_assoc.
    repeat split; auto.
    - rewrite mappings_app, (ioctl_of_mappings _ _ Hofq),
        (ioctl_of_mappings _ _ Hofp). reflexivity.
    - intros k q Hk. apply elem_of_app in Hk as [Hk|Hk].
      + exact (ioctl_not_calloc _ _ _ _ Hofq Hk).
      + exact (ioctl_not_calloc _ _ _ _ Hofp Hk). }
  destruct Hend as (-> & tail & Htail & Hmtail & Hntail).
  rewrite Htail, Htm, Hcal, Htr, Htf, <- !app_assoc in Hevs.
  apply app_inv_head in Hevs. cbn [app] in Hevs. symmetry in Hevs.
  destruct (Hsame _ Hevs) as [-> _].
  { intros k q Hk. apply elem_of_app in Hk as [Hk|Hk].
    - exact (map_call_not_calloc _ _ _ Hmc Hk).
    - exact (Hntail _ _ Hk). }
  apply map_buffers_partial in Hm as (Hcnt & _ & evm' & Htm' & Hmap);
    [|exact Hn|cbn; lia|cbn; rewrite length_replicate; lia].
  rewrite Htm in Htm'. apply app_inv_head in Htm'. subst evm'.
  cbn in Hcnt, Hmap. rewrite drop_0 in Hmap.
  assert (Hmaps : mappings evs = mappings evm).
  { rewrite Hevs, !mappings_app.
    assert (Hz : mappings (evf ++ evr) = []).
    { clear -Hffr. induction Hffr as [|ev l (_ & Hev & _) _ IH];
        [reflexivity|].
      change (ev :: l) with ([ev] ++ l). rewrite mappings_app, Hev, IH.
      reflexivity. }
    rewrite mappings_app in Hz. apply app_eq_nil in Hz as [-> ->].
    change (EvCalloc count ptr0 :: evm ++ tail)
      with ([EvCalloc count ptr0] ++ evm ++ tail).
    rewrite !mappings_app, Hmtail. cbn. rewrite app_nil_r. reflexivity. }
  split; [lia|]. split; [lia|]. split; [rewrite Hmaps; exact Hmap|].
  intros wx. rewrite delete_device_run by lia.
  rewrite unmap_region, Hmap, Hmaps, Hfd. reflexivity.
Qed.

(** ** Construction, up to the operation that is refused *)

Lemma consumes_bind {A B} (m : M A) (k : A -> M B) xs ys P Q :
  consumes m xs P -> (forall a, P a -> consumes (k a) ys Q) ->
  consumes (bind m k) (xs ++ ys) Q.
Proof.
  intros Hm Hk rest e tr.
  destruct (Hm (ys ++ rest) e tr) as (a & e1 & tr1 & Ha & H1).
  destruct (Hk a Ha rest e1 tr1) as (b & e2 & tr2 & Hb & H2).
  exists b, e2, tr2. split; [exact Hb|].
  rewrite <- app_assoc. unfold bind. rewrite H1. exact H2.
Qed.

Lemma consumes_ret {A} (a : A) (P : A -> Prop) : P a -> consumes (ret a) [] P.
Proof. intros Ha rest e tr. exists a, e, tr. split; [exact Ha|reflexivity]. Qed.

Lemma consumes_end {A} (m : M A) xs P :
  consumes m (xs ++ []) P -> consumes m xs P.
Proof. rewrite app_nil_r. auto. Qed.

Lemma goes_through_settles r :
  goes_through r -> transient r.2 = false /\ (rc r.2 <? 0) = false.
Proof.
  intros [_ H]. assert (Hn : (rc r.2 <? 0) = false) by (apply Z.ltb_ge; lia).
  split; [apply success_not_transient|]; exact Hn.
Qed.

Lemma dev_ioctl_consumes {A} `{IoctlArg A} fd req (arg : A) ts a :
  Forall (fun x => transient x = true) ts -> transient a = false ->
  consumes (dev_ioctl fd req arg) (ts ++ [a])
    (eq (negb (rc a <? 0), written arg a)).
Proof.
  intros Hts Ha rest e tr. do 3 eexists. split; [reflexivity|].
  unfold dev_ioctl, fueled. cbn [script]. rewrite <- app_assoc. cbn [app].
  apply dev_ioctl_loop_run; auto. rewrite length_app. simpl. lia.
Qed.

Lemma dev_ioctl_granted {A} `{IoctlArg A} fd req (arg : A) r :
  goes_through r ->
  consumes (dev_ioctl fd req arg) (answers_of r) (eq (true, written arg r.2)).
Proof.
  intros Hr. destruct (goes_through_settles r Hr) as [Ht Hn].
  destruct Hr as [Hts _].
  pose proof (dev_ioctl_consumes fd req arg r.1 r.2 Hts Ht) as Hc.
  rewrite Hn in Hc. exact Hc.
Qed.

Lemma dev_ioctl_refused {A} `{IoctlArg A} fd req (arg : A) r :
  fails_for_good r ->
  consumes (dev_ioctl fd req arg) (answers_of r)
    (eq (false, written arg r.2)).
Proof.
  intros (Hts & Ht & Hn).
  pose proof (dev_ioctl_consumes fd req arg r.1 r.2 Hts Ht) as Hc.
  replace (rc r.2 <? 0) with true in Hc by (symmetry; apply Z.ltb_lt; lia).
  exact Hc.
Qed.

Lemma u8_le x : 0 <= x -> u8 x <= x.
Proof. intros Hx. unfold u8. apply Z.mod_le; [exact Hx | reflexivity]. Qed.

Lemma u8_add_l x y : u8 (u8 x + y) = u8 (x + y).
Proof. unfold u8. apply Zplus_mod_idemp_l. Qed.

(** The good turns of the mapping loop, one after the other. *)
Lemma map_buffers_turns count maps :
  Forall maps_one maps ->
  forall d n rest e tr,
  0 <= fr_bufcnt (dev_frame d) < 256 ->
  (forall j, (j < length maps)%nat ->
             u8 (fr_bufcnt (dev_frame d) + Z.of_nat j) < count) ->
  (length (concat (turn_answers <$> maps) ++ rest) <= n)%nat ->
  exists d' e' tr',
    map_buffers n count d
      (mk_world (concat (turn_answers <$> maps) ++ rest) e tr)
    = map_buffers (length rest) count d' (mk_world rest e' tr') /\
    dev_fd d' = dev_fd d /\
    fr_bufcnt (dev_frame d')
    = u8 (fr_bufcnt (dev_frame d) + Z.of_nat (length maps)).
Proof.
  induction 1 as [|[q am] maps [Hq Hm] _ IH]; intros d n rest e tr Hi Hlt Hn.
  - exists d, e, tr. cbn [fmap list_fmap concat app length].
    split; [|split; [reflexivity|]].
    + apply map_buffers_fuel; cbn [script]; [exact Hn | lia].
    + rewrite Z.add_0_r, u8_small by exact Hi. reflexivity.
  - cbn [fst snd] in Hq, Hm.
    destruct (goes_through_settles q Hq) as [Ht Hneg]. destruct Hq as [Hts _].
    assert (H0 : fr_bufcnt (dev_frame d) < count).
    { specialize (Hlt 0%nat). cbn [length] in Hlt.
      rewrite Z.add_0_r, u8_small in Hlt by exact Hi. apply Hlt. lia. }
    assert (Hlen : length (concat (turn_answers <$> (q, am) :: maps) ++ rest)
                   = (length q.1 + 2
                      + length (concat (turn_answers <$> maps) ++ rest))%nat).
    { cbn [fmap list_fmap concat]. unfold turn_answers at 1, answers_of.
      cbn [fst snd]. rewrite ?length_app. simpl. rewrite ?length_app. simpl.
      lia. }
    rewrite Hlen in Hn. clear Hlen.
    cbn [fmap list_fmap concat]. unfold turn_answers at 1, answers_of.
    cbn [fst snd]. rewrite <- !app_assoc. cbn [app].
    destruct n as [|n]; [lia|].
    cbn [map_buffers].
    replace (fr_bufcnt (dev_frame d) <? count) with true
      by (symmetry; apply Z.ltb_lt; exact H0).
    unfold bind at 1, dev_ioctl, fueled. cbn [script].
    rewrite (dev_ioctl_loop_run _ _ _ _ _ _ Hts Ht)
      by (rewrite length_app; simpl; lia).
    rewrite Hneg. cbn [negb].
    unfold bind, v4l2_mmap, bind, next_answer, emit, ret.
    cbn [script errno trace].
    replace (rc am =? MAP_FAILED) with false
      by (symmetry; apply Z.eqb_neq; exact Hm).
    match goal with |- context [map_buffers n count ?d1 (mk_world _ ?e1 ?t1)] =>
      destruct (IH d1 n rest e1 t1) as (d' & e' & tr' & Heq & Hfd & Hcnt)
    end.
    + cbn. apply u8_range.
    + intros j Hj. cbn [dev_frame set_frame fr_bufcnt set_bufcnt].
      rewrite u8_add_l.
      replace (fr_bufcnt (dev_frame d) + 1 + Z.of_nat j)
        with (fr_bufcnt (dev_frame d) + Z.of_nat (S j)) by lia.
      apply Hlt. simpl. lia.
    + lia.
    + exists d', e', tr'. split; [exact Heq|]. split.
      * rewrite Hfd. destruct d as [fd f b]. reflexivity.
      * rewrite Hcnt. cbn [dev_frame set_frame fr_bufcnt set_bufcnt].
        cbn [length].
        rewrite u8_add_l. f_equal. lia.
Qed.

Lemma map_buffers_stops count d r n rest e tr :
  fr_bufcnt (dev_frame d) < count -> fails_for_good r ->
  (length (answers_of r ++ rest) <= n)%nat ->
  exists e' tr',
    map_buffers n count d (mk_world (answers_of r ++ rest) e tr)
    = Done (false, d) (mk_world rest e' tr').
Proof.
  intros Hlt Hr Hn. destruct n as [|n].
  { rewrite length_app in Hn. unfold answers_of in Hn.
    rewrite length_app in Hn. simpl in Hn. lia. }
  apply Z.ltb_lt in Hlt. cbn [map_buffers]. rewrite Hlt.
  destruct (dev_ioctl_refused (dev_fd d) VIDIOC_QUERYBUF
              (fresh_buffer (fr_bufcnt (dev_frame d))) r Hr rest e tr)
    as (x & e' & tr' & <- & Hrun).
  exists e', tr'. unfold bind. rewrite Hrun. reflexivity.
Qed.

(** The mapping loop up to a query that is refused. *)
Lemma map_loop_refused count maps r d :
  Forall maps_one maps -> fails_for_good r ->
  fr_bufcnt (dev_frame d) = 0 ->
  Z.of_nat (length maps) < count ->
  consumes (fueled (fun n => map_buffers n count d))
    (concat (turn_answers <$> maps) ++ answers_of r)
    (fun x => x.1 = false).
Proof.
  intros Hmaps Hr Hz Hlt rest e tr. unfold fueled. cbn [script].
  rewrite <- app_assoc.
  destruct (map_buffers_turns count maps Hmaps d
              (length (concat (turn_answers <$> maps) ++ answers_of r ++ rest))
              (answers_of r ++ rest) e tr)
    as (d' & e1 & tr1 & Heq & _ & Hcnt).
  - rewrite Hz. lia.
  - intros j Hj. rewrite Hz, Z.add_0_l.
    pose proof (u8_le (Z.of_nat j)). lia.
  - lia.
  - rewrite Heq.
    destruct (map_buffers_stops count d' r (length (answers_of r ++ rest))
                rest e1 tr1) as (e' & tr' & Hrun); auto.
    + rewrite Hcnt, Hz, Z.add_0_l.
      pose proof (u8_le (Z.of_nat (length maps))). lia.
    + exists (false, d'), e', tr'. split; [reflexivity|exact Hrun].
Qed.

(** The mapping loop run to its end. *)
Lemma map_loop_done count maps d :
  Forall maps_one maps ->
  fr_bufcnt (dev_frame d) = 0 ->
  Z.of_nat (length maps) = count -> count < 256 ->
  consumes (fueled (fun n => map_buffers n count d))
    (concat (turn_answers <$> maps))
    (fun x => x.1 = true /\ dev_fd x.2 = dev_fd d /\
              fr_bufcnt (dev_frame x.2) = count).
Proof.
  intros Hmaps Hz Hlen Hc rest e tr. unfold fueled. cbn [script].
  destruct (map_buffers_turns count maps Hmaps d
              (length (concat (turn_answers <$> maps) ++ rest)) rest e tr)
    as (d' & e1 & tr1 & Heq & Hfd & Hcnt).
  - rewrite Hz. lia.
  - intros j Hj. rewrite Hz, Z.add_0_l, u8_small; lia.
  - lia.
  - rewrite Hz, Z.add_0_l, u8_small in Hcnt by lia.
    exists (true, d'), e1, tr1. split; [cbn; repeat split; auto; lia|].
    rewrite Heq. destruct (length rest); cbn [map_buffers];
      replace (fr_bufcnt (dev_frame d') <? count) with false
        by (symmetry; apply Z.ltb_ge; lia);
      reflexivity.
Qed.

(** The good turns of the enqueue loop. *)
Lemma queue_buffers_turns d queues :
  Forall goes_through queues ->
  forall i n rest e tr,
  0 <= i -> i + Z.of_nat (length queues) <= fr_bufcnt (dev_frame d) ->
  fr_bufcnt (dev_frame d) < 256 ->
  (Z.to_nat (fr_bufcnt (dev_frame d) - i) <= n)%nat ->
  exists e' tr',
    queue_buffers n i d (mk_world (concat (answers_of <$> queues) ++ rest) e tr)
    = queue_buffers
        (Z.to_nat (fr_bufcnt (dev_frame d) - (i + Z.of_nat (length queues))))
        (i + Z.of_nat (length queues)) d (mk_world rest e' tr').
Proof.
  induction 1 as [|q queues Hq _ IH]; intros i n rest e tr Hi Hle Hc Hn.
  - exists e, tr. cbn [fmap list_fmap concat app length].
    rewrite Z.add_0_r. apply queue_buffers_fuel; auto; lia.
  - cbn [length] in Hle.
    cbn [fmap list_fmap concat]. rewrite <- app_assoc.
    destruct n as [|n]; [lia|].
    cbn [queue_buffers].
    replace (i <? fr_bufcnt (dev_frame d)) with true
      by (symmetry; apply Z.ltb_lt; lia).
    destruct (dev_ioctl_granted (dev_fd d) VIDIOC_QBUF (fresh_buffer i) q Hq
                (concat (answers_of <$> queues) ++ rest) e tr)
      as (x & e1 & tr1 & <- & Hrun).
    unfold bind. rewrite Hrun. cbn [negb]. rewrite u8_small by lia.
    destruct (IH (i + 1) n rest e1 tr1) as (e' & tr' & Heq); try lia.
    exists e', tr'. rewrite Heq. cbn [length].
    replace (i + Z.of_nat (S (length queues)))
      with (i + 1 + Z.of_nat (length queues)) by lia.
    reflexivity.
Qed.

Lemma queue_loop_refused d queues r :
  Forall goes_through queues -> fails_for_good r ->
  Z.of_nat (length queues) < fr_bufcnt (dev_frame d) ->
  fr_bufcnt (dev_frame d) < 256 ->
  consumes (queue_buffers (Z.to_nat (fr_bufcnt (dev_frame d))) 0 d)
    (concat (answers_of <$> queues) ++ answers_of r) (eq false).
Proof.
  intros Hq Hr Hlt Hc rest e tr. rewrite <- app_assoc.
  destruct (queue_buffers_turns d queues Hq 0
              (Z.to_nat (fr_bufcnt (dev_frame d))) (answers_of r ++ rest) e tr)
    as (e1 & tr1 & Heq); try lia.
  rewrite !Z.add_0_l in Heq. rewrite Heq.
  set (k := Z.of_nat (length queues)) in *.
  destruct (Z.to_nat (fr_bufcnt (dev_frame d) - k)) as [|n] eqn:Hn; [lia|].
  cbn [queue_buffers].
  replace (k <? fr_bufcnt (dev_frame d)) with true
    by (symmetry; apply Z.ltb_lt; lia).
  destruct (dev_ioctl_refused (dev_fd d) VIDIOC_QBUF (fresh_buffer k) r Hr
              rest e1 tr1) as (x & e' & tr' & <- & Hrun).
  exists false, e', tr'. split; [reflexivity|].
  unfold bind. rewrite Hrun. reflexivity.
Qed.

Lemma queue_loop_done d queues :
  Forall goes_through queues ->
  Z.of_nat (length queues) = fr_bufcnt (dev_frame d) ->
  fr_bufcnt (dev_frame d) < 256 ->
  consumes (queue_buffers (Z.to_nat (fr_bufcnt (dev_frame d))) 0 d)
    (concat (answers_of <$> queues)) (eq true).
Proof.
  intros Hq Hlen Hc rest e tr.
  destruct (queue_buffers_turns d queues Hq 0
              (Z.to_nat (fr_bufcnt (dev_frame d))) rest e tr)
    as (e1 & tr1 & Heq); try lia.
  exists true, e1, tr1. split; [reflexivity|].
  rewrite !Z.add_0_l in Heq. rewrite Heq.
  destruct (Z.to_nat (fr_bufcnt (dev_frame d) - Z.of_nat (length queues)));
    cbn [queue_buffers];
    replace (Z.of_nat (length queues) <? fr_bufcnt (dev_frame d)) with false
      by (symmetry; apply Z.ltb_ge; lia);
    reflexivity.
Qed.

(** A bind whose continuation takes no answer. *)
Ltac then_ret := apply consumes_end; eapply consumes_bind.

Lemma open_camera_consumes path c :
  opens c -> consumes (open_camera path) (opening c) (eq (rc (on_open c))).
Proof.
  intros (Hst & Hchr & Hop) rest e tr. do 3 eexists. split; [reflexivity|].
  unfold open_camera, opening, bind, stat, v4l2_open, bind, next_answer, emit,
    ret.
  cbn [app script errno trace]. fold (st_mode_of (on_stat c)).
  replace (rc (on_stat c) <? 0) with false by (symmetry; apply Z.ltb_ge; lia).
  rewrite Hchr. cbn [negb script errno trace].
  replace (rc (on_open c) <? 0) with false by (symmetry; apply Z.ltb_ge; lia).
  reflexivity.
Qed.

Lemma set_framerate_refused d fps r :
  fails_for_good r -> consumes (set_framerate d fps) (answers_of r) (eq 0).
Proof.
  intros Hr. unfold set_framerate. then_ret.
  - apply dev_ioctl_refused. exact Hr.
  - intros x <-. cbn [negb]. apply consumes_ret. reflexivity.
Qed.

Lemma calloc_consumes n a : consumes (calloc n) [a] (eq (rc a)).
Proof. intros rest e tr. do 3 eexists. split; reflexivity. Qed.

(** [init_buffers] up to the operation that is refused. *)
Lemma init_buffers_stages d p c r :
  fails_for_good r ->
  let n := buffers_granted c in
  let run xs ok fps :=
    consumes (init_buffers d p) (xs ++ answers_of r)
      (fun x => x.1.1 = ok /\ x.2 = mk_params (p_w p) (p_h p) fps (p_fmt p)) in
  run [] false (p_fps p) /\
  (allots c -> Forall maps_one (on_maps c) ->
   (Z.of_nat (length (on_maps c)) < n -> run (mapping c) false (p_fps p)) /\
   (Z.of_nat (length (on_maps c)) = n -> n < 256 ->
    Forall goes_through (on_enqueues c) ->
    (Z.of_nat (length (on_enqueues c)) < n ->
     run (mapping c ++ enqueueing c) false (p_fps p)) /\
    (Z.of_nat (length (on_enqueues c)) = n ->
     run (mapping c ++ enqueueing c) true 0))).
Proof.
  intros Hr n run.
  assert (Hp : p = mk_params (p_w p) (p_h p) (p_fps p) (p_fmt p))
    by (destruct p; reflexivity).
  split.
  { unfold run, init_buffers. cbn [app]. then_ret.
    - apply dev_ioctl_refused. exact Hr.
    - intros x <-. cbn [negb]. apply consumes_ret. auto. }
  intros [Hq Hc] Hmaps.
  assert (Hhead : forall ys Q,
    (forall d1, dev_fd d1 = dev_fd d -> fr_bufcnt (dev_frame d1) = 0 ->
       consumes
         (do (ok, d2) <- fueled (fun k => map_buffers k n d1) ;;
          if negb ok then ret (false, d2, p)
          else
            do ok <- queue_buffers (Z.to_nat (fr_bufcnt (dev_frame d2))) 0 d2 ;;
            if negb ok then ret (false, d2, p)
            else
              do fps <- set_framerate d2 (p_fps p) ;;
              ret (true, d2, mk_params (p_w p) (p_h p) fps (p_fmt p)))
         ys Q) ->
    consumes (init_buffers d p)
      (answers_of (on_request c) ++ [on_calloc c] ++ ys) Q).
  { intros ys Q Hk. unfold init_buffers. eapply consumes_bind.
    - apply dev_ioctl_granted. exact Hq.
    - intros x <-. cbn [negb]. eapply consumes_bind.
      + apply calloc_consumes.
      + intros ptr <-.
        replace (rc (on_calloc c) =? NULL) with false
          by (symmetry; apply Z.eqb_neq; exact Hc).
        apply Hk; reflexivity. }
  split.
  - intros Hlt. unfold run, mapping.
    rewrite <- app_assoc. cbn [app]. apply (Hhead _ _). intros d1 Hfd Hz.
    then_ret.
    + apply map_loop_refused; eauto.
    + intros [ok d2] Hok. cbn [fst] in Hok. subst ok. cbn [negb].
      apply consumes_ret. auto.
  - intros Hlen Hn Hqs. split.
    + intros Hlt. unfold run, mapping.
      rewrite <- !app_assoc. cbn [app]. apply (Hhead _ _). intros d1 Hfd Hz.
      eapply consumes_bind.
      * apply map_loop_done; eauto.
      * intros [ok d2] (Hok & Hfd2 & Hcnt). cbn [fst snd] in Hok, Hfd2, Hcnt.
        subst ok. cbn [negb]. then_ret.
        -- apply queue_loop_refused; auto; rewrite Hcnt; auto.
        -- intros x <-. cbn [negb]. apply consumes_ret. auto.
    + intros Hall. unfold run, mapping.
      rewrite <- !app_assoc. cbn [app]. apply (Hhead _ _). intros d1 Hfd Hz.
      eapply consumes_bind.
      * apply map_loop_done; eauto.
      * intros [ok d2] (Hok & Hfd2 & Hcnt). cbn [fst snd] in Hok, Hfd2, Hcnt.
        subst ok. cbn [negb]. eapply consumes_bind.
        -- apply queue_loop_done; auto; rewrite Hcnt; auto.
        -- intros x <-. cbn [negb]. then_ret.
           ++ apply set_framerate_refused. exact Hr.
           ++ intros fps <-. apply consumes_ret. auto.
Qed.

Lemma consumes_impl {A} (m : M A) xs (P Q : A -> Prop) :
  (forall a, P a -> Q a) -> consumes m xs P -> consumes m xs Q.
Proof.
  intros Himp Hm rest e tr.
  destruct (Hm rest e tr) as (a & e' & tr' & Ha & Hrun). eauto 6.
Qed.

(** C2 (amended): a control operation of [create_stream] that fails for
    good (not -1 with EINTR or EAGAIN) makes it return none when the
    operation is the format, buffer-request, buffer-query or enqueue
    request, and nothing more is asked of the device.  The frame-rate
    request is the exception: when it fails for good, [create_stream]
    still returns the stream, and the params' frame rate is 0.

    The environment [c] answers the construction call by call, and [r]
    is the exchange that ends with the refusal.  Stage by stage: the
    device is open and the format request is refused; the format is
    negotiated and the buffer request is refused; the array is allotted,
    fewer buffers are mapped than were granted and the next query is
    refused; all are mapped, fewer are enqueued and the next enqueue is
    refused; all are enqueued and the frame-rate request is refused.
    The last clause reads the same off the trace of any run that
    returns. *)
Theorem control_failure_aborts path p indet c r :
  opens c -> fails_for_good r ->
  let create pre res :=
    consumes (create_stream (Some path) p indet) (pre ++ answers_of r) res in
  let p1 := negotiated_params p (format_answer p c) in
  let n := buffers_granted c in
  create (opening c) (eq (None, p)) /\
  (negotiates p c ->
   create (opening c ++ negotiation c) (eq (None, p1)) /\
   (allots c -> Forall maps_one (on_maps c) ->
    (Z.of_nat (length (on_maps c)) < n ->
     create (opening c ++ negotiation c ++ mapping c) (eq (None, p1))) /\
    (Z.of_nat (length (on_maps c)) = n -> n < 256 ->
     Forall goes_through (on_enqueues c) ->
     (Z.of_nat (length (on_enqueues c)) < n ->
      create (opening c ++ negotiation c ++ mapping c ++ enqueueing c)
        (eq (None, p1))) /\
     (Z.of_nat (length (on_enqueues c)) = n ->
      create (opening c ++ negotiation c ++ mapping c ++ enqueueing c)
        (fun x => created x.1 = true /\
                  x.2 = mk_params (p_w p1) (p_h p1) 0 (p_fmt p1)))))) /\
  forall w res p' w',
    create_stream (Some path) p indet w = Done (res, p') w' ->
    exists evs,
      trace w' = trace w ++ evs /\
      forall ev, ev ∈ evs -> hard_failure ev = true ->
        if ioctl_of VIDIOC_S_PARM ev
        then created res = true /\ p_fps p' = 0
        else res = None.
Proof.
  intros Hopen Hr create p1 n.
  assert (Hfd : (rc (on_open c) <? 0) = false)
    by (apply Z.ltb_ge; apply Hopen).
  assert (Hhead : forall ys Q,
    consumes (init_stream (new_device (rc (on_open c)) indet) p) ys
      (fun x => Q (if negb x.1.1 then None else Some (mk_stream x.1.2), x.2)) ->
    consumes (create_stream (Some path) p indet) (opening c ++ ys) Q).
  { intros ys Q Hk. unfold create_stream. eapply consumes_bind.
    - apply open_camera_consumes. exact Hopen.
    - intros fd <-. rewrite Hfd. apply consumes_end. eapply consumes_bind.
      + exact Hk.
      + intros [[ok d'] p'] HQ. cbn [fst snd] in HQ.
        destruct ok; cbn [negb] in *; apply consumes_ret; exact HQ. }
  assert (Hbufs : negotiates p c -> forall ys ok fps (Q : _ -> Prop),
    (forall d', Q (ok, d', mk_params (p_w p1) (p_h p1) fps (p_fmt p1))) ->
    consumes
      (init_buffers
         (negotiated_device (new_device (rc (on_open c)) indet)
            (format_answer p c)) p1) ys
      (fun x => x.1.1 = ok /\
                x.2 = mk_params (p_w p1) (p_h p1) fps (p_fmt p1)) ->
    consumes (init_stream (new_device (rc (on_open c)) indet) p)
      (negotiation c ++ ys) Q).
  { intros [Hf Hpf] ys ok fps Q HQ Hk. unfold init_stream.
    eapply consumes_bind.
    - apply dev_ioctl_granted. exact Hf.
    - intros x <-. cbn [negb]. fold (format_hint p). fold (format_answer p c).
      rewrite Hpf, Z.eqb_refl. cbn [negb].
      eapply consumes_impl; [|exact Hk].
      intros [[ok' d'] p'] [Hok Hp']. cbn [fst snd] in Hok, Hp'.
      subst ok' p'. apply HQ. }
  split; [|split].
  - unfold create. apply Hhead. unfold init_stream. then_ret.
    + apply dev_ioctl_refused. exact Hr.
    + intros x <-. cbn [negb]. apply consumes_ret. reflexivity.
  - intros Hneg.
    destruct (init_buffers_stages
                (negotiated_device (new_device (rc (on_open c)) indet)
                   (format_answer p c)) p1 c r Hr) as [H1 H2].
    assert (Hp1 : mk_params (p_w p1) (p_h p1) (p_fps p1) (p_fmt p1) = p1)
      by reflexivity.
    split.
    { unfold create. rewrite <- app_assoc. apply Hhead.
      eapply (Hbufs Hneg _ false (p_fps p1)); [|exact H1].
      intros d'. cbn [fst snd negb]. rewrite Hp1. reflexivity. }
    intros Hall Hmaps. destruct (H2 Hall Hmaps) as [H3 H4]. split.
    { intros Hlt. unfold create. rewrite <- !app_assoc. apply Hhead.
      eapply (Hbufs Hneg _ false (p_fps p1)); [|exact (H3 Hlt)].
      intros d'. cbn [fst snd negb]. rewrite Hp1. reflexivity. }
    intros Hlen Hn Hqs. destruct (H4 Hlen Hn Hqs) as [H5 H6]. split.
    { intros Hlt. unfold create. rewrite <- !app_assoc. apply Hhead.
      eapply (Hbufs Hneg _ false (p_fps p1)).
      - intros d'. cbn [fst snd negb]. rewrite Hp1. reflexivity.
      - rewrite app_assoc. exact (H5 Hlt). }
    { intros Hlt. unfold create. rewrite <- !app_assoc. apply Hhead.
      eapply (Hbufs Hneg _ true 0).
      - intros d'. cbn [fst snd negb]. split; reflexivity.
      - rewrite app_assoc. exact (H6 Hlt). }
  - intros w res p' w' Hc.
    apply create_stream_spec in Hc as (_ & evs & Ht & [_ Hlog] & _).
    exists evs. split; [exact Ht|]. intros ev Hin Hhard.
    specialize (Hlog ev Hin Hhard).
    destruct (ioctl_of VIDIOC_S_PARM ev); [exact Hlog|].
    destruct res; [discriminate | reflexivity].
Qed.

(** * main.cpp *)

(** ** Decimal numbers *)

Lemma string_app_cons c (s t : string) :
  String c s +:+ t = String c (s +:+ t).
Proof. reflexivity. Qed.

Lemma string_app_empty (s : string) : s +:+ "" = s.
Proof.
  induction s as [|c s IH]; [reflexivity|].
  rewrite string_app_cons, IH. reflexivity.
Qed.

Lemma string_app_assoc (s t u : string) : (s +:+ t) +:+ u = s +:+ t +:+ u.
Proof.
  induction s as [|c s IH]; [reflexivity|].
  rewrite !string_app_cons, IH. reflexivity.
Qed.

Lemma all_digits_app s t :
  all_digits (s +:+ t) = all_digits s && all_digits t.
Proof.
  induction s as [|c s IH]; [reflexivity|].
  rewrite string_app_cons. cbn [all_digits]. rewrite IH.
  rewrite andb_assoc. reflexivity.
Qed.

Lemma pretty_N_char_digit x :
  (x < 10)%N ->
  isdigit (pretty_N_char x) = true /\
  char_code (pretty_N_char x) - 48 = Z.of_N x.
Proof.
  intros Hx.
  assert (Hcase : (x = 0 \/ x = 1 \/ x = 2 \/ x = 3 \/ x = 4 \/ x = 5 \/
                   x = 6 \/ x = 7 \/ x = 8 \/ x = 9)%N) by lia.
  repeat destruct Hcase as [->|Hcase]; try subst x; split; reflexivity.
Qed.

Lemma decimal_stop acc s : ends_number s = true -> decimal acc s = acc.
Proof.
  destruct s as [|c s]; [reflexivity|]. cbn.
  destruct (isdigit c); [discriminate | reflexivity].
Qed.

(** What [pretty_N_go] puts in front of a string: digits, whose value is
    the number. *)
Lemma pretty_N_go_digits (x : N) :
  exists ds, all_digits ds = true /\
             ((0 < x)%N -> ds <> "") /\
             (forall s, pretty_N_go x s = ds +:+ s) /\
             forall s, decimal 0 (ds +:+ s) = decimal (Z.of_N x) s.
Proof.
  induction (N.lt_wf_0 x) as [x _ IH].
  destruct (decide (0 < x)%N) as [Hpos|Hzero].
  2:{ assert (x = 0%N) as -> by lia. exists "".
      repeat split; try reflexivity. lia. }
  destruct (IH (x `div` 10)%N) as (ds & Hds & _ & Hgo & Hval).
  { apply N.div_lt; lia. }
  destruct (pretty_N_char_digit (x `mod` 10)%N) as [Hdig Hcode].
  { apply N.mod_lt. lia. }
  exists (ds +:+ String (pretty_N_char (x `mod` 10)) "").
  repeat split.
  - rewrite all_digits_app, Hds. cbn. rewrite Hdig. reflexivity.
  - intros _. destruct ds; discriminate.
  - intros s. rewrite pretty_N_go_step, Hgo, string_app_assoc by assumption.
    reflexivity.
  - intros s. rewrite string_app_assoc, Hval, string_app_cons.
    cbn [decimal]. rewrite Hdig, Hcode. f_equal.
    rewrite (N.div_mod x 10) at 3 by lia. lia.
Qed.

Lemma pretty_N_digits (n : N) :
  all_digits (pretty n) = true /\ pretty n <> "" /\
  forall s, decimal 0 (pretty n +:+ s) = decimal (Z.of_N n) s.
Proof.
  unfold pretty, pretty_N. destruct (decide (n = 0%N)) as [->|Hn].
  { repeat split. discriminate. }
  destruct (pretty_N_go_digits n) as (ds & Hds & Hne & Hgo & Hval).
  rewrite Hgo, string_app_empty. repeat split; [assumption| |assumption].
  apply Hne. lia.
Qed.

Lemma digit_is_plain c s :
  isdigit c = true ->
  strtol10 (String c s) = decimal 0 (String c s).
Proof.
  destruct c as [[] [] [] [] [] [] [] []]; intros H;
    try discriminate H; reflexivity.
Qed.

Lemma strtol10_pretty (n : N) s :
  ends_number s = true -> strtol10 (pretty n +:+ s) = Z.of_N n.
Proof.
  intros Hs. destruct (pretty_N_digits n) as (Hds & Hne & Hval).
  rewrite <- (decimal_stop (Z.of_N n) s Hs), <- Hval.
  destruct (pretty n) as [|c ds]; [contradiction|].
  cbn in Hds. apply andb_true_iff in Hds as [Hc _].
  apply digit_is_plain. exact Hc.
Qed.

Lemma atoi_pretty (n : N) s :
  ends_number s = true -> Z.of_N n <= INT_MAX ->
  atoi (pretty n +:+ s) = Some (Z.of_N n).
Proof.
  intros Hs Hn. unfold atoi. rewrite strtol10_pretty by assumption.
  assert (INT_MIN <= Z.of_N n) by (unfold INT_MIN; lia).
  destruct (INT_MIN <=? Z.of_N n) eqn:E1; [|lia].
  destruct (Z.of_N n <=? INT_MAX) eqn:E2; [reflexivity | lia].
Qed.

Lemma atoi_pretty_end (n : N) :
  Z.of_N n <= INT_MAX -> atoi (pretty n) = Some (Z.of_N n).
Proof.
  intros Hn. rewrite <- (string_app_empty (pretty n)).
  apply atoi_pretty; [reflexivity | exact Hn].
Qed.

Lemma strchr_past_digits ds c r :
  all_digits ds = true -> isdigit c = false ->
  strchr (ds +:+ String c r) c = Some (String c r).
Proof.
  intros Hds Hc.
  induction ds as [|a ds IH]; [|rewrite string_app_cons]; cbn [strchr].
  - change ("" +:+ String c r) with (String c r). cbn [strchr].
    rewrite Ascii.eqb_refl. reflexivity.
  - cbn in Hds. apply andb_true_iff in Hds as [Ha Hds].
    destruct (Ascii.eqb a c) eqn:E; [|exact (IH Hds)].
    apply Ascii.eqb_eq in E. congruence.
Qed.

Lemma strchr_in_digits ds c :
  all_digits ds = true -> isdigit c = false -> c <> zero ->
  strchr ds c = None.
Proof.
  intros Hds Hc Hz. induction ds as [|a ds IH]; cbn.
  - destruct (Ascii.eqb c zero) eqn:E; [|reflexivity].
    apply Ascii.eqb_eq in E. contradiction.
  - cbn in Hds. apply andb_true_iff in Hds as [Ha Hds].
    destruct (Ascii.eqb a c) eqn:E; [|exact (IH Hds)].
    apply Ascii.eqb_eq in E. congruence.
Qed.

(** X15: the geometry string of [-p].  A string [W x H @ F] of three
    decimal numbers (each an [int]) sets the width and the height to W
    and H cut to 16 bits and the frame rate to F cut to 8 bits; without
    the [@ F] the frame rate is left as it was.  The pixel format is not
    touched. *)
Theorem params_option_decimal (w h f : N) (cam : params) :
  Z.of_N w <= INT_MAX -> Z.of_N h <= INT_MAX -> Z.of_N f <= INT_MAX ->
  params_option (Some (pretty w +:+ "x" +:+ pretty h +:+ "@" +:+ pretty f))
                cam
  = Goes (pretty w +:+ "x" +:+ pretty h +:+ "@" +:+ pretty f,
          mk_params (u16 (Z.of_N w)) (u16 (Z.of_N h)) (u8 (Z.of_N f))
            (p_fmt cam)) /\
  params_option (Some (pretty w +:+ "x" +:+ pretty h)) cam
  = Goes (pretty w +:+ "x" +:+ pretty h,
          mk_params (u16 (Z.of_N w)) (u16 (Z.of_N h)) (p_fps cam)
            (p_fmt cam)).
Proof.
  intros Hw Hh Hf.
  destruct (pretty_N_digits w) as (Hdw & _ & _).
  destruct (pretty_N_digits h) as (Hdh & _ & _).
  split; unfold params_option.
  - change ("x" +:+ pretty h +:+ "@" +:+ pretty f)
      with (String "x" (pretty h +:+ String "@" (pretty f))).
    rewrite strchr_past_digits by (assumption || reflexivity).
    cbn [strchr next_char].
    change (Ascii.eqb "x" "@") with false. cbv iota.
    rewrite strchr_past_digits by (assumption || reflexivity).
    cbn [next_char].
    rewrite atoi_pretty_end, !atoi_pretty by (assumption || reflexivity).
    reflexivity.
  - change ("x" +:+ pretty h) with (String "x" (pretty h)).
    rewrite strchr_past_digits by (assumption || reflexivity).
    cbn [strchr next_char].
    change (Ascii.eqb "x" "@") with false. cbv iota.
    rewrite strchr_in_digits by (assumption || reflexivity || discriminate).
    rewrite atoi_pretty_end, !atoi_pretty by (assumption || reflexivity).
    reflexivity.
Qed.

(** ** The argument loop *)

Lemma params_option_cases arg cam :
  params_option arg cam = Quits 1 \/
  params_option arg cam = Wild \/
  exists g cam', arg = Some g /\ p_fmt cam' = p_fmt cam /\
                 params_option arg cam = Goes (g, cam').
Proof.
  unfold params_option.
  destruct arg as [geom_w|]; [|auto].
  destruct (strchr geom_w "x") as [geom_h|]; [|auto].
  destruct (strchr geom_h "@") as [fps|].
  - destruct (atoi (next_char fps)); [|auto].
    destruct (atoi geom_w); [|auto].
    destruct (atoi (next_char geom_h)); [|auto].
    right. right. do 2 eexists.
    split; [reflexivity|]. split; [|reflexivity]. reflexivity.
  - destruct (atoi geom_w); [|auto].
    destruct (atoi (next_char geom_h)); [|auto].
    right. right. do 2 eexists.
    split; [reflexivity|]. split; [|reflexivity]. reflexivity.
Qed.

Lemma parse_args_done fuel argv i g ctx :
  (i <? Z.of_nat (length argv)) = false ->
  parse_args fuel argv i g ctx = Goes (g, ctx).
Proof. intros H. destruct fuel; cbn [parse_args]; rewrite H; reflexivity. Qed.

(** More fuel does not change a run that ended. *)
Lemma parse_args_more fuel k argv i g ctx :
  parse_args fuel argv i g ctx <> Tired ->
  parse_args (fuel + k) argv i g ctx = parse_args fuel argv i g ctx.
Proof.
  revert i g ctx. induction fuel as [|fuel IH]; intros i g ctx Hne.
  - destruct (i <? Z.of_nat (length argv)) eqn:Hi.
    + cbn [parse_args] in Hne. rewrite Hi in Hne. contradiction.
    + rewrite !parse_args_done by exact Hi. reflexivity.
  - change (S fuel + k)%nat with (S (fuel + k)).
    cbn [parse_args] in Hne |- *.
    destruct (i <? Z.of_nat (length argv)); cbn [negb] in *; [|reflexivity].
    destruct (argv !! Z.to_nat i) as [arg|]; [|reflexivity].
    destruct (opt arg "-d" "--dev"); [apply IH; exact Hne|].
    destruct (opt arg "-p" "--params").
    { destruct (params_option _ _) as [[g' cam]| | |]; try reflexivity.
      apply IH; exact Hne. }
    destruct (opt arg "-j" "--jpeg"); [apply IH; exact Hne|].
    destruct (opt arg "-f" "--fps"); [apply IH; exact Hne|].
    destruct (opt arg "-h" "--help"); [reflexivity|].
    apply IH; exact Hne.
Qed.

(** With fewer than 255 arguments the index never wraps, and the loop
    ends within as many rounds as there are arguments left. *)
Lemma parse_args_ends fuel argv i g ctx :
  (length argv < 255)%nat -> 0 <= i ->
  Z.of_nat (length argv) - i <= Z.of_nat fuel ->
  parse_args fuel argv i g ctx <> Tired.
Proof.
  intros Hargc. revert i g ctx.
  induction fuel as [|fuel IH]; intros i g ctx Hi Hfuel.
  - rewrite parse_args_done by lia. discriminate.
  - cbn [parse_args].
    destruct (i <? Z.of_nat (length argv)) eqn:Hlt; cbn [negb];
      [|discriminate].
    apply Z.ltb_lt in Hlt.
    assert (H1 : u8 (i + 1) = i + 1)
      by (unfold u8; apply Z.mod_small; lia).
    assert (H2 : u8 (i + 1 + 1) = i + 2)
      by (unfold u8; rewrite Z.mod_small; lia).
    rewrite !H1, !H2.
    destruct (argv !! Z.to_nat i) as [arg|]; [|discriminate].
    destruct (opt arg "-d" "--dev"); [apply IH; lia|].
    destruct (opt arg "-p" "--params").
    { destruct (params_option_cases (argv !! Z.to_nat (i + 1)) (ctx_cam ctx))
        as [->|[->|(g' & cam' & _ & _ & ->)]]; try discriminate.
      apply IH; lia. }
    destruct (opt arg "-j" "--jpeg"); [apply IH; lia|].
    destruct (opt arg "-f" "--fps"); [apply IH; lia|].
    destruct (opt arg "-h" "--help"); [discriminate|].
    apply IH; lia.
Qed.

(** The only exit status of the loop is 1. *)
Lemma parse_args_quits fuel argv i g ctx c :
  parse_args fuel argv i g ctx = Quits c -> c = 1.
Proof.
  revert i g ctx. induction fuel as [|fuel IH]; intros i g ctx;
    cbn [parse_args];
    (destruct (i <? Z.of_nat (length argv)); cbn [negb]; [|discriminate]);
    [discriminate|].
  destruct (argv !! Z.to_nat i) as [arg|]; [|discriminate].
  destruct (opt arg "-d" "--dev"); [apply IH|].
  destruct (opt arg "-p" "--params").
  { destruct (params_option_cases (argv !! Z.to_nat (u8 (i + 1)))
                (ctx_cam ctx))
      as [->|[->|(g' & cam' & _ & _ & ->)]]; try discriminate.
    - intros [= <-]. reflexivity.
    - apply IH. }
  destruct (opt arg "-j" "--jpeg"); [apply IH|].
  destruct (opt arg "-f" "--fps"); [apply IH|].
  destruct (opt arg "-h" "--help"); [intros [= <-]; reflexivity|].
  apply IH.
Qed.

(** With 256 arguments or more the index, 8 bits wide, stays below
    [argc]: the loop is never left by its condition. *)
Lemma parse_args_never_leaves fuel argv i g ctx r :
  (256 <= length argv)%nat -> 0 <= i < 256 ->
  parse_args fuel argv i g ctx <> Goes r.
Proof.
  intros Hargc. revert i g ctx.
  assert (Hu : forall x, 0 <= u8 x < 256) by (intros; apply u8_range).
  induction fuel as [|fuel IH]; intros i g ctx Hi; cbn [parse_args];
    (destruct (i <? Z.of_nat (length argv)) eqn:Hlt; cbn [negb];
     [|apply Z.ltb_ge in Hlt; lia]);
    [discriminate|].
  destruct (argv !! Z.to_nat i) as [arg|]; [|discriminate].
  destruct (opt arg "-d" "--dev"); [apply IH, Hu|].
  destruct (opt arg "-p" "--params").
  { destruct (params_option _ _) as [[g' cam]| | |]; try discriminate.
    apply IH, Hu. }
  destruct (opt arg "-j" "--jpeg"); [apply IH, Hu|].
  destruct (opt arg "-f" "--fps"); [apply IH, Hu|].
  destruct (opt arg "-h" "--help"); [discriminate|].
  apply IH, Hu.
Qed.

(** What the loop leaves when it is left: the fields it does not assign
    are as before, the pixel format is as before or MJPEG, the device
    path is as before, null, or one of the arguments, and [geom_w] is as
    before or the argument of a [-p]. *)
Lemma parse_args_goes fuel argv i g ctx g' ctx' :
  parse_args fuel argv i g ctx = Goes (g', ctx') ->
  ctx_fps ctx' = ctx_fps ctx /\
  ctx_stream ctx' = ctx_stream ctx /\
  (p_fmt (ctx_cam ctx') = p_fmt (ctx_cam ctx) \/
   p_fmt (ctx_cam ctx') = V4L2_PIX_FMT_MJPEG) /\
  (ctx_dev ctx' = ctx_dev ctx \/ ctx_dev ctx' = None \/
   exists path, path ∈ argv /\ ctx_dev ctx' = Some path) /\
  (g' = g \/
   exists a geom, a ∈ argv /\ is_params_option a = true /\
                  geom ∈ argv /\ g' = Some geom).
Proof.
  revert i g ctx. induction fuel as [|fuel IH]; intros i g ctx;
    cbn [parse_args];
    (destruct (i <? Z.of_nat (length argv)); cbn [negb];
     [|intros [= <- <-]; repeat split; auto]);
    [discriminate|].
  destruct (argv !! Z.to_nat i) as [arg|] eqn:Harg; [|discriminate].
  apply list_elem_of_lookup_2 in Harg.
  destruct (opt arg "-d" "--dev").
  { intros Hrun. apply IH in Hrun as (Hf & Hs & Hfmt & Hdev & Hg).
    repeat split; try assumption. cbn [set_ctx_dev ctx_dev] in Hdev.
    destruct Hdev as [Hdev|[Hdev|Hdev]]; auto.
    destruct (argv !! Z.to_nat (u8 (i + 1))) as [path|] eqn:Hp; auto.
    apply list_elem_of_lookup_2 in Hp. right. right. eauto. }
  destruct (opt arg "-p" "--params") eqn:Hopt.
  { destruct (params_option_cases (argv !! Z.to_nat (u8 (i + 1)))
                (ctx_cam ctx))
      as [->|[->|(g1 & cam' & Hg1 & Hfmt1 & ->)]]; try discriminate.
    apply list_elem_of_lookup_2 in Hg1.
    intros Hrun. apply IH in Hrun as (Hf & Hs & Hfmt & Hdev & Hg).
    cbn [set_cam ctx_cam ctx_dev ctx_fps ctx_stream] in *.
    rewrite Hfmt1 in Hfmt. repeat split; try assumption.
    destruct Hg as [->|Hg]; [|auto]. right. eauto 6. }
  destruct (opt arg "-j" "--jpeg").
  { intros Hrun. apply IH in Hrun as (Hf & Hs & Hfmt & Hdev & Hg).
    cbn [set_cam set_fmt ctx_cam p_fmt ctx_dev ctx_fps ctx_stream] in *.
    repeat split; try assumption. destruct Hfmt as [->| ->]; auto. }
  destruct (opt arg "-f" "--fps").
  { intros Hrun. apply IH in Hrun as (Hf & Hs & Hfmt & Hdev & Hg).
    repeat split; assumption. }
  destruct (opt arg "-h" "--help"); [discriminate|].
  apply IH.
Qed.

(** ** [init_context] *)

Lemma init_context_unfold fuel argv ctx indet :
  init_context fuel argv ctx indet =
  match parse_args fuel argv 0 None
          (set_ctx_dev
             (set_ctx_fps
                (set_cam ctx (set_fmt (ctx_cam ctx) V4L2_PIX_FMT_RGB24)) 30)
             None) with
  | Tired => ret Spins
  | Wild => undefined
  | Quits c => ret (Exits c)
  | Goes (_, ctx) =>
      match ctx_dev ctx with
      | None => ret (Exits 1)
      | Some dev => open_stream ctx dev indet
      end
  end.
Proof. reflexivity. Qed.

(** Without [-p] the loop assigns neither [geom_w] nor the width, the
    height and the frame rate, and reads no number. *)
Lemma parse_args_plain fuel argv i g ctx :
  Forall (fun a => is_params_option a = false) argv ->
  0 <= i ->
  match parse_args fuel argv i g ctx with
  | Goes (g', ctx') =>
      g' = g /\
      p_w (ctx_cam ctx') = p_w (ctx_cam ctx) /\
      p_h (ctx_cam ctx') = p_h (ctx_cam ctx) /\
      p_fps (ctx_cam ctx') = p_fps (ctx_cam ctx)
  | Wild => False
  | _ => True
  end.
Proof.
  intros Hnone. revert i g ctx.
  assert (Hu : forall x, 0 <= u8 x) by (intros; apply u8_range).
  induction fuel as [|fuel IH]; intros i g ctx Hi; cbn [parse_args];
    (destruct (i <? Z.of_nat (length argv)) eqn:Hlt; cbn [negb];
     [|auto]); [exact I|].
  destruct (argv !! Z.to_nat i) as [arg|] eqn:Harg.
  2:{ apply lookup_ge_None in Harg. apply Z.ltb_lt in Hlt. lia. }
  apply list_elem_of_lookup_2 in Harg.
  rewrite Forall_forall in Hnone. specialize (Hnone _ Harg).
  unfold is_params_option in Hnone.
  destruct (opt arg "-d" "--dev").
  { specialize (IH (u8 (u8 (i + 1) + 1)) g
                  (set_ctx_dev ctx (argv !! Z.to_nat (u8 (i + 1)))) (Hu _)).
    destruct (parse_args fuel argv _ g _) as [[g' c']| | |]; auto. }
  rewrite Hnone.
  destruct (opt arg "-j" "--jpeg").
  { specialize (IH (u8 (i + 1)) g
                  (set_cam ctx (set_fmt (ctx_cam ctx) V4L2_PIX_FMT_MJPEG))
                  (Hu _)).
    destruct (parse_args fuel argv _ g _) as [[g' c']| | |]; auto. }
  destruct (opt arg "-f" "--fps").
  { specialize (IH (u8 (i + 1)) g (set_print_fps ctx true) (Hu _)).
    destruct (parse_args fuel argv _ g _) as [[g' c']| | |]; auto. }
  destruct (opt arg "-h" "--help"); [exact I|].
  apply IH, Hu.
Qed.

(** X16: without an option [-p] (and with fewer than 255 arguments)
    [init_context] either exits with status 1 before any call (a help
    option, or no device named), or goes on to [create_stream] with the
    width, the height and the frame rate the context held on entry:
    nothing assigns them, and [main] passes a context it never
    initialised.  The device path is then one of the arguments and the
    pixel format RGB24 or MJPEG. *)
Theorem init_context_without_params fuel argv ctx indet w :
  Forall (fun a => is_params_option a = false) argv ->
  (length argv < 255)%nat -> (length argv <= fuel)%nat ->
  init_context fuel argv ctx indet w = Done (Exits 1) w \/
  exists dev fmt pf,
    dev ∈ argv /\
    (fmt = V4L2_PIX_FMT_RGB24 \/ fmt = V4L2_PIX_FMT_MJPEG) /\
    init_context fuel argv ctx indet w =
    open_stream
      (mk_context 30 pf (Some dev)
         (mk_params (p_w (ctx_cam ctx)) (p_h (ctx_cam ctx))
            (p_fps (ctx_cam ctx)) fmt)
         (ctx_stream ctx))
      dev indet w.
Proof.
  intros Hnone Hargc Hfuel. rewrite init_context_unfold.
  match goal with |- context [parse_args fuel argv 0 None ?c] =>
    set (ctx0 := c) end.
  pose proof (parse_args_ends fuel argv 0 None ctx0 Hargc) as Hends.
  pose proof (parse_args_plain fuel argv 0 None ctx0 Hnone) as Hplain.
  destruct (parse_args fuel argv 0 None ctx0) as [[g c1]|c| |] eqn:Hp.
  - destruct Hplain as (_ & Hw & Hh & Hr); [lia|].
    apply parse_args_goes in Hp as (Hfps & Hstr & Hfmt & Hdev & _).
    subst ctx0.
    cbn [set_ctx_dev set_ctx_fps set_cam set_fmt ctx_fps ctx_stream ctx_cam
         ctx_dev p_fmt p_w p_h p_fps] in *.
    destruct c1 as [f pf dev [pw ph pr pfmt] str].
    cbn [ctx_fps ctx_stream ctx_cam ctx_dev p_fmt p_w p_h p_fps] in *.
    subst f str pw ph pr.
    destruct dev as [dev|]; [|left; reflexivity].
    right. exists dev, pfmt, pf. split; [|split; [|reflexivity]].
    + destruct Hdev as [Hdev|[Hdev|(path & Hin & Hdev)]]; try discriminate.
      injection Hdev as <-. exact Hin.
    + destruct Hfmt as [Hfmt|Hfmt]; auto.
  - apply parse_args_quits in Hp as ->. left. reflexivity.
  - destruct Hplain; lia.
  - exfalso. apply Hends; [lia | lia | reflexivity].
Qed.

Lemma open_stream_ends ctx dev indet w :
  spinning (open_stream ctx dev indet w) = false.
Proof.
  unfold open_stream, bind, assign_stream.
  destruct (create_stream (Some dev) (ctx_cam ctx) indet w)
    as [[s cam] w1| |]; try reflexivity.
  cbn [set_cam ctx_stream].
  destruct (ctx_stream ctx) as [old|].
  - unfold bind. destruct (delete_stream old w1) as [[] w2| |];
      try reflexivity.
    cbn [ret]. destruct s as [s|]; [|reflexivity].
    destruct (start s w2) as [[] w3| |]; reflexivity.
  - cbn [ret bind]. destruct s as [s|]; [|reflexivity].
    destruct (start s w1) as [[] w3| |]; reflexivity.
Qed.

(** X17: the argument loop ends when there are fewer than 255 arguments:
    with fuel for one round per argument [init_context] does not end
    with the loop still going, and more fuel changes nothing. *)
Theorem init_context_loop_ends fuel argv ctx indet w :
  (length argv < 255)%nat -> (length argv <= fuel)%nat ->
  init_context fuel argv ctx indet w
  = init_context (length argv) argv ctx indet w /\
  spinning (init_context fuel argv ctx indet w) = false.
Proof.
  intros Hargc Hfuel. rewrite !init_context_unfold.
  match goal with |- context [parse_args fuel argv 0 None ?c] =>
    set (ctx0 := c) end.
  assert (Hends : parse_args (length argv) argv 0 None ctx0 <> Tired)
    by (apply parse_args_ends; lia).
  replace fuel with (length argv + (fuel - length argv))%nat by lia.
  rewrite parse_args_more by exact Hends.
  split; [reflexivity|].
  destruct (parse_args (length argv) argv 0 None ctx0) as [[g c1]|c| |];
    try reflexivity; [|contradiction].
  destruct (ctx_dev c1) as [dev|]; [|reflexivity].
  apply open_stream_ends.
Qed.

(** X18: with 256 arguments or more the index of the loop, an 8-bit
    counter, wraps before it reaches [argc]: [init_context] never gets
    past the loop.  It makes no call; the program exits with status 1 (a
    help option or a malformed [-p]), the behaviour is undefined (a
    number of [-p] that is no [int]), or the loop goes on however much
    fuel it is given. *)
Theorem init_context_many_arguments fuel argv ctx indet w :
  (256 <= length argv)%nat ->
  init_context fuel argv ctx indet w = Undefined \/
  init_context fuel argv ctx indet w = Done (Exits 1) w \/
  init_context fuel argv ctx indet w = Done Spins w.
Proof.
  intros Hargc. rewrite init_context_unfold.
  match goal with |- context [parse_args fuel argv 0 None ?c] =>
    set (ctx0 := c) end.
  destruct (parse_args fuel argv 0 None ctx0) as [r|c| |] eqn:Hp.
  - exfalso. revert Hp. apply parse_args_never_leaves; [exact Hargc | lia].
  - apply parse_args_quits in Hp as ->. right. left. reflexivity.
  - left. reflexivity.
  - right. right. reflexivity.
Qed.

(** X19: what a return of [init_context] means (the context came with no
    stream, as in [main]).  The device path is one of the arguments;
    [create_stream] on that path, with hints whose pixel format is RGB24
    or MJPEG, returned a stream, and [start] on it succeeded right
    after; the context holds the path, the stream, the params as
    [create_stream] left them, and 30 as [fps]. *)
Theorem init_context_returns fuel argv ctx indet w ctx' w' :
  ctx_stream ctx = None ->
  init_context fuel argv ctx indet w = Done (Returns ctx') w' ->
  exists path s cam0 w1,
    path ∈ argv /\
    (p_fmt cam0 = V4L2_PIX_FMT_RGB24 \/ p_fmt cam0 = V4L2_PIX_FMT_MJPEG) /\
    create_stream (Some path) cam0 indet w = Done (Some s, ctx_cam ctx') w1 /\
    start s w1 = Done true w' /\
    ctx_dev ctx' = Some path /\ ctx_stream ctx' = Some s /\
    ctx_fps ctx' = 30 /\ p_fmt (ctx_cam ctx') = p_fmt cam0.
Proof.
  intros Hnull. rewrite init_context_unfold.
  match goal with |- context [parse_args fuel argv 0 None ?c] =>
    set (ctx0 := c) end.
  destruct (parse_args fuel argv 0 None ctx0) as [[g c1]|c| |] eqn:Hp;
    try discriminate.
  apply parse_args_goes in Hp as (Hfps & Hstr & Hfmt & Hdev & _).
  subst ctx0.
  cbn [set_ctx_dev set_ctx_fps set_cam set_fmt ctx_fps ctx_stream ctx_cam
       ctx_dev p_fmt] in Hfps, Hstr, Hfmt, Hdev.
  destruct (ctx_dev c1) as [dev|] eqn:Hd; [|discriminate].
  unfold open_stream. intros Hrun.
  apply bind_Done_inv in Hrun as ([s cam] & w1 & Hc & Hrun).
  unfold assign_stream in Hrun. cbn [set_cam ctx_stream] in Hrun.
  rewrite Hstr, Hnull in Hrun. cbn [bind ret] in Hrun.
  destruct s as [s|]; [|discriminate].
  apply bind_Done_inv in Hrun as (ok & w2 & Hs & Hrun).
  destruct ok; cbn [negb] in Hrun; [|discriminate].
  injection Hrun as <- <-.
  exists dev, s, (ctx_cam c1), w1.
  cbn [set_ctx_stream set_cam ctx_dev ctx_stream ctx_fps ctx_cam].
  destruct (create_stream_spec _ _ _ _ _ _ _ Hc) as [Hpf _].
  repeat split; try assumption.
  destruct Hdev as [Hdev|[Hdev|(path & Hin & Hdev)]]; try discriminate.
  injection Hdev as <-. exact Hin.
Qed.

(** X20: [init_context] releases nothing (the context came with no
    stream, as in [main]).  However it ends, with a return or with an
    exit, after a stream that could not be created or one that could not
    be started, none of the calls it made is an unmapping or a close. *)
Theorem init_context_releases_nothing fuel argv ctx indet w r w' :
  ctx_stream ctx = None ->
  init_context fuel argv ctx indet w = Done r w' ->
  exists evs, trace w' = trace w ++ evs /\
              Forall (fun ev => releases ev = false) evs.
Proof.
  intros Hnull. rewrite init_context_unfold.
  match goal with |- context [parse_args fuel argv 0 None ?c] =>
    set (ctx0 := c) end.
  assert (Hstay : forall x, Done x w = Done r w' ->
            exists evs, trace w' = trace w ++ evs /\
                        Forall (fun ev => releases ev = false) evs).
  { intros x [= _ <-]. exists []. rewrite app_nil_r. auto. }
  destruct (parse_args fuel argv 0 None ctx0) as [[g c1]|c| |] eqn:Hp;
    try discriminate; try apply Hstay.
  apply parse_args_goes in Hp as (_ & Hstr & _).
  subst ctx0. cbn [set_ctx_dev set_ctx_fps set_cam ctx_stream] in Hstr.
  destruct (ctx_dev c1) as [dev|]; [|apply Hstay].
  unfold open_stream. intros Hrun.
  apply bind_Done_inv in Hrun as ([s cam] & w1 & Hc & Hrun).
  unfold assign_stream in Hrun. cbn [set_cam ctx_stream] in Hrun.
  rewrite Hstr, Hnull in Hrun. cbn [bind ret] in Hrun.
  apply create_stream_spec in Hc as (_ & evs & Ht & [Hrel _] & _).
  destruct s as [s|].
  2:{ injection Hrun as _ <-. eauto. }
  apply bind_Done_inv in Hrun as (ok & w2 & Hs & Hrun).
  assert (w' = w2) as -> by (destruct ok; injection Hrun as _ <-; reflexivity).
  unfold start in Hs.
  apply bind_Done_inv in Hs as ([ok' t] & w3 & Hs & Hret).
  injection Hret as _ <-.
  apply dev_ioctl_trace in Hs as (evs' & Ht' & Hof & _).
  exists (evs ++ evs'). rewrite Ht', Ht, <- app_assoc.
  split; [reflexivity|]. apply Forall_app. split; [exact Hrel|].
  eapply Forall_impl; [exact Hof|].
  intros ev Hev. destruct ev; try discriminate. reflexivity.
Qed.

(** * The theorems above at sample runs *)

Lemma control_failure_aborts_witness :
  exists r e' tr',
    (None, hints) = r /\
    create_stream (Some video0) hints limbo
      (boot [a_chardev; a_fd; a_format 640 480 MJPG; a_granted 2; a_array;
             a_queried 0; a_mapped 1000000; a_queried 1; a_mapped 2000000;
             a_done; a_einval])
    = Done r (mk_world [] e' tr').
Proof.
  refine (proj1 (proj2 (proj2 (proj1 (proj2
            (control_failure_aborts video0 hints limbo two_mapped
               ([], a_einval) _ _)) _) _ _) _ _ _) _ [] 0 []).
  - repeat split; cbn; lia.
  - split; [constructor | split; [reflexivity | cbn; lia]].
  - split; [split; [constructor | cbn; lia] | reflexivity].
  - split; [split; [constructor | cbn; lia] | cbn; unfold NULL; lia].
  - repeat constructor; cbn; unfold MAP_FAILED; lia.
  - reflexivity.
  - reflexivity.
  - repeat constructor; cbn; lia.
  - reflexivity.
Defined.

Lemma get_frame_poll_failure_witness :
  exists e',
    get_frame (cam zero_buffer) stack_garbage (boot [a_eintr; a_einval]) =
    Done (false, cam zero_buffer, stack_garbage)
         (mk_world [] e'
            [EvPoll 3 POLL_TIMEOUT_MS (-1) 4;
             EvPoll 3 POLL_TIMEOUT_MS (-1) 22]).
Proof.
  refine (get_frame_poll_failure (cam zero_buffer) stack_garbage [a_eintr]
            a_einval [] 0 [] _ _).
  - repeat constructor.
  - reflexivity.
Defined.

Lemma get_frame_dequeues_witness :
  get_frame (cam zero_buffer) blank
    (boot [a_eintr; a_readable; a_eagain; a_frame 1 52133 7]) =
  Done (true, cam record7, frame7)
       (mk_world [] 11
          [EvPoll 3 POLL_TIMEOUT_MS (-1) 4; EvPoll 3 POLL_TIMEOUT_MS 1 4;
           EvIoctl 3 VIDIOC_DQBUF (ABuf 0 0) (ABuf 0 0) (-1) 11;
           EvIoctl 3 VIDIOC_DQBUF (ABuf 0 0) (ABuf 1 52133) 0 11]).
Proof.
  refine (get_frame_dequeues (cam zero_buffer) blank [a_eintr] a_readable
            [a_eagain] (a_frame 1 52133 7) [] 0 [] _ _ _ _).
  - repeat constructor.
  - reflexivity.
  - repeat constructor.
  - reflexivity.
Defined.

Lemma get_frame_dequeue_failure_witness :
  exists e',
    get_frame (cam zero_buffer) stack_garbage
      (boot [a_eintr; a_readable; a_eagain; a_filled_then_failed]) =
    Done (false, cam record7, stack_garbage)
         (mk_world [] e'
            [EvPoll 3 POLL_TIMEOUT_MS (-1) 4; EvPoll 3 POLL_TIMEOUT_MS 1 4;
             EvIoctl 3 VIDIOC_DQBUF (ABuf 0 0) (ABuf 0 0) (-1) 11;
             EvIoctl 3 VIDIOC_DQBUF (ABuf 0 0) (ABuf 1 52133) (-1) 5]).
Proof.
  refine (proj1 (get_frame_dequeue_failure (cam zero_buffer) stack_garbage
                   [a_eintr] a_readable [a_eagain] a_filled_then_failed [] 0
                   [] _ _ _ _ _)).
  - repeat constructor.
  - reflexivity.
  - repeat constructor.
  - reflexivity.
  - reflexivity.
Defined.

Lemma create_stream_without_device_witness :
  create_stream (Some video0) hints limbo (boot [a_einval]) =
    Done (None, hints) (mk_world [] 22 [EvStat video0 (-1)]) /\
  create_stream None hints limbo (boot plain_camera) =
    Done (None, hints) (boot plain_camera).
Proof.
  refine (create_stream_without_device video0 hints limbo a_einval [] 0 []
            (boot plain_camera) _).
  left. reflexivity.
Defined.

Lemma create_stream_open_failure_witness :
  exists e',
    create_stream (Some video0) hints limbo (boot [a_chardev; a_einval]) =
    Done (None, hints)
         (mk_world [] e' [EvStat video0 0; EvOpen video0 2050 (-1)]).
Proof.
  refine (create_stream_open_failure video0 hints limbo a_chardev a_einval
            [] 0 [] _ _ _); reflexivity.
Defined.

Lemma put_frame_before_first_frame_witness :
  dev_buf (dev_ (cam (dev_buf limbo))) = dev_buf limbo /\
  (vb_bytesused (dev_buf limbo) = 0 ->
   put_frame (cam (dev_buf limbo)) plain_world
   = Done (cam (dev_buf limbo)) plain_world) /\
  (vb_bytesused (dev_buf limbo) <> 0 ->
   forall s1 w2,
     put_frame (cam (dev_buf limbo)) plain_world = Done s1 w2 ->
     exists evs, trace w2 = trace plain_world ++ evs /\
       (1 <= length evs)%nat /\
       Forall (fun ev => exists res r e,
                 ev = EvIoctl (dev_fd (dev_ (cam (dev_buf limbo))))
                        VIDIOC_QBUF (view (dev_buf limbo)) res r e) evs).
Proof.
  apply (put_frame_before_first_frame (Some video0) hints limbo
           (boot plain_camera) (cam (dev_buf limbo)) hints plain_world).
  reflexivity.
Defined.

Lemma create_stream_failure_params_witness :
  exists evs,
    trace (mk_world [] 22
             [EvStat video0 0; EvOpen video0 2050 3;
              EvIoctl 3 VIDIOC_S_FMT (AFmt 640 480 MJPG) (AFmt 320 240 MJPG)
                0 0;
              EvIoctl 3 VIDIOC_REQBUFS (AReq 2) (AReq 2) (-1) 22])
    = trace (boot [a_chardev; a_fd; a_format 320 240 MJPG; a_einval])
      ++ evs /\
    mk_params 320 240 30 MJPG
    = match accepted_format (p_fmt hints) evs with
      | Some (w0, h0) => mk_params (u16 w0) (u16 h0) (p_fps hints) (p_fmt hints)
      | None => hints
      end.
Proof.
  apply (create_stream_failure_params (Some video0) hints limbo
           (boot [a_chardev; a_fd; a_format 320 240 MJPG; a_einval])).
  reflexivity.
Defined.

Lemma construction_protocol_witness :
  exists ev_open ev_fmt ev_req ptr ev_map ev_q ev_parm,
    trace plain_world
    = trace (boot plain_camera) ++ ev_open ++ ev_fmt ++ ev_req
      ++ EvCalloc (fr_bufcnt (dev_frame (dev_ (cam (dev_buf limbo))))) ptr
      :: ev_map ++ ev_q ++ ev_parm /\
    Forall (fun ev => file_call ev = true) ev_open /\
    Forall (fun ev => ioctl_of VIDIOC_S_FMT ev = true) ev_fmt /\
    Forall (fun ev => ioctl_of VIDIOC_REQBUFS ev = true) ev_req /\
    Forall (fun ev => map_call ev = true) ev_map /\
    Forall (fun ev => ioctl_of VIDIOC_QBUF ev = true) ev_q /\
    Forall (fun ev => ioctl_of VIDIOC_S_PARM ev = true) ev_parm /\
    enqueued ev_q = seqZ 0 (fr_bufcnt (dev_frame (dev_ (cam (dev_buf limbo))))).
Proof.
  apply (construction_protocol (Some video0) hints limbo (boot plain_camera)
           (cam (dev_buf limbo)) hints plain_world).
  reflexivity.
Defined.

Lemma set_framerate_result_witness :
  set_framerate limbo 30 (boot [a_eagain; a_rate 300]) =
  Done 44
       (mk_world [] 11
          [EvIoctl 0 VIDIOC_S_PARM (AParm 30) (AParm 30) (-1) 11;
           EvIoctl 0 VIDIOC_S_PARM (AParm 30) (AParm 300) 0 11]).
Proof.
  refine (proj1 (set_framerate_result limbo 30 [a_eagain] (a_rate 300) [] 0
                   [] _ _)).
  - repeat constructor.
  - reflexivity.
Defined.

Lemma init_stream_bookkeeping_witness :
  0 <= fr_bufcnt (dev_frame half_built) <= 2 /\
  Z.of_nat (length (fr_buf (dev_frame half_built))) = 2 /\
  region <$> take (Z.to_nat (fr_bufcnt (dev_frame half_built)))
               (fr_buf (dev_frame half_built))
    = mappings (drop 2 broken_query_trace) /\
  forall w2,
    delete_device half_built w2 =
    Done tt (mk_world (script w2) (errno w2)
               (trace w2
                ++ ((fun x => EvMunmap x.2 x.1)
                      <$> mappings (drop 2 broken_query_trace))
                ++ [EvClose (dev_fd (new_device 3 limbo))])).
Proof.
  apply (init_stream_bookkeeping (new_device 3 limbo) hints broken_opened
           false half_built hints (mk_world [] 22 broken_query_trace)
           (drop 2 broken_query_trace) 2 24576).
  - reflexivity.
  - reflexivity.
  - apply list_elem_of_lookup_2 with 2%nat. reflexivity.
  - discriminate.
  - lia.
Defined.

Lemma params_option_decimal_witness :
  params_option (Some "70000x480@300") hints
  = Goes ("70000x480@300", mk_params 4464 480 44 MJPG) /\
  params_option (Some "70000x480") hints
  = Goes ("70000x480", mk_params 4464 480 30 MJPG).
Proof.
  refine (params_option_decimal 70000 480 300 hints _ _ _);
    unfold INT_MAX; lia.
Defined.

Lemma init_context_without_params_witness :
  init_context 4 ["camview"; "-d"; video0; "-j"] raw_context limbo
    (boot plain_camera) = Done (Exits 1) (boot plain_camera) \/
  exists dev fmt pf,
    dev ∈ ["camview"; "-d"; video0; "-j"] /\
    (fmt = V4L2_PIX_FMT_RGB24 \/ fmt = V4L2_PIX_FMT_MJPEG) /\
    init_context 4 ["camview"; "-d"; video0; "-j"] raw_context limbo
      (boot plain_camera) =
    open_stream
      (mk_context 30 pf (Some dev)
         (mk_params (p_w (ctx_cam raw_context)) (p_h (ctx_cam raw_context))
            (p_fps (ctx_cam raw_context)) fmt)
         (ctx_stream raw_context))
      dev limbo (boot plain_camera).
Proof.
  apply (init_context_without_params 4 ["camview"; "-d"; video0; "-j"]
           raw_context limbo (boot plain_camera)).
  - repeat constructor.
  - cbn. lia.
  - cbn. lia.
Defined.

Lemma init_context_loop_ends_witness :
  init_context 100 command_line raw_context limbo (boot streaming_camera)
  = init_context (length command_line) command_line raw_context limbo
      (boot streaming_camera) /\
  spinning (init_context 100 command_line raw_context limbo
              (boot streaming_camera)) = false.
Proof.
  apply (init_context_loop_ends 100 command_line raw_context limbo
           (boot streaming_camera)); cbn; lia.
Defined.

Lemma init_context_many_arguments_witness :
  init_context 1000 (replicate 256 "-f") raw_context limbo
    (boot streaming_camera) = Undefined \/
  init_context 1000 (replicate 256 "-f") raw_context limbo
    (boot streaming_camera) = Done (Exits 1) (boot streaming_camera) \/
  init_context 1000 (replicate 256 "-f") raw_context limbo
    (boot streaming_camera) = Done Spins (boot streaming_camera).
Proof.
  apply (init_context_many_arguments 1000 (replicate 256 "-f") raw_context
           limbo (boot streaming_camera)).
  rewrite length_replicate. lia.
Defined.

Lemma init_context_returns_witness :
  exists path s cam0 w1,
    path ∈ command_line /\
    (p_fmt cam0 = V4L2_PIX_FMT_RGB24 \/ p_fmt cam0 = V4L2_PIX_FMT_MJPEG) /\
    create_stream (Some path) cam0 limbo (boot streaming_camera)
    = Done (Some s, ctx_cam ready_context) w1 /\
    start s w1 = Done true streaming_world /\
    ctx_dev ready_context = Some path /\
    ctx_stream ready_context = Some s /\
    ctx_fps ready_context = 30 /\
    p_fmt (ctx_cam ready_context) = p_fmt cam0.
Proof.
  apply (init_context_returns 6 command_line raw_context limbo
           (boot streaming_camera) ready_context streaming_world);
    reflexivity.
Defined.

Lemma init_context_releases_nothing_witness :
  exists evs,
    trace refused_world
    = trace (boot (plain_camera ++ [a_einval])) ++ evs /\
    Forall (fun ev => releases ev = false) evs.
Proof.
  apply (init_context_releases_nothing 6 command_line raw_context limbo
           (boot (plain_camera ++ [a_einval])) (Exits 1) refused_world);
    reflexivity.
Defined.

Lemma get_frame_timeout_witness :
  get_frame (cam zero_buffer) earlier_frame (boot [a_eintr; a_timeout]) =
  Done (true, cam zero_buffer, earlier_frame)
       (mk_world [] 4
          [EvPoll 3 POLL_TIMEOUT_MS (-1) 4; EvPoll 3 POLL_TIMEOUT_MS 0 4]).
Proof.
  refine (get_frame_timeout (cam zero_buffer) earlier_frame [a_eintr]
            a_timeout [] 0 [] _ _).
  - repeat constructor.
  - reflexivity.
Defined.

Lemma get_frame_fresh_image_witness :
  (img_w frame7, img_h frame7) = get_frame_size (cam record7) /\
  get_frame_size (cam record7) = get_frame_size (cam zero_buffer) /\
  img_bytes frame7 = vb_bytesused (dev_buf (dev_ (cam record7))) /\
  img_bytes frame7 <> 0.
Proof.
  apply (get_frame_fresh_image (cam zero_buffer) blank
           (boot [a_readable; a_frame 1 52133 7]) (cam record7) frame7
           (mk_world [] 0 dequeued_trace)); reflexivity.
Defined.

Lemma create_stream_releases_nothing_witness :
  exists evs,
    trace (mk_world [] 22 broken_query_trace)
    = trace (boot broken_query) ++ evs /\
    Forall (fun ev => releases ev = false) evs.
Proof.
  apply (create_stream_releases_nothing (Some video0) hints limbo
           (boot broken_query) None hints (mk_world [] 22 broken_query_trace)).
  reflexivity.
Defined.

Lemma get_frame_keeps_polling_witness :
  get_frame (cam zero_buffer) blank
    (boot [a_eintr; a_hangup; a_eintr; a_hangup]) = Starved /\
  get_frame_loop 100
    (set_buf (dev_ (cam zero_buffer))
       (set_bytesused (dev_buf (dev_ (cam zero_buffer))) 0)) blank
    (boot [a_eintr; a_hangup; a_eintr; a_hangup]) = Starved.
Proof.
  apply (get_frame_keeps_polling (cam zero_buffer) blank
           [a_eintr; a_hangup; a_eintr; a_hangup] 0 [] 100).
  repeat constructor.
Defined.
